(** * FundShortingAnalysis: price peaks and insider-transaction history

    A shallow embedding of the two numeric transforms of the repository,

    - [pricePeaks.py]: [get_top_companies] and [extract_peaks_from_series];
    - [insiderTransactions.py]: [compute_insider_history];

    together with the library routines they call, modelled after the
    libraries' sources and documentation: SciPy's [find_peaks] (through
    [_local_maxima_1d]), pandas' [groupby], [mean], [sort_values],
    [reindex] and [cumsum], and CPython's [datetime.strptime].  Two
    library routines are parameters: NumPy's [argsort], whose order of
    equal values is unspecified, and [float] on a string.

    Numbers.  Prices and dollar amounts are Python floats in the source.
    They are modelled as rationals ([Q]): every finite float is a
    rational, comparisons are the numeric ones ([Qlt], [Qeq]), and
    arithmetic is exact.  Rounding, infinities and NaN are outside the
    model.

    Dates.  A [datetime.date] is modelled by its proleptic Gregorian
    ordinal ([date.toordinal()]), an integer; date comparison is integer
    comparison and [(b - a).days] is [b - a].

    Strings are byte strings; only ASCII letters and digits matter to the
    code.

    Exceptions.  A function that can raise returns an [outcome]; the
    exceptions the source catches on the spot are an [option]. *)

From Stdlib Require Import ZArith QArith Qabs Lia Lqa Bool.
From Stdlib Require Import String Ascii List Permutation Sorted.
From stdpp Require Import gmap strings list fin_maps sorting.

Local Open Scope Z_scope.

(** ** Comparisons on rationals *)

Definition Qlt_bool (a b : Q) : bool := negb (Qle_bool b a).

(** ** SciPy: [find_peaks] with no conditions

    [find_peaks(x)] returns the midpoints computed by [_local_maxima_1d]:

<<
    i = 1; i_max = x.shape[0] - 1
    while i < i_max:
        if x[i - 1] < x[i]:
            i_ahead = i + 1
            while i_ahead < i_max and x[i_ahead] == x[i]:
                i_ahead += 1
            if x[i_ahead] < x[i]:
                left_edges[m] = i
                right_edges[m] = i_ahead - 1
                midpoints[m] = (left_edges[m] + right_edges[m]) // 2
                m += 1
                i = i_ahead
        i += 1
>>
    A flat peak is reported once, at its middle sample, rounded down. *)

Definition at_ (x : list Q) (i : nat) : Q := nth i x 0%Q.

Fixpoint look_ahead (x : list Q) (i_max : nat) (xi : Q) (i_ahead fuel : nat) : nat :=
  match fuel with
  | O => i_ahead
  | S fuel' =>
      if (i_ahead <? i_max)%nat && Qeq_bool (at_ x i_ahead) xi
      then look_ahead x i_max xi (S i_ahead) fuel'
      else i_ahead
  end.

Fixpoint local_maxima_loop (x : list Q) (i_max i fuel : nat) : list nat :=
  match fuel with
  | O => []
  | S fuel' =>
      if (i <? i_max)%nat then
        if Qlt_bool (at_ x (i - 1)) (at_ x i) then
          let i_ahead := look_ahead x i_max (at_ x i) (i + 1) (i_max - i) in
          if Qlt_bool (at_ x i_ahead) (at_ x i) then
            ((i + (i_ahead - 1)) / 2)%nat
              :: local_maxima_loop x i_max (i_ahead + 1) fuel'
          else local_maxima_loop x i_max (i + 1) fuel'
        else local_maxima_loop x i_max (i + 1) fuel'
      else []
  end.

Definition local_maxima_1d (x : list Q) : list nat :=
  local_maxima_loop x (length x - 1) 1 (length x).

Definition find_peaks (x : list Q) : list nat := local_maxima_1d x.

(** ** NumPy: [argsort]

    [np.argsort(v)] returns the positions of [v] in ascending order of
    value.  Its default kind is not a stable sort: the order it gives to
    equal values is not part of its contract.  The functions below take
    the sort as a parameter [argsort]; what is proved of them holds for
    every sort that meets the contract [sorts_ascending], and what
    depends on the order of equal values is stated for a [stable] one.

    [argsort_insertion] is what NumPy's portable implementation of the
    default kind does on a short array (at most 16 elements): an
    insertion sort, in which each element in turn moves left past the
    strictly greater ones, so that equal values keep their order. *)

Fixpoint argsort_insert (v : list Q) (j : nat) (sorted : list nat) : list nat :=
  match sorted with
  | [] => [j]
  | h :: t =>
      if Qlt_bool (at_ v j) (at_ v h) then j :: h :: t
      else h :: argsort_insert v j t
  end.

Definition argsort_insertion (v : list Q) : list nat :=
  fold_left (fun sorted j => argsort_insert v j sorted) (seq 0 (length v)) [].

(** No constraint on the order of equal values. *)
Definition any_order {A} (a b : A) : Prop := True.

(** Ascending by value, equal values ordered by [tie]. *)
Definition key_ord (tie : nat -> nat -> Prop) (v : list Q) (a b : nat) : Prop :=
  (at_ v a < at_ v b)%Q \/ ((at_ v a == at_ v b)%Q /\ tie a b).

(** The contract of [argsort]: a permutation of the positions, in
    ascending order of value. *)
Definition sorts_ascending (argsort : list Q -> list nat) : Prop :=
  forall v, Permutation (argsort v) (seq 0 (length v))
            /\ StronglySorted (key_ord any_order v) (argsort v).

(** A stable sort: equal values keep their order. *)
Definition stable (argsort : list Q -> list nat) : Prop :=
  forall v, StronglySorted (key_ord lt v) (argsort v).

(** [a[idx]]: indexing an array by an array of in-range positions. *)
Definition take_at {A} (d : A) (a : list A) (idx : list nat) : list A :=
  map (fun i => nth i a d) idx.

(** ** [extract_peaks_from_series] (pricePeaks.py) *)

Definition sorted_peak_indices (argsort : list Q -> list nat) (values : list Q)
    : list nat :=
  let peaks_indices := find_peaks values in
  let peak_values := take_at 0%Q values peaks_indices in
  take_at O peaks_indices (rev (argsort peak_values)).

Definition top_peak_indices (argsort : list Q -> list nat) (values : list Q)
    (num_peaks : nat) : list nat :=
  let peaks_indices := find_peaks values in
  if (length peaks_indices =? 0)%nat then []
  else firstn num_peaks (sorted_peak_indices argsort values).

(** [dates[i]] raises [IndexError] when [dates] is shorter than [values];
    [None] stands for that exception. *)
Definition extract_peaks_from_series {D} (argsort : list Q -> list nat)
    (dates : list D) (values : list Q) (num_peaks : nat) : option (list (D * Q)) :=
  mapM (fun i => d ← dates !! i; v ← values !! i; Some (d, v))
       (top_peak_indices argsort values num_peaks).

(** ** pandas: [groupby(key)[col]], [mean], [abs], [sort_values], [head]

    [groupby] sorts the group keys (its default [sort=True]); each group
    keeps its rows in input order.  The grouped table is an association
    list ordered by key. *)

Fixpoint group_insert (k : string) (v : Q) (g : list (string * list Q))
    : list (string * list Q) :=
  match g with
  | [] => [(k, [v])]
  | (k', vs) :: t =>
      match String.compare k k' with
      | Eq => (k', vs ++ [v]) :: t
      | Lt => (k, [v]) :: (k', vs) :: t
      | Gt => (k', vs) :: group_insert k v t
      end
  end.

Definition groupby (df : list (string * Q)) : list (string * list Q) :=
  fold_left (fun g row => group_insert (fst row) (snd row) g) df [].

Definition Qsum (vs : list Q) : Q := fold_left Qplus vs 0%Q.

Definition mean (vs : list Q) : Q :=
  (Qsum vs / inject_Z (Z.of_nat (length vs)))%Q.

(** [nargsort(items, ascending=False)] (pandas/core/sorting.py), on items
    without NaN: reverse the items and their positions, [argsort], map
    back to positions, reverse the result. *)
Definition nargsort_desc (argsort : list Q -> list nat) (items : list Q) : list nat :=
  let idx := seq 0 (length items) in
  let non_nans := rev items in
  let non_nan_idx := rev idx in
  let indexer := take_at O non_nan_idx (argsort non_nans) in
  rev indexer.

(** ** [get_top_companies] (pricePeaks.py)

    A row of [df] is [(ticker, stock_price)]. *)

Definition avg_price (df : list (string * Q)) : list (string * Q) :=
  map (fun g => (fst g, Qabs (mean (snd g)))) (groupby df).

(** [s.sort_values(ascending=False)] on a series of [(key, value)]. *)
Definition sort_values_desc (argsort : list Q -> list nat) (s : list (string * Q))
    : list (string * Q) :=
  take_at (EmptyString, 0%Q) s (nargsort_desc argsort (map snd s)).

Definition get_top_companies (argsort : list Q -> list nat) (df : list (string * Q))
    (top_n : nat) : list string :=
  map fst (firstn top_n (sort_values_desc argsort (avg_price df))).

(** ** CPython: [datetime.datetime.strptime(s, "%Y-%m-%d").date()]

    [_strptime] matches the string against the regular expression
<<
    (?P<Y>\d\d\d\d)-(?P<m>1[0-2]|0[1-9]|[1-9])-(?P<d>3[0-1]|[1-2]\d|0[1-9]|[1-9]| [1-9])
>>
    from its start, rejects it when characters remain after the match,
    and builds the date, which checks the year ([MINYEAR = 1]) and the
    day against the length of the month.  Every failure is a
    [ValueError]; [None] stands for it. *)

Definition in_range (lo hi c : ascii) : bool :=
  (nat_of_ascii lo <=? nat_of_ascii c)%nat && (nat_of_ascii c <=? nat_of_ascii hi)%nat.

Definition is_digit (c : ascii) : bool := in_range "0" "9" c.

Definition digit_val (c : ascii) : Z := Z.of_nat (nat_of_ascii c) - 48.

Definition is_char (c d : ascii) : bool := Ascii.eqb c d.

(** [(?P<Y>\d\d\d\d)-] *)
Definition match_year (s : string) : option (Z * string) :=
  match s with
  | String a (String b (String c (String d (String e rest)))) =>
      if is_digit a && is_digit b && is_digit c && is_digit d && is_char e "-"
      then Some (1000 * digit_val a + 100 * digit_val b
                 + 10 * digit_val c + digit_val d, rest)
      else None
  | _ => None
  end.

(** [(?P<m>1[0-2]|0[1-9]|[1-9])-] *)
Definition match_month (s : string) : option (Z * string) :=
  match s with
  | String a (String b rest) =>
      if ((is_char a "1" && in_range "0" "2" b)
          || (is_char a "0" && in_range "1" "9" b))
         && (match rest with String c _ => is_char c "-" | _ => false end)
      then match rest with
           | String _ rest' => Some (10 * digit_val a + digit_val b, rest')
           | EmptyString => None
           end
      else if in_range "1" "9" a && is_char b "-"
      then Some (digit_val a, rest)
      else None
  | _ => None
  end.

(** [(?P<d>3[0-1]|[1-2]\d|0[1-9]|[1-9]| [1-9])], then the end of the
    string: the first alternative that matches is the match, and
    characters left after it are "unconverted data". *)
Definition match_day (s : string) : option Z :=
  match s with
  | String a (String b rest) =>
      if (is_char a "3" && in_range "0" "1" b)
         || (in_range "1" "2" a && is_digit b)
         || (is_char a "0" && in_range "1" "9" b)
      then match rest with
           | EmptyString => Some (10 * digit_val a + digit_val b)
           | _ => None
           end
      else if in_range "1" "9" a then None
      else if is_char a " " && in_range "1" "9" b
      then match rest with
           | EmptyString => Some (digit_val b)
           | _ => None
           end
      else None
  | String a EmptyString => if in_range "1" "9" a then Some (digit_val a) else None
  | EmptyString => None
  end.

Definition is_leap (year : Z) : bool :=
  (year mod 4 =? 0) && (negb (year mod 100 =? 0) || (year mod 400 =? 0)).

Definition days_before_year (year : Z) : Z :=
  let y := year - 1 in y * 365 + y / 4 - y / 100 + y / 400.

Definition DAYS_IN_MONTH : list Z := [-1; 31; 28; 31; 30; 31; 30; 31; 31; 30; 31; 30; 31].

Definition DAYS_BEFORE_MONTH : list Z :=
  [-1; 0; 31; 59; 90; 120; 151; 181; 212; 243; 273; 304; 334].

Definition days_in_month (year month : Z) : Z :=
  if (month =? 2) && is_leap year then 29
  else nth (Z.to_nat month) DAYS_IN_MONTH 0.

Definition days_before_month (year month : Z) : Z :=
  nth (Z.to_nat month) DAYS_BEFORE_MONTH 0
  + (if (2 <? month) && is_leap year then 1 else 0).

Definition ymd2ord (year month day : Z) : Z :=
  days_before_year year + days_before_month year month + day.

(** [date(year, month, day)], as its ordinal. *)
Definition make_date (year month day : Z) : option Z :=
  if (1 <=? year) && (year <=? 9999) && (1 <=? month) && (month <=? 12)
     && (1 <=? day) && (day <=? days_in_month year month)
  then Some (ymd2ord year month day)
  else None.

Definition strptime_ymd (s : string) : option Z :=
  '(y, s1) ← match_year s;
  '(m, s2) ← match_month s1;
  d ← match_day s2;
  make_date y m d.

(** The format as the specification words it, a strict [YYYY-MM-DD]:
    four digits, a dash, two digits, a dash, two digits and nothing
    else, forming a real calendar date. *)
Definition strict_ymd (s : string) : option Z :=
  match s with
  | String y1 (String y2 (String y3 (String y4 (String h1
      (String m1 (String m2 (String h2 (String d1 (String d2 EmptyString))))))))) =>
      if is_digit y1 && is_digit y2 && is_digit y3 && is_digit y4
         && is_char h1 "-" && is_digit m1 && is_digit m2
         && is_char h2 "-" && is_digit d1 && is_digit d2
      then make_date (1000 * digit_val y1 + 100 * digit_val y2
                      + 10 * digit_val y3 + digit_val y4)
                     (10 * digit_val m1 + digit_val m2)
                     (10 * digit_val d1 + digit_val d2)
      else None
  | _ => None
  end.

(** ** Python strings: [str.lower] and the [in] operator *)

Definition lower_ascii (c : ascii) : ascii :=
  if in_range "A" "Z" c then ascii_of_nat (nat_of_ascii c + 32) else c.

Fixpoint lower (s : string) : string :=
  match s with
  | EmptyString => EmptyString
  | String c s' => String (lower_ascii c) (lower s')
  end.

(** [pat in s] *)
Fixpoint contains (pat s : string) : bool :=
  String.prefix pat s
  || match s with
     | EmptyString => false
     | String _ s' => contains pat s'
     end.

(** ** Python values and exceptions

    A transaction is a [dict] decoded from JSON: a finite map from keys
    to values.  [PyOther] stands for lists and dicts. *)

Inductive pyval : Type :=
  | PyStr (s : string)
  | PyNum (q : Q)
  | PyBool (b : bool)
  | PyNone
  | PyOther.

Inductive exn : Type :=
  | AttributeError.

Inductive outcome (A : Type) : Type :=
  | Returns (a : A)
  | Raises (e : exn).
Arguments Returns {A} a.
Arguments Raises {A} e.

(** [datetime.datetime.strptime(v, "%Y-%m-%d").date()]: a [TypeError]
    when [v] is not a [str], a [ValueError] when it does not parse. *)
Definition py_strptime (v : pyval) : option Z :=
  match v with
  | PyStr s => strptime_ymd s
  | _ => None
  end.

(** [v.lower()]: only [str] has the attribute; [None] stands for the
    [AttributeError]. *)
Definition py_lower (v : pyval) : option string :=
  match v with
  | PyStr s => Some (lower s)
  | _ => None
  end.

(** pandas: [groupby('date')['net_value'].sum()], the per-date totals;
    sorting and re-indexing the result by date does not change it as a
    map. *)
Definition groupby_sum (records : list (Z * Q)) : gmap Z Q :=
  fold_left (fun m r => <[fst r := (default 0%Q (m !! fst r) + snd r)%Q]> m)
            records ∅.

(** [pd.date_range(start, end)]: every calendar day from [start] to
    [end], both included. *)
Definition date_range (start_date end_date : Z) : list Z :=
  seqZ start_date (end_date - start_date + 1).

(** [daily.reindex(all_dates, fill_value=0)] *)
Definition reindex (daily : gmap Z Q) (all_dates : list Z) (fill_value : Q)
    : list (Z * Q) :=
  map (fun d => (d, default fill_value (daily !! d))) all_dates.

(** [cumsum]: the first element, then each running total plus the next
    element. *)
Fixpoint cumsum_from (acc : Q) (l : list Q) : list Q :=
  match l with
  | [] => []
  | x :: t => (acc + x)%Q :: cumsum_from (acc + x)%Q t
  end.

Definition cumsum (l : list Q) : list Q :=
  match l with
  | [] => []
  | x :: t => x :: cumsum_from x t
  end.

(** ** [compute_insider_history] (insiderTransactions.py) *)

Section Reconstructor.

(** [float(s)] on a [str]; [None] stands for its [ValueError].  Which
    strings it accepts is the library's business. *)
Variable float_of_str : string -> option Q.

(** [float(v)]: a [TypeError] on [None], lists and dicts. *)
Definition py_float (v : pyval) : option Q :=
  match v with
  | PyStr s => float_of_str s
  | PyNum q => Some q
  | PyBool b => Some (if b then 1%Q else 0%Q)
  | PyNone | PyOther => None
  end.

(** The state of the loop: the records appended so far and the values
    named in the warnings logged so far. *)
Record loop_state : Type := {
  records : list (Z * Q);
  warnings : list pyval
}.

Definition net_value_of (txn_type : string) (value : Q) : Q :=
  if contains "buy" txn_type then value
  else if contains "sell" txn_type then (- value)%Q
  else 0%Q.

(** One iteration of [for txn in transactions]. *)
Definition loop_body (start_date end_date : Z) (st : loop_state)
    (txn : gmap string pyval) : outcome loop_state :=
  let txn_date_str := default (PyStr "") (txn !! "transactionDate") in
  match py_strptime txn_date_str with
  | None =>
      Returns {| records := records st;
                 warnings := warnings st ++ [txn_date_str] |}
  | Some txn_date =>
      if (txn_date <? start_date) || (end_date <? txn_date) then Returns st
      else
        let value :=
          default 0%Q (py_float (default (PyNum 0) (txn !! "transactionValue"))) in
        match py_lower (default (PyStr "") (txn !! "transactionType")) with
        | None => Raises AttributeError
        | Some txn_type =>
            Returns {| records := records st
                                    ++ [(txn_date, net_value_of txn_type value)];
                       warnings := warnings st |}
        end
  end.

Fixpoint for_each (start_date end_date : Z) (transactions : list (gmap string pyval))
    (st : loop_state) : outcome loop_state :=
  match transactions with
  | [] => Returns st
  | txn :: rest =>
      match loop_body start_date end_date st txn with
      | Returns st' => for_each start_date end_date rest st'
      | Raises e => Raises e
      end
  end.

(** The [net_value] column after [reindex]: one row per date of the
    window. *)
Definition daily_net (recs : list (Z * Q)) (start_date end_date : Z)
    : list (Z * Q) :=
  reindex (groupby_sum recs) (date_range start_date end_date) 0%Q.

(** The frame built from the records: empty when there are none. *)
Definition history_of (recs : list (Z * Q)) (start_date end_date : Z)
    : list (Z * Q) :=
  match recs with
  | [] => []
  | _ :: _ =>
      let daily := daily_net recs start_date end_date in
      combine (map fst daily) (cumsum (map snd daily))
  end.

(** The result: the rows [(date, net_insider)] of the returned frame,
    and the warnings logged on the way. *)
Definition compute_insider_history (transactions : list (gmap string pyval))
    (start_date end_date : Z) : outcome (list (Z * Q) * list pyval) :=
  match for_each start_date end_date transactions
                 {| records := []; warnings := [] |} with
  | Raises e => Raises e
  | Returns st =>
      Returns (history_of (records st) start_date end_date, warnings st)
  end.

End Reconstructor.

(** A [float_of_str] for the examples: it reads integer literals, on
    which it agrees with [float]. *)
Fixpoint digits_val (acc : Z) (s : string) : option Z :=
  match s with
  | EmptyString => Some acc
  | String c s' =>
      if is_digit c then digits_val (10 * acc + digit_val c) s' else None
  end.

Definition float_of_int_literal (s : string) : option Q :=
  match s with
  | EmptyString => None
  | String "-" (String c s') => z ← digits_val 0 (String c s'); Some (inject_Z (- z))
  | _ => z ← digits_val 0 s; Some (inject_Z z)
  end.

Definition txn_of (d ty v : pyval) : gmap string pyval :=
  {[ "transactionDate" := d; "transactionType" := ty; "transactionValue" := v ]}.

Definition scenario_events : list (gmap string pyval) :=
  [ txn_of (PyStr "2024-01-02") (PyStr "P-Buy") (PyStr "100");
    txn_of (PyStr "2024-01-02") (PyStr "S-Sell") (PyStr "30");
    txn_of (PyStr "2024-01-05") (PyStr "Buy") (PyNum 50) ].

Definition scenario_history : list (Z * Q) :=
  [(738886, 0%Q); (738887, 70%Q); (738888, 70%Q);
   (738889, 70%Q); (738890, 120%Q); (738891, 120%Q)].

(** ** Orders used to state the rankings *)

(** Descending by value, equal values ordered by [tie]. *)
Definition desc_ord (tie : nat -> nat -> Prop) (v : list Q) (a b : nat) : Prop :=
  (at_ v b < at_ v a)%Q \/ ((at_ v a == at_ v b)%Q /\ tie a b).

(** Descending by value, equal values in any order. *)
Definition value_desc (v : list Q) : nat -> nat -> Prop := desc_ord any_order v.

(** Descending by value, equal values with the later position first. *)
Definition desc_later_first (v : list Q) : nat -> nat -> Prop := desc_ord gt v.

(** Descending by value, equal values with the earlier position first:
    the order the specification asks of a ranked selection. *)
Definition desc_earlier_first (v : list Q) : nat -> nat -> Prop := desc_ord lt v.

(** A strict local maximum at an interior position, as the
    specification defines a peak. *)
Definition strict_peak (v : list Q) (i : nat) : Prop :=
  (1 <= i)%nat /\ (i + 1 < length v)%nat
  /\ (at_ v (i - 1) < at_ v i)%Q /\ (at_ v (i + 1) < at_ v i)%Q.

(** What [find_peaks] reports: the middle, rounded down, of a run
    [l..r] of equal samples that lies strictly inside the series and
    whose two outer neighbours are strictly lower. *)
Definition flat_peak (v : list Q) (i : nat) : Prop :=
  exists l r : nat,
    (1 <= l)%nat /\ (l <= r)%nat /\ (r + 1 < length v)%nat
    /\ i = ((l + r) / 2)%nat
    /\ (forall j, (l <= j <= r)%nat -> (at_ v j == at_ v l)%Q)
    /\ (at_ v (l - 1) < at_ v l)%Q /\ (at_ v (r + 1) < at_ v r)%Q.

(** ** Orders used to state the cohort ranking *)

(** Strings in ascending order, as [groupby] sorts its keys. *)
Definition str_lt (a b : string) : Prop := String.compare a b = Lt.

(** The series of a key: the prices of its rows, in input order. *)
Definition series_of (df : list (string * Q)) (k : string) : list Q :=
  map snd (List.filter (fun row => String.eqb (fst row) k) df).

(** The score of a key: the absolute value of the mean of its series. *)
Definition score (df : list (string * Q)) (k : string) : Q :=
  Qabs (mean (series_of df k)).

(** Descending by score, equal scores ordered by [tie]. *)
Definition by_score_ord (tie : string -> string -> Prop) (df : list (string * Q))
    (a b : string) : Prop :=
  (score df b < score df a)%Q \/ ((score df a == score df b)%Q /\ tie a b).

(** Descending by score, equal scores in any order. *)
Definition by_score (df : list (string * Q)) : string -> string -> Prop :=
  by_score_ord any_order df.

(** Descending by score, equal scores in ascending key order. *)
Definition by_score_then_key (df : list (string * Q)) : string -> string -> Prop :=
  by_score_ord str_lt df.

(** The position of the first row of a key. *)
Fixpoint first_seen (df : list (string * Q)) (k : string) : nat :=
  match df with
  | [] => O
  | row :: rest => if String.eqb (fst row) k then O else S (first_seen rest k)
  end.

(** Descending by score, equal scores in the order the keys were first
    encountered: the order the specification asks of the cohort
    ranking. *)
Definition by_score_then_first_seen (df : list (string * Q))
    : string -> string -> Prop :=
  by_score_ord (fun a b => (first_seen df a < first_seen df b)%nat) df.

(** All the keys in ranked order: the index of
    [avg_price.sort_values(ascending=False)]. *)
Definition ranked_companies (argsort : list Q -> list nat) (df : list (string * Q))
    : list string :=
  map fst (sort_values_desc argsort (avg_price df)).

(** The series found for a key in a grouped table. *)
Fixpoint group_lookup (g : list (string * list Q)) (k : string) : list Q :=
  match g with
  | [] => []
  | (k', vs) :: t => if String.eqb k' k then vs else group_lookup t k
  end.

(** ** What one transaction does to the loop *)

Inductive effect : Type :=
  | Warned (v : pyval)
  | Skipped
  | Kept (r : Z * Q)
  | Failed (e : exn).

Definition in_window (start_date end_date d : Z) : bool :=
  negb ((d <? start_date) || (end_date <? d)).

(** [pat] occurs in [s]. *)
Definition substring_of (pat s : string) : Prop :=
  exists pre post : string, s = (pre ++ pat ++ post)%string.

(** The first [(date, net_insider)] frame of a result. *)
Definition frame_of (o : outcome (list (Z * Q) * list pyval)) : outcome (list (Z * Q)) :=
  match o with
  | Returns (rows, _) => Returns rows
  | Raises e => Raises e
  end.

(** The total of one date, as [groupby_sum] accumulates it. *)
Definition day_step (d : Z) (acc : option Q) (r : Z * Q) : option Q :=
  if fst r =? d then Some (default 0%Q acc + snd r)%Q else acc.

Definition day_total (recs : list (Z * Q)) (d : Z) : option Q :=
  fold_left (day_step d) recs None.

(** All amounts have the sign [sgn], which is 1 or -1. *)
Definition same_sign (sgn : Q) (amounts : list Q) : Prop :=
  (sgn = 1%Q /\ Forall (fun a => (0 <= a)%Q) amounts)
  \/ (sgn = (- (1))%Q /\ Forall (fun a => (a <= 0)%Q) amounts).

Section ReconstructorReadings.

Variable float_of_str : string -> option Q.

Definition txn_date_field (txn : gmap string pyval) : pyval :=
  default (PyStr "") (txn !! "transactionDate").

Definition txn_date (txn : gmap string pyval) : option Z :=
  py_strptime (txn_date_field txn).

Definition txn_value (txn : gmap string pyval) : Q :=
  default 0%Q (py_float float_of_str (default (PyNum 0) (txn !! "transactionValue"))).

Definition txn_type (txn : gmap string pyval) : option string :=
  py_lower (default (PyStr "") (txn !! "transactionType")).

Definition effect_of (start_date end_date : Z) (txn : gmap string pyval) : effect :=
  match txn_date txn with
  | None => Warned (txn_date_field txn)
  | Some d =>
      if in_window start_date end_date d then
        match txn_type txn with
        | None => Failed AttributeError
        | Some ty => Kept (d, net_value_of ty (txn_value txn))
        end
      else Skipped
  end.

(** The records of the transactions that survive validation and
    filtering, in input order. *)
Definition kept (start_date end_date : Z) (txns : list (gmap string pyval))
    : list (Z * Q) :=
  omap (fun txn => match effect_of start_date end_date txn with
                   | Kept r => Some r
                   | _ => None
                   end) txns.

Definition warned (start_date end_date : Z) (txns : list (gmap string pyval))
    : list pyval :=
  omap (fun txn => match effect_of start_date end_date txn with
                   | Warned v => Some v
                   | _ => None
                   end) txns.

Definition fails (start_date end_date : Z) (txn : gmap string pyval) : bool :=
  match effect_of start_date end_date txn with
  | Failed _ => true
  | _ => false
  end.

(** The transaction has a date that parses and lies in the window. *)
Definition survives (start_date end_date : Z) (txn : gmap string pyval) : Prop :=
  exists d, txn_date txn = Some d /\ start_date <= d <= end_date.

(** The [net_value] column after [reindex], for a list of
    transactions. *)
Definition daily_net_of (txns : list (gmap string pyval)) (start_date end_date : Z)
    : outcome (list (Z * Q)) :=
  match for_each float_of_str start_date end_date txns
                 {| records := []; warnings := [] |} with
  | Raises e => Raises e
  | Returns st => Returns (daily_net (records st) start_date end_date)
  end.

End ReconstructorReadings.

(** ** Sample inputs *)

Definition peaks_series : list Q := [1; 3; 2; 5; 4; 5; 1]%Q.

Definition cohort_tie_rows : list (string * Q) := [("B", 10); ("A", 10)]%Q.

Definition cancelling_events : list (gmap string pyval) :=
  [ txn_of (PyStr "2024-01-02") (PyStr "Buy") (PyStr "100");
    txn_of (PyStr "2024-01-02") (PyStr "Sell") (PyNum 100);
    txn_of (PyStr "2024-01-03") (PyStr "Gift") (PyStr "5");
    txn_of (PyStr "2023-12-31") (PyStr "Buy") (PyStr "7");
    txn_of (PyStr "not a date") (PyStr "Buy") (PyStr "9") ].

Definition cancelling_history : list (Z * Q) :=
  [(738886, 0%Q); (738887, 0%Q); (738888, 0%Q)].

Definition empty_state : loop_state := {| records := []; warnings := [] |}.

Definition bad_date_txn : gmap string pyval :=
  txn_of (PyStr "02/01/2024") (PyStr "Buy") (PyStr "100").

Definition early_txn : gmap string pyval :=
  txn_of (PyStr "2023-12-31") (PyStr "Buy") (PyStr "100").

Definition bad_amount_txn : gmap string pyval :=
  txn_of (PyStr "2024-01-02") (PyStr "Buy") (PyStr "a lot").

Definition split_buys : list (gmap string pyval) :=
  map (fun a => txn_of (PyStr "2024-01-02") (PyStr "Buy") (PyNum a)) [100; 50]%Q.

Definition merged_buy : gmap string pyval :=
  txn_of (PyStr "2024-01-02") (PyStr "Buy")
         (PyNum (1 * Qsum (map Qabs [100; 50]%Q))).

(** * The programs around the transforms

    The rest of the two files: reading the symbols, fetching from the
    provider, detecting its rate limit, plotting, and the two [main]
    functions.  Their effects are explicit: a [world] holds the number
    of HTTP requests made so far and the trace of what the program has
    requested, logged, printed and plotted, and the provider is an
    oracle [http] that gives the outcome of the n-th request.

    Logging, printing and plotting are taken not to raise.  The
    environment is a map from names to strings.  [pd.to_datetime] on a
    string is a parameter, like [float]. *)

(** ** Python strings: [str.split(",")] and [str.strip()] *)

(** [s.split(sep)] for a one-character separator. *)
Fixpoint split_on (sep : ascii) (s : string) : list string :=
  match s with
  | EmptyString => [EmptyString]
  | String c s' =>
      if Ascii.eqb c sep then EmptyString :: split_on sep s'
      else match split_on sep s' with
           | h :: t => String c h :: t
           | [] => [String c EmptyString]
           end
  end.

(** The ASCII characters [str.strip()] removes: codes 9 to 13, 28 to 31
    and 32.  Whitespace outside ASCII is not modelled: a byte above 127
    is kept. *)
Definition is_space (c : ascii) : bool :=
  let n := nat_of_ascii c in
  ((9 <=? n) && (n <=? 13) || (28 <=? n) && (n <=? 32))%nat.

Fixpoint lstrip (s : string) : string :=
  match s with
  | EmptyString => EmptyString
  | String c s' => if is_space c then lstrip s' else s
  end.

Fixpoint rstrip (s : string) : string :=
  match s with
  | EmptyString => EmptyString
  | String c s' =>
      match rstrip s' with
      | EmptyString => if is_space c then EmptyString else String c EmptyString
      | r => String c r
      end
  end.

Definition strip (s : string) : string := rstrip (lstrip s).

Definition nonempty (s : string) : bool := negb (String.eqb s EmptyString).

(** [[s.strip() for s in symbols_str.split(",") if s.strip()]] *)
Definition parse_symbols (symbols_str : string) : list string :=
  map strip (List.filter (fun s => nonempty (strip s)) (split_on "," symbols_str)).

(** [",".join(l)] *)
Fixpoint join_commas (l : list string) : string :=
  match l with
  | [] => EmptyString
  | [s] => s
  | s :: rest => (s ++ String "," (join_commas rest))%string
  end.

(** A symbol as [parse_symbols] yields them: not empty, no comma, no
    whitespace at either end. *)
Definition first_char_ok (s : string) : Prop :=
  match s with
  | EmptyString => False
  | String c _ => is_space c = false
  end.

Fixpoint last_char_ok (s : string) : Prop :=
  match s with
  | EmptyString => False
  | String c EmptyString => is_space c = false
  | String _ s' => last_char_ok s'
  end.

Definition clean_symbol (s : string) : Prop :=
  first_char_ok s /\ last_char_ok s /\ contains "," s = false.

(** ** JSON values

    What [response.json()] returns: [None], a [bool], a number, a [str],
    a [list] or a [dict].  A [dict] is the list of its items, in order;
    its keys are distinct, and a lookup takes the first item of a key. *)

#[warnings="-register-all"]
Inductive json : Type :=
  | JNull
  | JBool (b : bool)
  | JNum (q : Q)
  | JStr (s : string)
  | JList (l : list json)
  | JObj (o : list (string * json)).

Fixpoint obj_get (o : list (string * json)) (k : string) : option json :=
  match o with
  | [] => None
  | (k', v) :: t => if String.eqb k' k then Some v else obj_get t k
  end.

(** [k in d] *)
Definition has_key (o : list (string * json)) (k : string) : bool :=
  match obj_get o k with
  | Some _ => true
  | None => false
  end.

(** [d.get(k)], whose default is [None]. *)
Definition py_get (o : list (string * json)) (k : string) : json :=
  default JNull (obj_get o k).

(** [bool(v)] *)
Definition truthy (v : json) : bool :=
  match v with
  | JNull => false
  | JBool b => b
  | JNum q => negb (Qeq_bool q 0)
  | JStr s => nonempty s
  | JList l => match l with [] => false | _ => true end
  | JObj o => match o with [] => false | _ => true end
  end.

(** [v is None] *)
Definition is_null (v : json) : bool :=
  match v with
  | JNull => true
  | _ => false
  end.

(** [a or b] *)
Definition py_or (a b : json) : json := if truthy a then a else b.

(** The value as the reconstructor reads it from a record. *)
Definition json_to_pyval (v : json) : pyval :=
  match v with
  | JNull => PyNone
  | JBool b => PyBool b
  | JNum q => PyNum q
  | JStr s => PyStr s
  | JList _ | JObj _ => PyOther
  end.

Definition to_dict (o : list (string * json)) : gmap string pyval :=
  list_to_map (map (fun kv => (fst kv, json_to_pyval (snd kv))) o).

(** [for x in v]: the items of a list, the keys of a dict, the
    characters of a string; a [TypeError] on anything else. *)
Definition py_iter (v : json) : option (list json) :=
  match v with
  | JList l => Some l
  | JObj o => Some (map (fun kv => JStr (fst kv)) o)
  | JStr s => Some (map (fun c => JStr (String c EmptyString)) (list_ascii_of_string s))
  | JNull | JBool _ | JNum _ => None
  end.

Definition is_str (k : string) (v : json) : bool :=
  match v with
  | JStr s => String.eqb s k
  | _ => false
  end.

(** [k in v] for a string [k]: a key of a dict, an item of a list, a
    substring of a string; a [TypeError] on anything else. *)
Definition py_contains (k : string) (v : json) : option bool :=
  match v with
  | JObj o => Some (has_key o k)
  | JList l => Some (existsb (is_str k) l)
  | JStr s => Some (contains k s)
  | JNull | JBool _ | JNum _ => None
  end.

(** ** Effects *)

Inductive level : Type := DEBUG | INFO | WARNING | ERROR.

(** What is logged or printed; a message stands for its text, without
    the text of a caught exception. *)
Inductive message : Type :=
  | LimitReached (endpoint symbol : string) (detail : json)
  | RawInsiderData (symbol : string) (data : json)
  | FetchedInsider (symbol : string)
  | ErrorFetchingInsider (symbol : string)
  | FetchedOverview (symbol : string)
  | ErrorFetchingOverview (symbol : string)
  | SkippingInvalidDate (v : pyval)
  | SavedPlot (symbol filename : string)
  | NoSymbols
  | Processing (symbol : string)
  | LimitWhileFetchingInsider
  | LimitWhileFetchingOverview
  | MarketCapNotAvailable (symbol : string)
  | InvalidMarketCap (symbol : string) (v : json)
  | NoInsiderData (symbol : string)
  | FinishedProcessing (symbol : string)
  | Fetching (symbol : string)
  | NoValidData (symbol : string) (detail : json)
  | ErrorFetchingData (symbol : string)
  | NoDataFetched
  | TopCompanies (companies : list string)
  | CompanyHeader (company : string)
  | PeakAt (date : Z) (value : Q)
  | NoPeaksFound.

Inductive io_event : Type :=
  | Requested (url : string) (params : list (string * option string))
  | Logged (lvl : level) (msg : message)
  | Printed (msg : message)
  | Plotted (filename : string) (as_percent : bool) (series : list (Z * Q)).

Record world : Type := {
  requests_made : nat;
  trace : list io_event
}.

Definition emit (ev : io_event) (w : world) : world :=
  {| requests_made := requests_made w; trace := trace w ++ [ev] |}.

Definition emit_all (evs : list io_event) (w : world) : world :=
  {| requests_made := requests_made w; trace := trace w ++ evs |}.

Definition log (lvl : level) (msg : message) : world -> world := emit (Logged lvl msg).

Definition print (msg : message) : world -> world := emit (Printed msg).

(** An uncaught exception ends the program. *)
Inductive crash : Type :=
  | CrashAttributeError
  | CrashTypeError
  | CrashIndexError.

Inductive run (A : Type) : Type :=
  | Done (a : A)
  | Crash (c : crash).
Arguments Done {A} a.
Arguments Crash {A} c.

(** The requests in a trace, each as [(function, symbol)]. *)
Definition param (params : list (string * option string)) (k : string) : string :=
  match List.find (fun kv => String.eqb (fst kv) k) params with
  | Some (_, Some v) => v
  | _ => EmptyString
  end.

Definition requests_of (t : list io_event) : list (string * string) :=
  omap (fun ev => match ev with
                  | Requested _ params => Some (param params "function", param params "symbol")
                  | _ => None
                  end) t.

(** The plots in a trace, each as [(filename, as_percent, series)]. *)
Definition plots_of (t : list io_event) : list (string * bool * list (Z * Q)) :=
  omap (fun ev => match ev with
                  | Plotted filename pct series => Some (filename, pct, series)
                  | _ => None
                  end) t.

(** The provider signals its limit: a dict with one of the three keys. *)
Definition limit_flagged (data : json) : bool :=
  match data with
  | JObj o => has_key o "Note" || has_key o "Error Message" || has_key o "Information"
  | _ => false
  end.

(** ** insiderTransactions.py: the program *)

Section InsiderProgram.

Variable float_of_str : string -> option Q.

(** [http n] is the outcome of the n-th call of [requests.get],
    [raise_for_status] and [response.json()]: the decoded body, or
    [None] when any of the three raises. *)
Variable http : nat -> option json.

(** [datetime.date.today()] *)
Variable today : Z.

Definition request (url : string) (params : list (string * option string))
    (w : world) : option json * world :=
  (http (requests_made w),
   {| requests_made := S (requests_made w);
      trace := trace w ++ [Requested url params] |}).

Definition check_api_limit (data : json) (symbol endpoint : string) (w : world)
    : bool * world :=
  match data with
  | JObj o =>
      if has_key o "Note" || has_key o "Error Message" || has_key o "Information"
      then
        let message :=
          py_or (py_get o "Note")
                (py_or (py_get o "Error Message") (py_get o "Information")) in
        (true, log ERROR (LimitReached endpoint symbol message) w)
      else (false, w)
  | _ => (false, w)
  end.

(** The result is a JSON value; Python's [None] is [JNull]. *)
Definition fetch_insider_transactions (symbol : string) (api_key : option string)
    (base_url : string) (w : world) : json * world :=
  let params := [("function", Some "INSIDER_TRANSACTIONS");
                 ("symbol", Some symbol); ("apikey", api_key)] in
  let '(response, w) := request base_url params w in
  match response with
  | None => (JList [], log ERROR (ErrorFetchingInsider symbol) w)
  | Some data =>
      let w := log DEBUG (RawInsiderData symbol data) w in
      let '(limit, w) := check_api_limit data symbol "INSIDER_TRANSACTIONS" w in
      if limit then (JNull, w)
      else
        let w := log INFO (FetchedInsider symbol) w in
        match data with
        | JObj o => (default (JList []) (obj_get o "data"), w)
        | _ => (JList [], log ERROR (ErrorFetchingInsider symbol) w)
        end
  end.

Definition fetch_overview (symbol : string) (api_key : option string)
    (base_url : string) (w : world) : json * world :=
  let params := [("function", Some "OVERVIEW");
                 ("symbol", Some symbol); ("apikey", api_key)] in
  let '(response, w) := request base_url params w in
  match response with
  | None => (JObj [], log ERROR (ErrorFetchingOverview symbol) w)
  | Some data =>
      let '(limit, w) := check_api_limit data symbol "OVERVIEW" w in
      if limit then (JNull, w)
      else (data, log INFO (FetchedOverview symbol) w)
  end.

(** [for txn in transactions] on a list of JSON values: [txn.get]
    raises [AttributeError] on anything that is not a dict.  The state
    holds what was recorded and logged before an exception. *)
Fixpoint for_each_json (start_date end_date : Z) (transactions : list json)
    (st : loop_state) : loop_state * option crash :=
  match transactions with
  | [] => (st, None)
  | JObj o :: rest =>
      match loop_body float_of_str start_date end_date st (to_dict o) with
      | Returns st' => for_each_json start_date end_date rest st'
      | Raises AttributeError => (st, Some CrashAttributeError)
      end
  | _ :: _ => (st, Some CrashAttributeError)
  end.

(** [compute_insider_history] on whatever the fetch returned: the
    frame or the exception, and the warnings logged. *)
Definition compute_insider_history_json (transactions : json)
    (start_date end_date : Z) : run (list (Z * Q)) * list pyval :=
  match py_iter transactions with
  | None => (Crash CrashTypeError, [])
  | Some items =>
      let '(st, c) := for_each_json start_date end_date items
                                    {| records := []; warnings := [] |} in
      match c with
      | Some c => (Crash c, warnings st)
      | None => (Done (history_of (records st) start_date end_date), warnings st)
      end
  end.

(** A market cap of zero makes the ratio infinite, which is outside the
    model of numbers. *)
Definition plot_insider_history (symbol : string) (history_df : list (Z * Q))
    (market_cap : option Q) (w : world) : string * world :=
  match market_cap with
  | Some cap =>
      let ratio := map (fun r => (fst r, (snd r / cap * 100)%Q)) history_df in
      let filename := ("insider_history_" ++ symbol ++ ".png")%string in
      (filename, log INFO (SavedPlot symbol filename)
                     (emit (Plotted filename true ratio) w))
  | None =>
      let filename := ("insider_history_" ++ symbol ++ "_raw.png")%string in
      (filename, log INFO (SavedPlot symbol filename)
                     (emit (Plotted filename false history_df) w))
  end.

(** [overview.get("MarketCapitalization")] and what follows it, for an
    overview that is a dict. *)
Definition read_market_cap (symbol : string) (o : list (string * json)) (w : world)
    : option Q * world :=
  let market_cap_str := py_get o "MarketCapitalization" in
  if negb (truthy market_cap_str)
  then (None, print (MarketCapNotAvailable symbol)
                    (log WARNING (MarketCapNotAvailable symbol) w))
  else
    match py_float float_of_str (json_to_pyval market_cap_str) with
    | Some cap => (Some cap, w)
    | None => (None, print (InvalidMarketCap symbol market_cap_str)
                           (log ERROR (InvalidMarketCap symbol market_cap_str) w))
    end.

(** The body of [for symbol in symbols] in [main]; [None] is the
    [return] that leaves the loop. *)
Definition process_symbol (api_key : option string) (base_url : string)
    (start_date end_date : Z) (symbol : string) (w : world)
    : run (option unit) * world :=
  let w := print (Processing symbol) (log INFO (Processing symbol) w) in
  let '(transactions, w) := fetch_insider_transactions symbol api_key base_url w in
  if is_null transactions
  then (Done None, print LimitWhileFetchingInsider
                         (log ERROR LimitWhileFetchingInsider w))
  else
    let '(overview, w) := fetch_overview symbol api_key base_url w in
    if is_null overview
    then (Done None, print LimitWhileFetchingOverview
                           (log ERROR LimitWhileFetchingOverview w))
    else
      match overview with
      | JObj o =>
          let '(market_cap, w) := read_market_cap symbol o w in
          let '(history, warns) :=
            compute_insider_history_json transactions start_date end_date in
          let w := emit_all (map (fun v => Logged WARNING (SkippingInvalidDate v)) warns) w in
          match history with
          | Crash c => (Crash c, w)
          | Done [] => (Done (Some tt), print (NoInsiderData symbol)
                                              (log INFO (NoInsiderData symbol) w))
          | Done history_df =>
              let '(_, w) := plot_insider_history symbol history_df market_cap w in
              (Done (Some tt), print (FinishedProcessing symbol)
                                     (log INFO (FinishedProcessing symbol) w))
          end
      | _ => (Crash CrashAttributeError, w)
      end.

Fixpoint process_symbols (api_key : option string) (base_url : string)
    (start_date end_date : Z) (symbols : list string) (w : world)
    : run unit * world :=
  match symbols with
  | [] => (Done tt, w)
  | symbol :: rest =>
      match process_symbol api_key base_url start_date end_date symbol w with
      | (Done (Some _), w') =>
          process_symbols api_key base_url start_date end_date rest w'
      | (Done None, w') => (Done tt, w')
      | (Crash c, w') => (Crash c, w')
      end
  end.

(** [main] of insiderTransactions.py; [env] is the environment after
    [load_dotenv()]. *)
Definition insider_main (env : gmap string string) (w : world) : run unit * world :=
  let api_key := env !! "API_TOKEN" in
  let base_url := default "https://www.alphavantage.co/query" (env !! "BASE_URL") in
  let symbols_str := default "" (env !! "SYMBOLS") in
  if negb (nonempty symbols_str)
  then (Done tt, print NoSymbols (log ERROR NoSymbols w))
  else
    let symbols := parse_symbols symbols_str in
    let end_date := today in
    let start_date := end_date - 365 in
    process_symbols api_key base_url start_date end_date symbols w.

End InsiderProgram.

(** ** pricePeaks.py: the program *)

Record price_row : Type := {
  row_date : Z;
  row_price : Q;
  row_ticker : string
}.

Definition ticker_price (r : price_row) : string * Q := (row_ticker r, row_price r).

(** [results[company] = peaks] on a dict kept as the list of its
    items. *)
Fixpoint dict_set {V} (d : list (string * V)) (k : string) (v : V)
    : list (string * V) :=
  match d with
  | [] => [(k, v)]
  | (k', v') :: t =>
      if String.eqb k' k then (k', v) :: t else (k', v') :: dict_set t k v
  end.

Section PeaksProgram.

Variable float_of_str : string -> option Q.

(** [pd.to_datetime(s)] on a string, as an instant on an integer scale;
    [None] stands for the exception it raises on a string it cannot
    read. *)
Variable to_datetime : string -> option Z.

Variable argsort : list Q -> list nat.

Variable http : nat -> option json.

Definition peaks_request (url : string) (params : list (string * option string))
    (w : world) : option json * world :=
  (http (requests_made w),
   {| requests_made := S (requests_made w);
      trace := trace w ++ [Requested url params] |}).

(** [float(values["4. close"])]: a [KeyError], [TypeError] or
    [ValueError] is [None]. *)
Definition close_of (values : json) : option Q :=
  match values with
  | JObj o =>
      match obj_get o "4. close" with
      | Some v => py_float float_of_str (json_to_pyval v)
      | None => None
      end
  | _ => None
  end.

(** The list comprehension over [time_series.items()]. *)
Definition parse_rows (symbol : string) (items : list (string * json))
    : option (list price_row) :=
  mapM (fun item =>
          d ← to_datetime (fst item);
          p ← close_of (snd item);
          Some {| row_date := d; row_price := p; row_ticker := symbol |})
       items.

(** [df.sort_values(by="date")]: ascending, through [nargsort], which
    for an ascending sort is [argsort] of the column. *)
Definition sort_by_date (df : list price_row) : list price_row :=
  take_at {| row_date := 0; row_price := 0%Q; row_ticker := EmptyString |} df
          (argsort (map (fun r => inject_Z (row_date r)) df)).

Definition fetch_data_for_symbol (symbol : string) (base_url : string)
    (api_token : option string) (w : world) : list price_row * world :=
  let params := [("function", Some "TIME_SERIES_DAILY"); ("symbol", Some symbol);
                 ("apikey", api_token); ("outputsize", Some "compact")] in
  let '(response, w) := peaks_request base_url params w in
  let failed := ([], print (ErrorFetchingData symbol) w) in
  match response with
  | None => failed
  | Some data =>
      match py_contains "Time Series (Daily)" data, data with
      | Some false, JObj o =>
          ([], print (NoValidData symbol
                        (py_or (py_get o "Note") (py_get o "Error Message"))) w)
      | Some true, JObj o =>
          match obj_get o "Time Series (Daily)" with
          | Some (JObj time_series) =>
              match parse_rows symbol time_series with
              | Some (r :: rows) => (sort_by_date (r :: rows), w)
              | _ => failed
              end
          | _ => failed
          end
      | _, _ => failed
      end
  end.

(** The first loop of [main]: the non-empty frames, in order. *)
Fixpoint fetch_all (api_token : option string) (base_url : string)
    (symbols : list string) (all_data : list (list price_row)) (w : world)
    : list (list price_row) * world :=
  match symbols with
  | [] => (all_data, w)
  | symbol :: rest =>
      let w := print (Fetching symbol) w in
      let '(df_symbol, w) := fetch_data_for_symbol symbol base_url api_token w in
      fetch_all api_token base_url rest
                (match df_symbol with [] => all_data | _ => all_data ++ [df_symbol] end)
                w
  end.

(** The rows of one company, by date. *)
Definition company_df (data_df : list price_row) (company : string) : list price_row :=
  sort_by_date (List.filter (fun r => String.eqb (row_ticker r) company) data_df).

(** The second loop of [main]: [results], as the list of its items. *)
Fixpoint collect_peaks (data_df : list price_row) (companies : list string)
    (results : list (string * list (Z * Q))) : run (list (string * list (Z * Q))) :=
  match companies with
  | [] => Done results
  | company :: rest =>
      let df := company_df data_df company in
      let dates := map row_date df in
      let prices := map row_price df in
      match extract_peaks_from_series argsort dates prices 3 with
      | None => Crash CrashIndexError
      | Some peaks => collect_peaks data_df rest (dict_set results company peaks)
      end
  end.

Definition top_companies_of (data_df : list price_row) : list string :=
  get_top_companies argsort (map ticker_price data_df) 5.

(** [results] of [main] for the concatenated data. *)
Definition peak_results (data_df : list price_row) : run (list (string * list (Z * Q))) :=
  collect_peaks data_df (top_companies_of data_df) [].

Definition display_company (item : string * list (Z * Q)) : list io_event :=
  Printed (CompanyHeader (fst item))
  :: match snd item with
     | [] => [Printed NoPeaksFound]
     | peaks => map (fun p => Printed (PeakAt (fst p) (snd p))) peaks
     end.

(** [main] of pricePeaks.py. *)
Definition peaks_main (env : gmap string string) (w : world) : run unit * world :=
  let api_token := env !! "API_TOKEN" in
  let base_url := default "https://www.alphavantage.co/query" (env !! "BASE_URL") in
  let symbols_str := default "" (env !! "SYMBOLS") in
  if negb (nonempty symbols_str) then (Done tt, print NoSymbols w)
  else
    let symbols := parse_symbols symbols_str in
    let '(all_data, w) := fetch_all api_token base_url symbols [] w in
    match all_data with
    | [] => (Done tt, print NoDataFetched w)
    | _ =>
        let data_df := concat all_data in
        let w := print (TopCompanies (top_companies_of data_df)) w in
        match peak_results data_df with
        | Crash c => (Crash c, w)
        | Done results => (Done tt, emit_all (flat_map display_company results) w)
        end
    end.

End PeaksProgram.

(** ** Readings used to state the programs' properties *)

(** The requests of insiderTransactions.py for a list of symbols, when
    nothing stops it. *)
Definition insider_schedule (symbols : list string) : list (string * string) :=
  flat_map (fun s => [("INSIDER_TRANSACTIONS", s); ("OVERVIEW", s)]%string) symbols.

(** The requests of pricePeaks.py. *)
Definition peaks_schedule (symbols : list string) : list (string * string) :=
  map (fun s => ("TIME_SERIES_DAILY"%string, s)) symbols.

Definition plot_name (symbol : string) (as_percent : bool) : string :=
  ("insider_history_" ++ symbol ++ (if as_percent then ".png" else "_raw.png"))%string.

Definition is_obj (v : json) : bool :=
  match v with
  | JObj _ => true
  | _ => false
  end.

(** A transaction record whose type, when present, is a string. *)
Definition well_formed_txn (t : json) : Prop :=
  exists o, t = JObj o
            /\ match obj_get o "transactionType" with
               | None | Some (JStr _) => True
               | Some _ => False
               end.

(** A response that is a dict whose ["data"], when present, is null or
    a list of well-formed records. *)
Definition well_formed_response (data : json) : Prop :=
  exists o, data = JObj o
            /\ match obj_get o "data" with
               | None | Some JNull => True
               | Some (JList l) => Forall well_formed_txn l
               | Some _ => False
               end.

(** The market cap [main] reads from an overview. *)
Definition market_cap_of (float_of_str : string -> option Q)
    (o : list (string * json)) : option Q :=
  let v := py_get o "MarketCapitalization" in
  if truthy v then py_float float_of_str (json_to_pyval v) else None.

(** The plot of a history: as a percentage of the market cap when there
    is one. *)
Definition plot_of_history (symbol : string) (market_cap : option Q)
    (history : list (Z * Q)) : string * bool * list (Z * Q) :=
  match market_cap with
  | Some cap => (plot_name symbol true, true,
                 map (fun r => (fst r, (snd r / cap * 100)%Q)) history)
  | None => (plot_name symbol false, false, history)
  end.

(** What [fetch_insider_transactions] returns, by response. *)
Definition insider_result (response : option json) : json :=
  match response with
  | None => JList []
  | Some data =>
      if limit_flagged data then JNull
      else match data with
           | JObj o => default (JList []) (obj_get o "data")
           | _ => JList []
           end
  end.

(** What [fetch_overview] returns, by response. *)
Definition overview_result (response : option json) : json :=
  match response with
  | None => JObj []
  | Some data => if limit_flagged data then JNull else data
  end.

(** The plots of a run over a list of symbols: at most one for each
    symbol, in the order of the symbols, each with one row for each
    date of the window. *)
Inductive plots_for (start_date end_date : Z)
    : list string -> list (string * bool * list (Z * Q)) -> Prop :=
  | plots_for_nil : plots_for start_date end_date [] []
  | plots_for_skip (symbol : string) (symbols : list string)
        (plots : list (string * bool * list (Z * Q))) :
      plots_for start_date end_date symbols plots ->
      plots_for start_date end_date (symbol :: symbols) plots
  | plots_for_plot (symbol : string) (symbols : list string) (as_percent : bool)
        (series : list (Z * Q)) (plots : list (string * bool * list (Z * Q))) :
      map fst series = date_range start_date end_date ->
      plots_for start_date end_date symbols plots ->
      plots_for start_date end_date (symbol :: symbols)
                ((plot_name symbol as_percent, as_percent, series) :: plots).

(** One symbol of [main], by the two responses: how the iteration ends
    and what it plots. *)
Definition symbol_outcome (float_of_str : string -> option Q)
    (start_date end_date : Z) (symbol : string) (r1 r2 : option json)
    : run (option unit) * list (string * bool * list (Z * Q)) :=
  let transactions := insider_result r1 in
  if is_null transactions then (Done None, [])
  else
    let overview := overview_result r2 in
    if is_null overview then (Done None, [])
    else
      match overview with
      | JObj o =>
          match fst (compute_insider_history_json float_of_str transactions
                                                  start_date end_date) with
          | Crash c => (Crash c, [])
          | Done [] => (Done (Some tt), [])
          | Done history_df =>
              (Done (Some tt),
               [plot_of_history symbol (market_cap_of float_of_str o) history_df])
          end
      | _ => (Crash CrashAttributeError, [])
      end.

(** ** Sample runs *)

Definition fresh_world : world := {| requests_made := 0; trace := [] |}.

Definition sample_env : gmap string string :=
  {[ "SYMBOLS" := " AAPL, MSFT ,"%string ]}.

(** A provider that answers every request with its limit note. *)
Definition limited_http (n : nat) : option json :=
  Some (JObj [("Note"%string, JStr "API call frequency exceeded")]).

(** A provider that cannot be reached. *)
Definition failing_http (n : nat) : option json := None.

Definition sample_txns : list (list (string * json)) :=
  [ [("transactionDate", JStr "2024-01-02"); ("transactionType", JStr "P-Buy");
     ("transactionValue", JStr "100")];
    [("transactionDate", JStr "2024-01-02"); ("transactionType", JStr "S-Sell");
     ("transactionValue", JStr "30")];
    [("transactionDate", JStr "2024-01-05"); ("transactionType", JStr "Buy");
     ("transactionValue", JNum 50)] ]%string.

Definition sample_insider_response : list (string * json) :=
  [("data"%string, JList (map JObj sample_txns))].

Definition sample_overview_response : list (string * json) :=
  [("Symbol", JStr "AAPL"); ("MarketCapitalization", JStr "1000")]%string.

(** A provider that answers the first request with the transactions
    and every other one with the overview. *)
Definition sample_http (n : nat) : option json :=
  match n with
  | O => Some (JObj sample_insider_response)
  | _ => Some (JObj sample_overview_response)
  end.

(** The frames [main] collects for a list of symbols: at most one for
    each symbol, in the order of the symbols, none of them empty, each
    with rows of its symbol only. *)
Inductive frames_for : list string -> list (list price_row) -> Prop :=
  | frames_for_nil : frames_for [] []
  | frames_for_skip (symbol : string) (symbols : list string)
        (frames : list (list price_row)) :
      frames_for symbols frames -> frames_for (symbol :: symbols) frames
  | frames_for_frame (symbol : string) (symbols : list string)
        (df : list price_row) (frames : list (list price_row)) :
      df <> [] -> Forall (fun r => row_ticker r = symbol) df ->
      frames_for symbols frames ->
      frames_for (symbol :: symbols) (df :: frames).

(** A provider that answers with a daily series of three closing
    prices. *)
Definition sample_series : list (string * json) :=
  [ ("2024-01-03", JObj [("1. open", JStr "100"); ("4. close", JStr "103")]);
    ("2024-01-02", JObj [("1. open", JStr "99"); ("4. close", JStr "105")]);
    ("2024-01-01", JObj [("1. open", JStr "98"); ("4. close", JStr "101")]) ]%string.

Definition price_http (n : nat) : option json :=
  Some (JObj [("Meta Data"%string, JObj []);
              ("Time Series (Daily)"%string, JObj sample_series)]).

Definition sample_rows : list price_row :=
  [ {| row_date := 738886; row_price := 101%Q; row_ticker := "AAPL" |};
    {| row_date := 738887; row_price := 105%Q; row_ticker := "AAPL" |};
    {| row_date := 738888; row_price := 103%Q; row_ticker := "AAPL" |} ].

Definition blank_env : gmap string string := {[ "SYMBOLS" := " , ,"%string ]}.

(** Dates for the first two samples of [peaks_series] only. *)
Definition short_dates : list Z := [738886; 738887].

(** The companies whose peaks a trace reports, in order. *)
Definition reported (t : list io_event) : list string :=
  omap (fun ev => match ev with
                  | Printed (CompanyHeader company) => Some company
                  | _ => None
                  end) t.

(** * Proofs *)

(** ** Facts about comparisons on rationals *)

Lemma Qlt_bool_iff (a b : Q) : Qlt_bool a b = true <-> (a < b)%Q.
Proof.
  unfold Qlt_bool. rewrite negb_true_iff, <- not_true_iff_false, Qle_bool_iff.
  split; [apply Qnot_le_lt | apply Qlt_not_le].
Qed.

Lemma Qlt_bool_false (a b : Q) : Qlt_bool a b = false <-> (b <= a)%Q.
Proof.
  unfold Qlt_bool. rewrite negb_false_iff. apply Qle_bool_iff.
Qed.

Lemma Qeq_bool_false (a b : Q) : Qeq_bool a b = false <-> ~ (a == b)%Q.
Proof.
  rewrite <- not_true_iff_false, Qeq_bool_iff. reflexivity.
Qed.

(** ** The specification's scenarios, computed *)

Example peaks_scenario :
  top_peak_indices argsort_insertion [1; 3; 2; 5; 4; 5; 1]%Q 2 = [5; 3]%nat.
Proof. reflexivity. Qed.

Example peaks_plateau : find_peaks [1; 2; 2; 1]%Q = [1]%nat.
Proof. reflexivity. Qed.

Example cohort_scenario :
  get_top_companies argsort_insertion
    [("A", 10); ("B", -20); ("C", 5); ("A", 10); ("B", -20)]%Q 2 = ["B"; "A"].
Proof. reflexivity. Qed.

Example cohort_tie :
  get_top_companies argsort_insertion [("B", 10); ("A", 10)]%Q 2 = ["A"; "B"].
Proof. reflexivity. Qed.

Example strptime_iso : strptime_ymd "2024-01-02" = Some 738887.
Proof. reflexivity. Qed.

Example strptime_unpadded : strptime_ymd "2024-1-2" = strptime_ymd "2024-01-02".
Proof. reflexivity. Qed.

Example strptime_bad_day : strptime_ymd "2023-02-29" = None.
Proof. reflexivity. Qed.

Example strptime_trailing : strptime_ymd "2024-01-02T00:00" = None.
Proof. reflexivity. Qed.

Example reconstructor_scenario :
  compute_insider_history float_of_int_literal scenario_events 738886 738891
  = Returns (scenario_history, []).
Proof. vm_compute. reflexivity. Qed.

(** ** Facts about lists and orders *)

Section SortedFacts.
Context {A B : Type}.

Lemma StronglySorted_rev (R : A -> A -> Prop) (l : list A) :
  StronglySorted R l -> StronglySorted (fun a b => R b a) (rev l).
Proof.
  induction 1 as [|x l Hl IH Hx]; simpl; [constructor|].
  apply StronglySorted_app_2; [| exact IH | repeat constructor].
  intros a b Ha Hb. apply list_elem_of_In in Ha. apply in_rev in Ha.
  apply list_elem_of_In in Hb. destruct Hb as [<-|[]].
  exact (proj1 (List.Forall_forall _ _) Hx a Ha).
Qed.

Lemma StronglySorted_map_in (R : A -> A -> Prop) (S : B -> B -> Prop)
    (f : A -> B) (l : list A) :
  (forall a b, In a l -> In b l -> R a b -> S (f a) (f b)) ->
  StronglySorted R l -> StronglySorted S (map f l).
Proof.
  intros Hf Hl. induction Hl as [|x l Hl IH Hx]; simpl; constructor.
  - apply IH. intros a b Ha Hb. apply Hf; right; assumption.
  - apply List.Forall_forall. intros y Hy.
    apply in_map_iff in Hy. destruct Hy as (a & <- & Ha).
    apply Hf; [left; reflexivity | right; exact Ha |].
    exact (proj1 (List.Forall_forall _ _) Hx a Ha).
Qed.

Lemma firstn_In (n : nat) (l : list A) (y : A) :
  In y (firstn n l) -> In y l.
Proof.
  intros H. rewrite <- (firstn_skipn n l). apply in_or_app. left. exact H.
Qed.

Lemma StronglySorted_firstn (R : A -> A -> Prop) (n : nat) (l : list A) :
  StronglySorted R l -> StronglySorted R (firstn n l).
Proof.
  intros Hl. revert n. induction Hl as [|x l Hl IH Hx]; intros [|n]; simpl;
    try constructor.
  - apply IH.
  - apply List.Forall_forall. intros y Hy.
    apply (proj1 (List.Forall_forall _ _) Hx).
    eapply firstn_In; eassumption.
Qed.

Lemma StronglySorted_nth (R : A -> A -> Prop) (l : list A) (d : A) (p q : nat) :
  StronglySorted R l -> (p < q)%nat -> (q < length l)%nat ->
  R (nth p l d) (nth q l d).
Proof.
  intros Hl. revert p q. induction Hl as [|h t Ht IH Hh]; intros p q Hpq Hq.
  - simpl in Hq. lia.
  - destruct q as [|q]; [lia|]. simpl in Hq. destruct p as [|p]; simpl.
    + apply (proj1 (List.Forall_forall _ _) Hh). apply nth_In. lia.
    + apply IH; lia.
Qed.

Lemma take_at_seq (d : A) (a : list A) :
  take_at d a (seq 0 (length a)) = a.
Proof.
  unfold take_at. induction a as [|x a IH]; simpl; [reflexivity|].
  f_equal. rewrite <- seq_shift, map_map. exact IH.
Qed.

Lemma take_at_perm (d : A) (a : list A) (idx : list nat) :
  Permutation idx (seq 0 (length a)) -> Permutation (take_at d a idx) a.
Proof.
  intros H. rewrite <- (take_at_seq d a) at 2.
  unfold take_at. apply Permutation_map. exact H.
Qed.
End SortedFacts.

(** ** Facts about [argsort] *)

Lemma argsort_insert_perm (v : list Q) (j : nat) (l : list nat) :
  Permutation (argsort_insert v j l) (j :: l).
Proof.
  induction l as [|h t IH]; simpl; [reflexivity|].
  destruct (Qlt_bool (at_ v j) (at_ v h)); [reflexivity|].
  rewrite IH. apply perm_swap.
Qed.

Lemma argsort_insert_sorted (v : list Q) (j : nat) (l : list nat) :
  StronglySorted (key_ord lt v) l -> Forall (fun h => (h < j)%nat) l ->
  StronglySorted (key_ord lt v) (argsort_insert v j l).
Proof.
  induction 1 as [|h t Ht IH Hh]; intros Hlt; simpl.
  - repeat constructor.
  - apply Forall_cons in Hlt as [Hhj Hlt].
    destruct (Qlt_bool (at_ v j) (at_ v h)) eqn:E.
    + apply Qlt_bool_iff in E. constructor; [constructor; assumption|].
      constructor; [left; exact E|].
      apply List.Forall_forall. intros y Hy. left.
      destruct (proj1 (List.Forall_forall _ _) Hh y Hy) as [H|[H _]];
        [lra | rewrite <- H; exact E].
    + apply Qlt_bool_false in E. constructor; [apply IH; exact Hlt|].
      eapply Permutation_Forall; [symmetry; apply argsort_insert_perm|].
      constructor; [|exact Hh].
      destruct (Qlt_le_dec (at_ v h) (at_ v j)) as [H|H]; [left; exact H|].
      right. split; [apply Qle_antisym; assumption | exact Hhj].
Qed.

Lemma argsort_fold (v : list Q) (n a : nat) (acc : list nat) :
  StronglySorted (key_ord lt v) acc -> Forall (fun h => (h < a)%nat) acc ->
  let out := fold_left (fun sorted j => argsort_insert v j sorted) (seq a n) acc in
  StronglySorted (key_ord lt v) out /\ Permutation out (acc ++ seq a n).
Proof.
  revert a acc. induction n as [|n IH]; intros a acc Hs Hlt; simpl.
  - split; [exact Hs | rewrite app_nil_r; reflexivity].
  - destruct (IH (S a) (argsort_insert v a acc)) as [H1 H2].
    + apply argsort_insert_sorted; assumption.
    + eapply Permutation_Forall; [symmetry; apply argsort_insert_perm|].
      constructor; [lia|]. eapply List.Forall_impl; [|exact Hlt].
      simpl. intros; lia.
    + split; [exact H1|]. rewrite H2, argsort_insert_perm.
      change (a :: acc) with ([a] ++ acc).
      rewrite (Permutation_app_comm [a] acc), <- app_assoc. reflexivity.
Qed.

Lemma key_ord_weaken (tie : nat -> nat -> Prop) (v : list Q) (l : list nat) :
  StronglySorted (key_ord tie v) l -> StronglySorted (key_ord any_order v) l.
Proof.
  induction 1 as [|x l Hl IH Hx]; constructor; [exact IH|].
  eapply List.Forall_impl; [|exact Hx].
  intros a [H|[H _]]; [left; exact H | right; split; [exact H | exact I]].
Qed.

Lemma argsort_insertion_stable : stable argsort_insertion.
Proof. intros v. apply (argsort_fold v (length v) 0 []); constructor. Qed.

Lemma argsort_insertion_sorts : sorts_ascending argsort_insertion.
Proof.
  intros v. split.
  - apply (argsort_fold v (length v) 0 []); constructor.
  - eapply key_ord_weaken. apply argsort_insertion_stable.
Qed.

(** ** Facts about [find_peaks] *)

Lemma look_ahead_spec (x : list Q) (i_max : nat) (xi : Q) (fuel a : nat) :
  (i_max - a <= fuel)%nat -> (a <= i_max)%nat ->
  let r := look_ahead x i_max xi a fuel in
  (a <= r <= i_max)%nat
  /\ (forall j, (a <= j < r)%nat -> (at_ x j == xi)%Q)
  /\ ((r < i_max)%nat -> ~ (at_ x r == xi)%Q).
Proof.
  revert a. induction fuel as [|fuel IH]; intros a Hfuel Ha; simpl.
  - split; [lia|]. split; intros; lia.
  - destruct (Nat.ltb_spec a i_max) as [Hlt|Hge]; simpl.
    + destruct (Qeq_bool (at_ x a) xi) eqn:E.
      * apply Qeq_bool_iff in E.
        destruct (IH (S a)) as (H1 & H2 & H3); [lia | lia |].
        split; [lia|]. split; [|exact H3].
        intros j Hj. destruct (Nat.eq_dec j a) as [->|Hne]; [exact E|].
        apply H2. lia.
      * apply Qeq_bool_false in E.
        split; [lia|]. split; [intros; lia | intros _; exact E].
    + split; [lia|]. split; intros; lia.
Qed.

Lemma local_maxima_loop_spec (x : list Q) (fuel i : nat) :
  (1 <= i)%nat ->
  let out := local_maxima_loop x (length x - 1) i fuel in
  Forall (fun m => flat_peak x m /\ (i <= m)%nat) out
  /\ StronglySorted lt out.
Proof.
  revert i. induction fuel as [|fuel IH]; intros i Hi; cbn [local_maxima_loop].
  - split; constructor.
  - destruct (Nat.ltb_spec i (length x - 1)) as [Hlt|Hge]; [|split; constructor].
    assert (Hnext : forall i', (i < i')%nat ->
      let out := local_maxima_loop x (length x - 1) i' fuel in
      Forall (fun m => flat_peak x m /\ (i <= m)%nat) out
      /\ StronglySorted lt out).
    { intros i' Hi'. destruct (IH i') as [H1 H2]; [lia|]. split; [|exact H2].
      eapply List.Forall_impl; [|exact H1]. simpl. intros m [Hm Hle].
      split; [exact Hm | lia]. }
    destruct (Qlt_bool (at_ x (i - 1)) (at_ x i)) eqn:E1; [|apply Hnext; lia].
    apply Qlt_bool_iff in E1.
    destruct (look_ahead_spec x (length x - 1) (at_ x i) (length x - 1 - i) (i + 1))
      as (Hr & Heq & _); [lia | lia |].
    set (r := look_ahead x (length x - 1) (at_ x i) (i + 1) (length x - 1 - i)) in *.
    destruct (Qlt_bool (at_ x r) (at_ x i)) eqn:E2; [|apply Hnext; lia].
    apply Qlt_bool_iff in E2.
    assert (Hmid : (i <= (i + (r - 1)) / 2 <= r - 1)%nat).
    { split.
      - apply Nat.div_le_lower_bound; lia.
      - apply Nat.Div0.div_le_upper_bound; lia. }
    destruct (IH (r + 1)%nat) as [H1 H2]; [lia|].
    split.
    + constructor.
      * split; [|lia]. exists i, (r - 1)%nat.
        split; [lia|]. split; [lia|]. split; [lia|]. split; [reflexivity|].
        split; [|split; [exact E1|]].
        -- intros j Hj. destruct (Nat.eq_dec j i) as [->|Hne]; [reflexivity|].
           apply Heq. lia.
        -- assert (Hr1 : (r - 1 + 1 = r)%nat) by lia. rewrite Hr1.
           assert (Hlast : (at_ x (r - 1) == at_ x i)%Q).
           { destruct (Nat.eq_dec (r - 1)%nat i) as [->|Hne]; [reflexivity|].
             apply Heq. lia. }
           rewrite Hlast. exact E2.
      * eapply List.Forall_impl; [|exact H1]. simpl. intros m [Hm Hle].
        split; [exact Hm | lia].
    + constructor; [exact H2|].
      eapply List.Forall_impl; [|exact H1]. cbv beta. intros m [_ Hle]. lia.
Qed.

Lemma find_peaks_flat (x : list Q) (i : nat) :
  In i (find_peaks x) -> flat_peak x i.
Proof.
  intros Hin. destruct (local_maxima_loop_spec x (length x) 1) as [H _]; [lia|].
  exact (proj1 (proj1 (List.Forall_forall _ _) H i Hin)).
Qed.

Lemma find_peaks_increasing (x : list Q) : StronglySorted lt (find_peaks x).
Proof. apply (local_maxima_loop_spec x (length x) 1). lia. Qed.

(** The loop never needs more fuel than the length of the series gives
    it: any larger amount computes the same list. *)
Lemma local_maxima_loop_fuel (x : list Q) (i_max f1 f2 i : nat) :
  (i_max - i <= f1)%nat -> (i_max - i <= f2)%nat ->
  local_maxima_loop x i_max i f1 = local_maxima_loop x i_max i f2.
Proof.
  revert f2 i. induction f1 as [|f1 IH]; intros [|f2] i H1 H2;
    cbn [local_maxima_loop]; try reflexivity.
  - destruct (Nat.ltb_spec i i_max); [lia | reflexivity].
  - destruct (Nat.ltb_spec i i_max); [lia | reflexivity].
  - destruct (Nat.ltb_spec i i_max) as [Hlt|]; [|reflexivity].
    destruct (look_ahead_spec x i_max (at_ x i) (i_max - i) (i + 1))
      as (Hr & _); [lia | lia |].
    destruct (Qlt_bool (at_ x (i - 1)) (at_ x i)); [|apply IH; lia].
    destruct (Qlt_bool _ (at_ x i)); [f_equal|]; apply IH; lia.
Qed.

(** Every flat peak is reported: the loop misses none. *)
Lemma local_maxima_loop_complete (x : list Q) (l r fuel i : nat) :
  (1 <= i <= l)%nat -> (l <= r)%nat -> (r + 1 < length x)%nat ->
  (forall j, (l <= j <= r)%nat -> (at_ x j == at_ x l)%Q) ->
  (at_ x (l - 1) < at_ x l)%Q -> (at_ x (r + 1) < at_ x r)%Q ->
  (length x - 1 - i <= fuel)%nat ->
  In ((l + r) / 2)%nat (local_maxima_loop x (length x - 1) i fuel).
Proof.
  intros Hi Hlr Hr Heq Hleft Hright. revert i Hi.
  assert (Hr_l : (at_ x r == at_ x l)%Q) by (apply Heq; lia).
  induction fuel as [|fuel IH]; intros i Hi Hfuel; [lia|].
  cbn [local_maxima_loop].
  destruct (Nat.ltb_spec i (length x - 1)) as [Hlt|Hge]; [|lia].
  destruct (look_ahead_spec x (length x - 1) (at_ x i) (length x - 1 - i) (i + 1))
    as (Hra & Hrun & Hstop); [lia | lia |].
  set (ra := look_ahead x (length x - 1) (at_ x i) (i + 1) (length x - 1 - i)) in *.
  destruct (Nat.eq_dec i l) as [->|Hne].
  - assert (E1 : Qlt_bool (at_ x (l - 1)) (at_ x l) = true)
      by (apply Qlt_bool_iff; exact Hleft).
    rewrite E1.
    assert (Era : ra = (r + 1)%nat).
    { destruct (Nat.lt_trichotomy ra (r + 1)%nat) as [Hlo|[Heq'|Hhi]]; [|exact Heq'|].
      - exfalso. apply Hstop; [lia|]. apply Heq. lia.
      - exfalso. assert (H : (at_ x (r + 1) == at_ x l)%Q) by (apply Hrun; lia).
        rewrite H, Hr_l in Hright. exact (Qlt_irrefl _ Hright). }
    assert (E2 : Qlt_bool (at_ x ra) (at_ x l) = true).
    { apply Qlt_bool_iff. rewrite Era, <- Hr_l. exact Hright. }
    rewrite E2. left. rewrite Era. f_equal. lia.
  - assert (Hnext : In ((l + r) / 2)%nat
                       (local_maxima_loop x (length x - 1) (i + 1) fuel))
      by (apply IH; lia).
    destruct (Qlt_bool (at_ x (i - 1)) (at_ x i)) eqn:E1; [|exact Hnext].
    destruct (Qlt_bool (at_ x ra) (at_ x i)) eqn:E2; [|exact Hnext].
    apply Qlt_bool_iff in E2. right. apply IH; [|lia].
    split; [lia|].
    destruct (Nat.le_gt_cases (ra + 1)%nat l) as [Hok|Hbad]; [exact Hok|]. exfalso.
    assert (Hprev : (at_ x (l - 1) == at_ x i)%Q).
    { destruct (Nat.eq_dec (l - 1)%nat i) as [->|Hn]; [reflexivity|]. apply Hrun. lia. }
    destruct (Nat.eq_dec l ra) as [->|Hn].
    + rewrite Hprev in Hleft. exact (Qlt_irrefl _ (Qlt_trans _ _ _ Hleft E2)).
    + assert (Hcur : (at_ x l == at_ x i)%Q) by (apply Hrun; lia).
      rewrite Hprev, Hcur in Hleft. exact (Qlt_irrefl _ Hleft).
Qed.

Lemma find_peaks_complete (x : list Q) (i : nat) :
  flat_peak x i -> In i (find_peaks x).
Proof.
  intros (l & r & Hl & Hlr & Hr & -> & Heq & Hleft & Hright).
  apply local_maxima_loop_complete; try assumption; lia.
Qed.

Lemma find_peaks_spec (x : list Q) (i : nat) :
  In i (find_peaks x) <-> flat_peak x i.
Proof. split; [apply find_peaks_flat | apply find_peaks_complete]. Qed.

(** A strict peak is a flat peak whose run has one sample. *)
Lemma strict_peak_flat (x : list Q) (i : nat) : strict_peak x i -> flat_peak x i.
Proof.
  intros (Hi & Hlen & Hleft & Hright). exists i, i.
  split; [exact Hi|]. split; [lia|]. split; [exact Hlen|].
  split; [apply Nat.div_unique with 0%nat; lia|].
  split; [|split; assumption].
  intros j Hj. assert (j = i) by lia. subst j. reflexivity.
Qed.

(** ** Facts about the ranking of peaks *)

Section PeakRanking.

Variable argsort : list Q -> list nat.
Hypothesis argsort_sorts : sorts_ascending argsort.

Lemma sorted_peak_indices_perm (values : list Q) :
  Permutation (sorted_peak_indices argsort values) (find_peaks values).
Proof.
  unfold sorted_peak_indices. apply take_at_perm.
  rewrite <- Permutation_rev, (proj1 (argsort_sorts _)).
  unfold take_at. rewrite length_map. reflexivity.
Qed.

Lemma sorted_peak_indices_ordered (tie tie' : nat -> nat -> Prop) (values : list Q) :
  (forall p q, (p < length (find_peaks values))%nat ->
     (q < length (find_peaks values))%nat ->
     tie q p -> tie' (nth p (find_peaks values) O) (nth q (find_peaks values) O)) ->
  StronglySorted (key_ord tie (take_at 0%Q values (find_peaks values)))
                 (argsort (take_at 0%Q values (find_peaks values))) ->
  StronglySorted (desc_ord tie' values) (sorted_peak_indices argsort values).
Proof.
  intros Htie Hsorted.
  unfold sorted_peak_indices, take_at at 1.
  set (peaks := find_peaks values) in *.
  set (pv := take_at 0%Q values peaks) in *.
  assert (Hlen : length pv = length peaks) by (unfold pv, take_at; apply length_map).
  assert (Hpv : forall p, (p < length peaks)%nat -> at_ pv p = at_ values (nth p peaks O)).
  { intros p Hp. unfold at_, pv, take_at.
    rewrite (nth_indep _ 0%Q (nth O values 0%Q)) by (rewrite length_map; exact Hp).
    apply (map_nth (fun i => nth i values 0%Q)). }
  assert (Hin : forall p, In p (rev (argsort pv)) -> (p < length peaks)%nat).
  { intros p Hp. apply in_rev in Hp.
    apply (Permutation_in _ (proj1 (argsort_sorts pv))) in Hp.
    apply in_seq in Hp. lia. }
  eapply StronglySorted_map_in; [|apply StronglySorted_rev, Hsorted].
  intros p q Hp Hq H. apply Hin in Hp. apply Hin in Hq.
  unfold desc_ord. rewrite <- !Hpv by assumption.
  destruct H as [H|[H Ht]]; [left; exact H|].
  right. split; [symmetry; exact H|]. apply Htie; assumption.
Qed.

Lemma sorted_peak_indices_desc (values : list Q) :
  StronglySorted (value_desc values) (sorted_peak_indices argsort values).
Proof.
  apply (sorted_peak_indices_ordered any_order any_order).
  - intros; exact I.
  - apply argsort_sorts.
Qed.

Lemma sorted_peak_indices_stable (values : list Q) :
  stable argsort ->
  StronglySorted (desc_later_first values) (sorted_peak_indices argsort values).
Proof.
  intros Hstable. apply (sorted_peak_indices_ordered lt gt).
  - intros p q Hp Hq Hlt.
    apply (StronglySorted_nth lt); [apply find_peaks_increasing | exact Hlt | exact Hp].
  - apply Hstable.
Qed.

Lemma top_peak_indices_firstn (values : list Q) (k : nat) :
  top_peak_indices argsort values k = firstn k (sorted_peak_indices argsort values).
Proof.
  unfold top_peak_indices.
  destruct (Nat.eqb_spec (length (find_peaks values)) 0) as [E|_]; [|reflexivity].
  assert (H : sorted_peak_indices argsort values = []).
  { apply length_zero_iff_nil.
    rewrite (Permutation_length (sorted_peak_indices_perm values)). exact E. }
  rewrite H. symmetry. apply firstn_nil.
Qed.

End PeakRanking.

(** ** Facts about [nargsort] *)

Section Nargsort.

Variable argsort : list Q -> list nat.
Hypothesis argsort_sorts : sorts_ascending argsort.

Lemma nargsort_desc_perm (items : list Q) :
  Permutation (nargsort_desc argsort items) (seq 0 (length items)).
Proof.
  unfold nargsort_desc. rewrite <- Permutation_rev.
  rewrite (Permutation_rev (seq 0 (length items))) at 2.
  apply take_at_perm.
  rewrite (proj1 (argsort_sorts _)), !length_rev, length_seq. reflexivity.
Qed.

Lemma nargsort_desc_ordered (tie tie' : nat -> nat -> Prop) (items : list Q) :
  (forall p q, (p < length items)%nat -> (q < length items)%nat ->
     tie p q -> tie' (length items - S q)%nat (length items - S p)%nat) ->
  StronglySorted (key_ord tie (rev items)) (argsort (rev items)) ->
  StronglySorted (desc_ord tie' items) (nargsort_desc argsort items).
Proof.
  intros Htie Hsorted. unfold nargsort_desc, take_at.
  set (n := length items) in *.
  apply (StronglySorted_rev (fun a b => desc_ord tie' items b a)).
  eapply StronglySorted_map_in; [|exact Hsorted].
  assert (Hin : forall p, In p (argsort (rev items)) -> (p < n)%nat).
  { intros p Hp. apply (Permutation_in _ (proj1 (argsort_sorts _))) in Hp.
    apply in_seq in Hp. rewrite length_rev in Hp. fold n in Hp. lia. }
  assert (Hidx : forall p, (p < n)%nat -> nth p (rev (seq 0 n)) O = (n - S p)%nat).
  { intros p Hp. rewrite rev_nth by (rewrite length_seq; exact Hp).
    rewrite length_seq, seq_nth by lia. reflexivity. }
  assert (Hval : forall p, (p < n)%nat -> at_ (rev items) p = at_ items (n - S p)).
  { intros p Hp. unfold at_. apply rev_nth. exact Hp. }
  intros p q Hp Hq H. apply Hin in Hp. apply Hin in Hq.
  rewrite !Hidx by assumption. unfold desc_ord.
  rewrite <- !Hval by assumption.
  destruct H as [H|[H Ht]]; [left; exact H|].
  right. split; [symmetry; exact H | apply Htie; assumption].
Qed.

Lemma nargsort_desc_desc (items : list Q) :
  StronglySorted (value_desc items) (nargsort_desc argsort items).
Proof.
  apply (nargsort_desc_ordered any_order any_order).
  - intros; exact I.
  - apply argsort_sorts.
Qed.

Lemma nargsort_desc_stable (items : list Q) :
  stable argsort ->
  StronglySorted (desc_earlier_first items) (nargsort_desc argsort items).
Proof.
  intros Hstable. apply (nargsort_desc_ordered lt lt).
  - intros p q Hp Hq Hlt. lia.
  - apply Hstable.
Qed.

End Nargsort.

(** ** Facts about the order on strings *)

Lemma ascii_compare_lt_trans (a b c : ascii) :
  Ascii.compare a b = Lt -> Ascii.compare b c = Lt -> Ascii.compare a c = Lt.
Proof.
  unfold Ascii.compare. rewrite !N.compare_lt_iff. apply N.lt_trans.
Qed.

Lemma str_lt_trans (a b c : string) : str_lt a b -> str_lt b c -> str_lt a c.
Proof.
  unfold str_lt. revert b c.
  induction a as [|x a IH]; intros [|y b] [|z c]; simpl; try congruence.
  destruct (Ascii.compare x y) eqn:Exy; try congruence;
    destruct (Ascii.compare y z) eqn:Eyz; try congruence; intros Hab Hbc.
  - apply Ascii.compare_eq_iff in Exy, Eyz. subst.
    rewrite (proj2 (N.compare_eq_iff _ _) eq_refl : Ascii.compare z z = Eq).
    eapply IH; eassumption.
  - apply Ascii.compare_eq_iff in Exy. subst. rewrite Eyz. reflexivity.
  - apply Ascii.compare_eq_iff in Eyz. subst. rewrite Exy. reflexivity.
  - rewrite (ascii_compare_lt_trans x y z Exy Eyz). reflexivity.
Qed.

Lemma str_lt_neq (a b : string) : str_lt a b -> String.eqb a b = false.
Proof.
  unfold str_lt. intros H. apply String.eqb_neq. intros ->.
  assert (E : String.compare b b = Eq).
  { clear H. induction b as [|x b IH]; simpl; [reflexivity|].
    rewrite (proj2 (N.compare_eq_iff _ _) eq_refl : Ascii.compare x x = Eq).
    exact IH. }
  congruence.
Qed.

Lemma str_gt_lt (a b : string) : String.compare a b = Gt -> str_lt b a.
Proof.
  unfold str_lt. intros H. rewrite String.compare_antisym, H. reflexivity.
Qed.

(** ** Facts about [groupby] *)

Lemma group_lookup_below (g : list (string * list Q)) (k : string) :
  Forall (str_lt k) (map fst g) -> group_lookup g k = [].
Proof.
  induction g as [|[k0 vs] t IH]; simpl; [reflexivity|].
  intros H. apply Forall_cons in H as [Hk Ht].
  apply str_lt_neq in Hk. rewrite String.eqb_sym, Hk. apply IH, Ht.
Qed.

Lemma group_insert_keys (k : string) (v : Q) (g : list (string * list Q)) (k' : string) :
  In k' (map fst (group_insert k v g)) <-> k' = k \/ In k' (map fst g).
Proof.
  induction g as [|[k0 vs] t IH]; simpl; [intuition congruence|].
  destruct (String.compare k k0) eqn:E; simpl.
  - apply String.compare_eq_iff in E. subst. intuition congruence.
  - intuition congruence.
  - rewrite IH. intuition congruence.
Qed.

Lemma group_insert_sorted (k : string) (v : Q) (g : list (string * list Q)) :
  StronglySorted str_lt (map fst g) ->
  StronglySorted str_lt (map fst (group_insert k v g)).
Proof.
  induction g as [|[k0 vs] t IH]; simpl; intros Hs.
  - repeat constructor.
  - apply StronglySorted_inv in Hs as [Ht Hk0].
    destruct (String.compare k k0) eqn:E; simpl.
    + constructor; assumption.
    + constructor; [constructor; assumption|].
      constructor; [exact E|].
      eapply List.Forall_impl; [|exact Hk0].
      intros a Ha. eapply str_lt_trans; eassumption.
    + constructor; [apply IH, Ht|].
      apply List.Forall_forall. intros a Ha.
      apply group_insert_keys in Ha as [->|Ha]; [apply str_gt_lt, E|].
      exact (proj1 (List.Forall_forall _ _) Hk0 a Ha).
Qed.

Lemma group_insert_lookup (k : string) (v : Q) (g : list (string * list Q)) (k' : string) :
  StronglySorted str_lt (map fst g) ->
  group_lookup (group_insert k v g) k'
  = if String.eqb k k' then group_lookup g k ++ [v] else group_lookup g k'.
Proof.
  induction g as [|[k0 vs] t IH]; simpl; intros Hs.
  - destruct (String.eqb k k'); reflexivity.
  - apply StronglySorted_inv in Hs as [Ht Hk0].
    destruct (String.compare k k0) eqn:E; simpl.
    + apply String.compare_eq_iff in E. subst k0. rewrite String.eqb_refl.
      destruct (String.eqb k k'); reflexivity.
    + pose proof (str_lt_neq _ _ E) as Hne.
      rewrite (String.eqb_sym k0 k), Hne.
      rewrite (group_lookup_below t k).
      * destruct (String.eqb k k'); reflexivity.
      * eapply List.Forall_impl; [|exact Hk0].
        intros a Ha. eapply str_lt_trans; eassumption.
    + pose proof (str_lt_neq _ _ (str_gt_lt _ _ E)) as Hne. rewrite Hne.
      rewrite (IH Ht).
      destruct (String.eqb_spec k0 k') as [->|_]; [|reflexivity].
      rewrite String.eqb_sym, Hne. reflexivity.
Qed.

Lemma series_of_cons (k0 : string) (v : Q) (df : list (string * Q)) (k : string) :
  series_of ((k0, v) :: df) k
  = if String.eqb k0 k then v :: series_of df k else series_of df k.
Proof.
  unfold series_of. simpl. destruct (String.eqb k0 k); reflexivity.
Qed.

Lemma groupby_fold (df : list (string * Q)) (g : list (string * list Q)) :
  StronglySorted str_lt (map fst g) ->
  let g' := fold_left (fun g row => group_insert (fst row) (snd row) g) df g in
  StronglySorted str_lt (map fst g')
  /\ (forall k, group_lookup g' k = group_lookup g k ++ series_of df k)
  /\ (forall k, In k (map fst g') <-> In k (map fst g) \/ In k (map fst df)).
Proof.
  revert g. induction df as [|[k0 v] df IH]; intros g Hs; simpl.
  - split; [exact Hs|]. split; intros k; [rewrite app_nil_r; reflexivity | tauto].
  - destruct (IH (group_insert k0 v g) (group_insert_sorted k0 v g Hs))
      as (H1 & H2 & H3).
    split; [exact H1|]. split; intros k.
    + rewrite H2, group_insert_lookup, series_of_cons by exact Hs.
      destruct (String.eqb_spec k0 k) as [->|_]; [|reflexivity].
      rewrite <- app_assoc. reflexivity.
    + rewrite H3, group_insert_keys. intuition congruence.
Qed.

Lemma groupby_sorted (df : list (string * Q)) :
  StronglySorted str_lt (map fst (groupby df)).
Proof. apply (groupby_fold df []). constructor. Qed.

Lemma groupby_lookup (df : list (string * Q)) (k : string) :
  group_lookup (groupby df) k = series_of df k.
Proof.
  destruct (groupby_fold df []) as (_ & H & _); [constructor|]. apply H.
Qed.

Lemma groupby_keys (df : list (string * Q)) (k : string) :
  In k (map fst (groupby df)) <-> In k (map fst df).
Proof.
  destruct (groupby_fold df []) as (_ & _ & H); [constructor|].
  rewrite (H k). simpl. tauto.
Qed.

Lemma group_lookup_entry (g : list (string * list Q)) (k : string) (vs : list Q) :
  StronglySorted str_lt (map fst g) -> In (k, vs) g -> group_lookup g k = vs.
Proof.
  induction g as [|[k0 vs0] t IH]; simpl; intros Hs Hin; [contradiction|].
  apply StronglySorted_inv in Hs as [Ht Hk0].
  destruct Hin as [Heq|Hin].
  - inversion Heq; subst. rewrite String.eqb_refl. reflexivity.
  - assert (Hlt : str_lt k0 k).
    { apply (proj1 (List.Forall_forall _ _) Hk0).
      apply in_map_iff. exists (k, vs). split; [reflexivity | exact Hin]. }
    rewrite (str_lt_neq _ _ Hlt). apply IH; assumption.
Qed.

Lemma avg_price_entry (df : list (string * Q)) (row : string * Q) :
  In row (avg_price df) -> snd row = score df (fst row).
Proof.
  unfold avg_price. intros H. apply in_map_iff in H as ([k vs] & <- & Hin).
  simpl. unfold score.
  rewrite <- (groupby_lookup df k).
  rewrite (group_lookup_entry _ k vs (groupby_sorted df) Hin). reflexivity.
Qed.

Lemma avg_price_keys (df : list (string * Q)) :
  map fst (avg_price df) = map fst (groupby df).
Proof. unfold avg_price. rewrite map_map. reflexivity. Qed.

(** ** Facts about the cohort ranking *)

Section CohortRanking.

Variable argsort : list Q -> list nat.
Hypothesis argsort_sorts : sorts_ascending argsort.

Lemma sort_values_desc_perm (s : list (string * Q)) :
  Permutation (sort_values_desc argsort s) s.
Proof.
  unfold sort_values_desc. apply take_at_perm.
  rewrite (nargsort_desc_perm argsort argsort_sorts), length_map. reflexivity.
Qed.

Lemma ranked_companies_ordered (tie : nat -> nat -> Prop)
    (tie' : string -> string -> Prop) (df : list (string * Q)) :
  (forall p q, (p < length (avg_price df))%nat -> (q < length (avg_price df))%nat ->
     tie p q ->
     tie' (fst (nth p (avg_price df) (EmptyString, 0%Q)))
          (fst (nth q (avg_price df) (EmptyString, 0%Q)))) ->
  StronglySorted (desc_ord tie (map snd (avg_price df)))
                 (nargsort_desc argsort (map snd (avg_price df))) ->
  StronglySorted (by_score_ord tie' df) (ranked_companies argsort df).
Proof.
  intros Htie Hsorted.
  unfold ranked_companies, sort_values_desc, take_at. rewrite map_map.
  set (s := avg_price df) in *. set (d := (EmptyString, 0%Q)) in *.
  assert (Hin : forall p, In p (nargsort_desc argsort (map snd s)) -> (p < length s)%nat).
  { intros p Hp.
    apply (Permutation_in _ (nargsort_desc_perm argsort argsort_sorts _)) in Hp.
    apply in_seq in Hp. rewrite length_map in Hp. lia. }
  assert (Hval : forall p, (p < length s)%nat ->
            at_ (map snd s) p = score df (fst (nth p s d))).
  { intros p Hp. unfold at_. change 0%Q with (snd d). rewrite map_nth.
    apply avg_price_entry. apply nth_In. exact Hp. }
  eapply StronglySorted_map_in; [|exact Hsorted].
  intros p q Hp Hq H. apply Hin in Hp. apply Hin in Hq.
  unfold by_score_ord. rewrite <- !Hval by assumption.
  destruct H as [H|[H Ht]]; [left; exact H|].
  right. split; [exact H | apply Htie; assumption].
Qed.

Lemma ranked_companies_desc (df : list (string * Q)) :
  StronglySorted (by_score df) (ranked_companies argsort df).
Proof.
  apply (ranked_companies_ordered any_order any_order).
  - intros; exact I.
  - apply (nargsort_desc_desc argsort argsort_sorts).
Qed.

Lemma ranked_companies_stable (df : list (string * Q)) :
  stable argsort ->
  StronglySorted (by_score_then_key df) (ranked_companies argsort df).
Proof.
  intros Hstable. apply (ranked_companies_ordered lt str_lt).
  - intros p q Hp Hq Hlt.
    change EmptyString with (fst (EmptyString, 0%Q)). rewrite <- !(map_nth fst).
    apply (StronglySorted_nth str_lt).
    + rewrite avg_price_keys. apply groupby_sorted.
    + exact Hlt.
    + rewrite length_map. exact Hq.
  - apply (nargsort_desc_stable argsort argsort_sorts). exact Hstable.
Qed.

Lemma ranked_companies_perm (df : list (string * Q)) :
  Permutation (ranked_companies argsort df) (map fst (groupby df)).
Proof.
  unfold ranked_companies. rewrite <- avg_price_keys.
  apply Permutation_map, sort_values_desc_perm.
Qed.

End CohortRanking.

Lemma str_lt_irrefl (k : string) : ~ str_lt k k.
Proof.
  intros H. apply str_lt_neq in H. rewrite String.eqb_refl in H. discriminate.
Qed.

Lemma StronglySorted_irrefl_NoDup {A} (R : A -> A -> Prop) (l : list A) :
  (forall x, ~ R x x) -> StronglySorted R l -> List.NoDup l.
Proof.
  intros Hirr. induction 1 as [|x l Hl IH Hx]; constructor; [|exact IH].
  intros Hin. exact (Hirr x (proj1 (List.Forall_forall _ _) Hx x Hin)).
Qed.

(** The returned rows pair each selected position with its date and its
    value; indexing never fails when every value has a date. *)
Lemma extract_peaks_from_series_rows {D} (argsort : list Q -> list nat)
    (dates : list D) (values : list Q) (k : nat) :
  sorts_ascending argsort ->
  (length values <= length dates)%nat ->
  exists out,
    extract_peaks_from_series argsort dates values k = Some out
    /\ Forall2 (fun i row => dates !! i = Some (fst row)
                             /\ values !! i = Some (snd row))
               (top_peak_indices argsort values k) out.
Proof.
  intros Hsorts Hlen. unfold extract_peaks_from_series.
  set (f := fun i : nat => d ← dates !! i; v ← values !! i; Some (d, v)).
  assert (Hsome : is_Some (mapM f (top_peak_indices argsort values k))).
  { apply mapM_is_Some. apply List.Forall_forall. intros i Hi.
    rewrite (top_peak_indices_firstn argsort Hsorts) in Hi.
    apply firstn_In in Hi.
    apply (Permutation_in _ (sorted_peak_indices_perm argsort Hsorts values)) in Hi.
    destruct (find_peaks_flat values i Hi) as (l & r & Hl & Hlr & Hr & -> & _).
    assert (Hmid : ((l + r) / 2 <= r)%nat)
      by (apply Nat.Div0.div_le_upper_bound; lia).
    unfold compose, f.
    destruct (lookup_lt_is_Some_2 dates ((l + r) / 2)%nat) as [d ->]; [lia|].
    destruct (lookup_lt_is_Some_2 values ((l + r) / 2)%nat) as [v ->]; [lia|].
    simpl. eauto. }
  destruct Hsome as [out Hout]. exists out. split; [exact Hout|].
  apply mapM_Some_1 in Hout.
  eapply Forall2_impl; [exact Hout|].
  intros i [d v]. unfold f. simpl.
  destruct (dates !! i); simpl; [|discriminate].
  destruct (values !! i); simpl; [|discriminate].
  intros [= -> ->]. split; reflexivity.
Qed.

(** ** The peak selector: claims *)

(** C1, as stated, fails on a flat peak: on [1, 2, 2, 1] the selector
    returns index 1, whose right neighbour has the same value. *)
Lemma C1_flat_peak_counterexample :
  In 1%nat (top_peak_indices argsort_insertion [1; 2; 2; 1]%Q 3)
  /\ ~ strict_peak [1; 2; 2; 1]%Q 1.
Proof.
  split; [left; reflexivity|].
  intros (_ & _ & _ & H). vm_compute in H. discriminate H.
Qed.

(** C1, amended: every index returned by the peak selector is an
    interior position, the middle (rounded down) of a run of equal
    samples whose outer neighbours are both strictly lower, and its
    value is at least that of each of its two neighbours; every such
    run, a flat one included, has its middle returned when [k] is at
    least the number of peaks. *)
Theorem C1_returned_peaks_are_flat_maxima (argsort : list Q -> list nat)
    (values : list Q) (k : nat) :
  sorts_ascending argsort ->
  (forall i, In i (top_peak_indices argsort values k) ->
     (1 <= i)%nat /\ (i + 1 < length values)%nat
     /\ flat_peak values i
     /\ (at_ values (i - 1) <= at_ values i)%Q
     /\ (at_ values (i + 1) <= at_ values i)%Q)
  /\ ((length (find_peaks values) <= k)%nat ->
      forall i, flat_peak values i -> In i (top_peak_indices argsort values k)).
Proof.
  intros Hsorts.
  pose proof (sorted_peak_indices_perm argsort Hsorts values) as Hperm.
  rewrite (top_peak_indices_firstn argsort Hsorts).
  split.
  - intros i Hin. apply firstn_In in Hin.
    apply (Permutation_in _ Hperm) in Hin.
    pose proof (find_peaks_flat values i Hin) as Hflat.
    destruct Hflat as (l & r & Hl & Hlr & Hr & Hi & Heq & Hleft & Hright) eqn:E.
    clear E.
    assert (Hmid : (l <= i <= r)%nat).
    { subst i. split.
      - apply Nat.div_le_lower_bound; lia.
      - apply Nat.Div0.div_le_upper_bound; lia. }
    split; [lia|]. split; [lia|]. split; [exact Hflat|].
    assert (Hi_l : (at_ values i == at_ values l)%Q) by (apply Heq; lia).
    split.
    + destruct (Nat.eq_dec i l) as [->|Hne]; [apply Qlt_le_weak, Hleft|].
      rewrite Hi_l, (Heq (i - 1)%nat) by lia. apply Qle_refl.
    + destruct (Nat.eq_dec i r) as [->|Hne]; [apply Qlt_le_weak, Hright|].
      rewrite Hi_l, (Heq (i + 1)%nat) by lia. apply Qle_refl.
  - intros Hk i Hflat.
    rewrite firstn_all2 by (rewrite (Permutation_length Hperm); exact Hk).
    apply (Permutation_in _ (Permutation_sym Hperm)).
    apply find_peaks_complete, Hflat.
Qed.

Lemma C1_returned_peaks_witness :
  (forall i, In i (top_peak_indices argsort_insertion [1; 2; 2; 1]%Q 3) ->
     (1 <= i)%nat /\ (i + 1 < length [1; 2; 2; 1]%Q)%nat
     /\ flat_peak [1; 2; 2; 1]%Q i
     /\ (at_ [1; 2; 2; 1]%Q (i - 1) <= at_ [1; 2; 2; 1]%Q i)%Q
     /\ (at_ [1; 2; 2; 1]%Q (i + 1) <= at_ [1; 2; 2; 1]%Q i)%Q)
  /\ ((length (find_peaks [1; 2; 2; 1]%Q) <= 3)%nat ->
      forall i, flat_peak [1; 2; 2; 1]%Q i ->
                In i (top_peak_indices argsort_insertion [1; 2; 2; 1]%Q 3)).
Proof.
  apply (C1_returned_peaks_are_flat_maxima argsort_insertion [1; 2; 2; 1]%Q 3).
  apply argsort_insertion_sorts.
Defined.




(** ** The cohort ranker: claims *)




(** ** Exact addition: Leibniz equalities on [Q]

    Sums of rationals built by the same operations in a different order
    are equal as pairs of numerator and denominator, not only as
    numbers. *)

Ltac Qleibniz :=
  repeat match goal with q : Q |- _ => destruct q end;
  unfold Qplus, Qopp, Qmult; simpl Qnum; simpl Qden;
  f_equal;
  first [ reflexivity
        | rewrite ?Pos2Z.inj_mul; ring
        | apply Pos2Z.inj; rewrite ?Pos2Z.inj_mul; ring ].

Lemma Qplus_comm_L (a b : Q) : (a + b)%Q = (b + a)%Q.
Proof. Qleibniz. Qed.

Lemma Qplus_assoc_L (a b c : Q) : (a + (b + c))%Q = (a + b + c)%Q.
Proof. Qleibniz. Qed.

Lemma Qplus_swap_L (a b c : Q) : (a + b + c)%Q = (a + c + b)%Q.
Proof. Qleibniz. Qed.

Lemma Qopp_plus_L (a b : Q) : (- (a + b))%Q = (- a + - b)%Q.
Proof. Qleibniz. Qed.

Lemma Qplus_0_l_L (a : Q) : (0 + a)%Q = a.
Proof.
  destruct a as [n d]. unfold Qplus. simpl.
  f_equal. ring.
Qed.

Lemma Qplus_0_r_L (a : Q) : (a + 0)%Q = a.
Proof.
  destruct a as [n d]. unfold Qplus. simpl.
  f_equal; [ring | apply Pos.mul_1_r].
Qed.

Lemma Qmult_1_l_L (a : Q) : (1 * a)%Q = a.
Proof.
  destruct a as [n d]. unfold Qmult. simpl. f_equal.
  destruct n; reflexivity.
Qed.

Lemma Qmult_m1_l_L (a : Q) : (- (1) * a)%Q = (- a)%Q.
Proof.
  destruct a as [n d]. unfold Qmult, Qopp. simpl. f_equal.
Qed.

Lemma Qabs_nonneg_L (a : Q) : (0 <= a)%Q -> Qabs a = a.
Proof.
  destruct a as [n d]. unfold Qle, Qabs. simpl. intros H.
  f_equal. apply Z.abs_eq. lia.
Qed.

Lemma Qabs_nonpos_L (a : Q) : (a <= 0)%Q -> Qabs a = (- a)%Q.
Proof.
  destruct a as [n d]. unfold Qle, Qabs, Qopp. simpl. intros H.
  f_equal. apply Z.abs_neq. lia.
Qed.

Lemma Qopp_opp_L (a : Q) : (- - a)%Q = a.
Proof.
  destruct a as [n d]. unfold Qopp. simpl. f_equal. apply Z.opp_involutive.
Qed.

(** ** Facts about the loop *)

Section LoopFacts.

Variable float_of_str : string -> option Q.
Variables start_date end_date : Z.

Lemma in_window_true (d : Z) :
  in_window start_date end_date d = true <-> start_date <= d <= end_date.
Proof. unfold in_window. lia. Qed.

Lemma in_window_false (d : Z) :
  in_window start_date end_date d = false <-> d < start_date \/ end_date < d.
Proof. unfold in_window. lia. Qed.

Lemma loop_body_effect (st : loop_state) (txn : gmap string pyval) :
  loop_body float_of_str start_date end_date st txn
  = match effect_of float_of_str start_date end_date txn with
    | Warned v => Returns {| records := records st; warnings := warnings st ++ [v] |}
    | Skipped => Returns st
    | Kept r => Returns {| records := records st ++ [r]; warnings := warnings st |}
    | Failed e => Raises e
    end.
Proof.
  unfold loop_body, effect_of, txn_date, txn_date_field,
    txn_type, txn_value, in_window.
  destruct (py_strptime _) as [d|]; [|reflexivity].
  destruct ((d <? start_date) || (end_date <? d)); simpl; [reflexivity|].
  destruct (py_lower _); reflexivity.
Qed.

Lemma for_each_spec (txns : list (gmap string pyval)) (st : loop_state) :
  for_each float_of_str start_date end_date txns st
  = if existsb (fails float_of_str start_date end_date) txns
    then Raises AttributeError
    else Returns
           {| records := records st ++ kept float_of_str start_date end_date txns;
              warnings := warnings st ++ warned float_of_str start_date end_date txns |}.
Proof.
  revert st. induction txns as [|txn rest IH]; intros st.
  - simpl. rewrite !app_nil_r. destruct st; reflexivity.
  - cbn [for_each existsb]. rewrite loop_body_effect.
    unfold fails at 1. unfold kept, warned. cbn [omap list_omap].
    destruct (effect_of float_of_str start_date end_date txn) as [v| |r|[]];
      cbn [orb]; try rewrite IH; cbn [records warnings]; try reflexivity.
    + destruct (existsb _ rest); [reflexivity|].
      rewrite <- app_assoc. reflexivity.
    + destruct (existsb _ rest); [reflexivity|].
      rewrite <- app_assoc. reflexivity.
Qed.

Lemma compute_insider_history_spec (txns : list (gmap string pyval)) :
  compute_insider_history float_of_str txns start_date end_date
  = if existsb (fails float_of_str start_date end_date) txns
    then Raises AttributeError
    else Returns (history_of (kept float_of_str start_date end_date txns)
                             start_date end_date,
                  warned float_of_str start_date end_date txns).
Proof.
  unfold compute_insider_history. rewrite for_each_spec.
  destruct (existsb _ txns); reflexivity.
Qed.

Lemma kept_in_window (txns : list (gmap string pyval)) (d : Z) (v : Q) :
  In (d, v) (kept float_of_str start_date end_date txns) ->
  start_date <= d <= end_date.
Proof.
  unfold kept. intros H. apply list_elem_of_In, list_elem_of_omap in H.
  destruct H as (txn & _ & H). unfold effect_of in H.
  destruct (txn_date txn) as [d'|]; [|discriminate].
  destruct (in_window start_date end_date d') eqn:E; [|discriminate].
  destruct (txn_type txn); [|discriminate].
  inversion H; subst. apply in_window_true, E.
Qed.

End LoopFacts.

(** ** Facts about the aggregation by day *)

Lemma groupby_sum_fold (recs : list (Z * Q)) (m : gmap Z Q) (d : Z) :
  fold_left (fun m r => <[fst r := (default 0%Q (m !! fst r) + snd r)%Q]> m) recs m !! d
  = fold_left (day_step d) recs (m !! d).
Proof.
  revert m. induction recs as [|[d' v] recs IH]; intros m; simpl; [reflexivity|].
  rewrite IH. f_equal. unfold day_step. simpl.
  destruct (Z.eqb_spec d' d) as [->|Hne].
  - apply lookup_insert_eq.
  - apply lookup_insert_ne. exact Hne.
Qed.

Lemma groupby_sum_lookup (recs : list (Z * Q)) (d : Z) :
  groupby_sum recs !! d = day_total recs d.
Proof. unfold groupby_sum. rewrite groupby_sum_fold. reflexivity. Qed.

Lemma day_step_swap (d : Z) (acc : option Q) (x y : Z * Q) :
  day_step d (day_step d acc x) y = day_step d (day_step d acc y) x.
Proof.
  unfold day_step. destruct (fst x =? d), (fst y =? d); simpl; try reflexivity.
  f_equal. apply Qplus_swap_L.
Qed.

Lemma day_total_perm (d : Z) (recs recs' : list (Z * Q)) :
  Permutation recs recs' ->
  forall acc, fold_left (day_step d) recs acc = fold_left (day_step d) recs' acc.
Proof.
  induction 1 as [|x l l' _ IH|x y l|l l' l'' _ IH1 _ IH2]; intros acc; simpl.
  - reflexivity.
  - apply IH.
  - rewrite day_step_swap. reflexivity.
  - rewrite IH1. apply IH2.
Qed.

Lemma groupby_sum_perm (recs recs' : list (Z * Q)) :
  Permutation recs recs' -> groupby_sum recs = groupby_sum recs'.
Proof.
  intros H. apply map_eq. intros d. rewrite !groupby_sum_lookup.
  apply day_total_perm. exact H.
Qed.

Lemma day_total_absent (recs : list (Z * Q)) (d : Z) :
  ~ In d (map fst recs) -> day_total recs d = None.
Proof.
  unfold day_total. induction recs as [|[d' v] recs IH]; simpl; intros H;
    [reflexivity|].
  unfold day_step at 2. simpl.
  destruct (Z.eqb_spec d' d) as [->|_]; [tauto|]. apply IH. tauto.
Qed.

Lemma daily_net_dates (recs : list (Z * Q)) (start_date end_date : Z) :
  map fst (daily_net recs start_date end_date) = date_range start_date end_date.
Proof.
  unfold daily_net, reindex. rewrite map_map. simpl. apply map_id.
Qed.

Lemma daily_net_perm (recs recs' : list (Z * Q)) (start_date end_date : Z) :
  Permutation recs recs' ->
  daily_net recs start_date end_date = daily_net recs' start_date end_date.
Proof. intros H. unfold daily_net. rewrite (groupby_sum_perm _ _ H). reflexivity. Qed.

Lemma daily_net_lookup (recs : list (Z * Q)) (start_date end_date d : Z) :
  start_date <= d <= end_date ->
  In (d, default 0%Q (day_total recs d)) (daily_net recs start_date end_date).
Proof.
  intros Hd. unfold daily_net, reindex. rewrite <- groupby_sum_lookup.
  apply in_map_iff. exists d. split; [reflexivity|].
  apply list_elem_of_In, elem_of_seqZ. lia.
Qed.

Lemma length_date_range (start_date end_date : Z) :
  length (date_range start_date end_date) = Z.to_nat (end_date - start_date + 1).
Proof. apply length_seqZ. Qed.

(** ** Facts about [cumsum] *)

Lemma length_cumsum_from (acc : Q) (l : list Q) :
  length (cumsum_from acc l) = length l.
Proof.
  revert acc. induction l as [|x l IH]; intros acc; simpl; [reflexivity|].
  rewrite IH. reflexivity.
Qed.

Lemma length_cumsum (l : list Q) : length (cumsum l) = length l.
Proof. destruct l; simpl; [reflexivity|]. rewrite length_cumsum_from. reflexivity. Qed.

Lemma cumsum_from_step (acc : Q) (l : list Q) (i : nat) :
  (i < length l)%nat ->
  nth i (cumsum_from acc l) 0%Q
  = (nth i (acc :: cumsum_from acc l) 0%Q + nth i l 0%Q)%Q.
Proof.
  revert acc i. induction l as [|x l IH]; intros acc i Hi; simpl in Hi; [lia|].
  destruct i as [|i]; [reflexivity|].
  cbn [cumsum_from nth]. apply IH. lia.
Qed.

Lemma cumsum_step (l : list Q) (i : nat) :
  (S i < length l)%nat ->
  nth (S i) (cumsum l) 0%Q = (nth i (cumsum l) 0%Q + nth (S i) l 0%Q)%Q.
Proof.
  destruct l as [|x l]; simpl; intros Hi; [lia|].
  apply cumsum_from_step. lia.
Qed.

Lemma cumsum_first (l : list Q) : nth 0 (cumsum l) 0%Q = nth 0 l 0%Q.
Proof. destruct l; reflexivity. Qed.

Lemma cumsum_from_last (acc : Q) (l : list Q) :
  List.last (acc :: cumsum_from acc l) 0%Q = fold_left Qplus l acc.
Proof.
  revert acc. induction l as [|x l IH]; intros acc; [reflexivity|].
  cbn [cumsum_from fold_left]. rewrite <- IH. reflexivity.
Qed.

Lemma cumsum_last (l : list Q) : List.last (cumsum l) 0%Q = Qsum l.
Proof.
  destruct l as [|x l]; [reflexivity|].
  unfold Qsum. cbn [cumsum fold_left]. rewrite Qplus_0_l_L.
  apply cumsum_from_last.
Qed.

(** ** Facts about the returned frame *)

Lemma history_of_perm (recs recs' : list (Z * Q)) (start_date end_date : Z) :
  Permutation recs recs' ->
  history_of recs start_date end_date = history_of recs' start_date end_date.
Proof.
  intros H. unfold history_of.
  destruct recs as [|r recs], recs' as [|r' recs']; try reflexivity.
  - apply Permutation_nil in H. discriminate.
  - symmetry in H. apply Permutation_nil in H. discriminate.
  - rewrite (daily_net_perm _ _ start_date end_date H). reflexivity.
Qed.

Lemma history_of_columns (recs : list (Z * Q)) (start_date end_date : Z) :
  recs <> [] ->
  map fst (history_of recs start_date end_date) = date_range start_date end_date
  /\ map snd (history_of recs start_date end_date)
     = cumsum (map snd (daily_net recs start_date end_date)).
Proof.
  intros Hne. unfold history_of. destruct recs as [|r recs]; [congruence|].
  set (daily := daily_net (r :: recs) start_date end_date).
  assert (Hlen : length (map fst daily) = length (cumsum (map snd daily))).
  { rewrite length_cumsum, !length_map. reflexivity. }
  split.
  - rewrite <- (daily_net_dates (r :: recs)). fold daily.
    revert Hlen. generalize (map fst daily), (cumsum (map snd daily)).
    induction l as [|a l IH]; intros [|b l'] Hlen; simpl in *; try lia;
      [reflexivity|]. f_equal. apply IH. lia.
  - revert Hlen. generalize (map fst daily), (cumsum (map snd daily)).
    induction l as [|a l IH]; intros [|b l'] Hlen; simpl in *; try lia;
      [reflexivity|]. f_equal. apply IH. lia.
Qed.

Lemma history_of_length (recs : list (Z * Q)) (start_date end_date : Z) :
  recs <> [] ->
  length (history_of recs start_date end_date)
  = Z.to_nat (end_date - start_date + 1).
Proof.
  intros Hne. rewrite <- length_date_range.
  rewrite <- (proj1 (history_of_columns recs start_date end_date Hne)).
  rewrite length_map. reflexivity.
Qed.

(** ** Facts about survival *)

Section SurvivalFacts.

Variable float_of_str : string -> option Q.
Variables start_date end_date : Z.

Lemma survives_effect (txn : gmap string pyval) :
  survives start_date end_date txn
  <-> (exists r, effect_of float_of_str start_date end_date txn = Kept r)
      \/ fails float_of_str start_date end_date txn = true.
Proof.
  unfold survives, fails, effect_of.
  destruct (txn_date txn) as [d|].
  - destruct (in_window start_date end_date d) eqn:E.
    + split.
      * intros _. destruct (txn_type txn); [left; eauto | right; reflexivity].
      * intros _. exists d. split; [reflexivity | apply in_window_true, E].
    + split.
      * intros (d' & Hd' & Hw). inversion Hd'; subst.
        apply in_window_true in Hw. congruence.
      * intros [[r H]|H]; discriminate.
  - split.
    + intros (d' & Hd' & _). discriminate.
    + intros [[r H]|H]; discriminate.
Qed.

Lemma kept_nil_iff (txns : list (gmap string pyval)) :
  existsb (fails float_of_str start_date end_date) txns = false ->
  (kept float_of_str start_date end_date txns = []
   <-> forall txn, In txn txns -> ~ survives start_date end_date txn).
Proof.
  induction txns as [|txn rest IH]; simpl; intros Hf.
  - split; [intros _ txn [] | reflexivity].
  - apply orb_false_iff in Hf as [Hf1 Hf2]. specialize (IH Hf2).
    unfold kept in *. cbn [omap list_omap].
    pose proof (survives_effect txn) as Hs. rewrite Hf1 in Hs.
    destruct (effect_of float_of_str start_date end_date txn) as [v| |r|ex] eqn:E.
    + rewrite IH. split.
      * intros H t [<-|Ht]; [|apply H, Ht].
        rewrite Hs. intros [[r Hr]|Hr]; discriminate.
      * intros H t Ht. apply H. right. exact Ht.
    + rewrite IH. split.
      * intros H t [<-|Ht]; [|apply H, Ht].
        rewrite Hs. intros [[r Hr]|Hr]; discriminate.
      * intros H t Ht. apply H. right. exact Ht.
    + split; [discriminate|]. intros H. exfalso.
      apply (H txn); [left; reflexivity|]. apply Hs. left. eauto.
    + unfold fails in Hf1. rewrite E in Hf1. discriminate.
Qed.

Lemma kept_dates (txns : list (gmap string pyval)) (d : Z) :
  In d (map fst (kept float_of_str start_date end_date txns)) ->
  exists txn, In txn txns /\ txn_date txn = Some d.
Proof.
  intros H. apply in_map_iff in H as ([d' v] & Hd & H). simpl in Hd. subst d'.
  unfold kept in H. apply list_elem_of_In, list_elem_of_omap in H.
  destruct H as (txn & Hin & H). exists txn.
  split; [apply list_elem_of_In, Hin|].
  unfold effect_of in H. destruct (txn_date txn) as [d'|]; [|discriminate].
  destruct (in_window start_date end_date d'); [|discriminate].
  destruct (txn_type txn); [|discriminate]. inversion H. reflexivity.
Qed.

Lemma compute_returns_inv (txns : list (gmap string pyval))
    (rows : list (Z * Q)) (w : list pyval) :
  compute_insider_history float_of_str txns start_date end_date = Returns (rows, w) ->
  existsb (fails float_of_str start_date end_date) txns = false
  /\ rows = history_of (kept float_of_str start_date end_date txns) start_date end_date
  /\ w = warned float_of_str start_date end_date txns.
Proof.
  rewrite compute_insider_history_spec.
  destruct (existsb _ txns); [discriminate|].
  intros H. inversion H. auto.
Qed.

Lemma daily_net_of_spec (txns : list (gmap string pyval)) :
  daily_net_of float_of_str txns start_date end_date
  = if existsb (fails float_of_str start_date end_date) txns
    then Raises AttributeError
    else Returns (daily_net (kept float_of_str start_date end_date txns)
                            start_date end_date).
Proof.
  unfold daily_net_of. rewrite for_each_spec.
  destruct (existsb _ txns); reflexivity.
Qed.

Lemma history_of_nil_iff (txns : list (gmap string pyval)) :
  history_of (kept float_of_str start_date end_date txns) start_date end_date = []
  <-> kept float_of_str start_date end_date txns = [].
Proof.
  split; [|intros ->; reflexivity].
  intros H. destruct (kept float_of_str start_date end_date txns) as [|[d v] recs] eqn:E;
    [reflexivity|].
  exfalso.
  assert (Hw : start_date <= d <= end_date).
  { apply (kept_in_window float_of_str start_date end_date txns d v).
    rewrite E. left. reflexivity. }
  apply (f_equal (@length _)) in H.
  rewrite history_of_length in H by discriminate. simpl in H. lia.
Qed.

End SurvivalFacts.

(** ** The reconstructor: claims *)

Example cancelling_history_computed :
  compute_insider_history float_of_int_literal cancelling_events 738886 738888
  = Returns (cancelling_history, [PyStr "not a date"]).
Proof. vm_compute. reflexivity. Qed.

(** C3: for a window with [start <= end] and a non-empty result, the
    output has [(end - start).days + 1] rows, one per calendar date of
    the window in ascending order, and a date without a surviving event
    has a daily net of 0. *)
Theorem C3_one_row_per_day (float_of_str : string -> option Q)
    (txns : list (gmap string pyval)) (start_date end_date : Z)
    (rows : list (Z * Q)) (w : list pyval) :
  start_date <= end_date ->
  compute_insider_history float_of_str txns start_date end_date = Returns (rows, w) ->
  rows <> [] ->
  Z.of_nat (length rows) = end_date - start_date + 1
  /\ map fst rows = date_range start_date end_date
  /\ (forall i, 0 <= i <= end_date - start_date ->
        map fst rows !! Z.to_nat i = Some (start_date + i))
  /\ exists daily,
       daily_net_of float_of_str txns start_date end_date = Returns daily
       /\ map fst daily = map fst rows
       /\ forall d, start_date <= d <= end_date ->
            (forall txn, In txn txns -> txn_date txn <> Some d) ->
            In (d, 0%Q) daily.
Proof.
  intros Hwin Hres Hne.
  apply compute_returns_inv in Hres as (Hf & -> & ->).
  assert (Hk : kept float_of_str start_date end_date txns <> []).
  { intros E. apply Hne. rewrite E. reflexivity. }
  destruct (history_of_columns _ start_date end_date Hk) as [Hdates _].
  split; [rewrite history_of_length by exact Hk; lia|].
  split; [exact Hdates|].
  split.
  { intros i Hi. rewrite Hdates. unfold date_range.
    rewrite lookup_seqZ_lt by lia. f_equal. lia. }
  exists (daily_net (kept float_of_str start_date end_date txns) start_date end_date).
  rewrite daily_net_of_spec, Hf.
  split; [reflexivity|].
  split; [rewrite Hdates; apply daily_net_dates|].
  intros d Hd Hno.
  pose proof (daily_net_lookup (kept float_of_str start_date end_date txns)
                start_date end_date d Hd) as Hin.
  rewrite day_total_absent in Hin; [exact Hin|].
  intros Hd'. apply kept_dates in Hd' as (txn & Htxn & Hdate).
  exact (Hno txn Htxn Hdate).
Qed.

Lemma C3_one_row_per_day_witness :
  Z.of_nat (length cancelling_history) = 738888 - 738886 + 1
  /\ map fst cancelling_history = date_range 738886 738888
  /\ (forall i, 0 <= i <= 738888 - 738886 ->
        map fst cancelling_history !! Z.to_nat i = Some (738886 + i))
  /\ exists daily,
       daily_net_of float_of_int_literal cancelling_events 738886 738888 = Returns daily
       /\ map fst daily = map fst cancelling_history
       /\ forall d, 738886 <= d <= 738888 ->
            (forall txn, In txn cancelling_events -> txn_date txn <> Some d) ->
            In (d, 0%Q) daily.
Proof.
  apply (C3_one_row_per_day float_of_int_literal cancelling_events 738886 738888
           cancelling_history [PyStr "not a date"]).
  - lia.
  - vm_compute. reflexivity.
  - discriminate.
Defined.

(** C4: in a non-empty result the first running total is the first
    daily net, each later running total is the previous one plus that
    date's daily net, and the last running total is the sum of all the
    daily nets of the window. *)
Theorem C4_running_totals (float_of_str : string -> option Q)
    (txns : list (gmap string pyval)) (start_date end_date : Z)
    (rows : list (Z * Q)) (w : list pyval) :
  compute_insider_history float_of_str txns start_date end_date = Returns (rows, w) ->
  rows <> [] ->
  exists daily,
    daily_net_of float_of_str txns start_date end_date = Returns daily
    /\ map fst rows = map fst daily
    /\ nth 0 (map snd rows) 0%Q = nth 0 (map snd daily) 0%Q
    /\ (forall i, (S i < length rows)%nat ->
          nth (S i) (map snd rows) 0%Q
          = (nth i (map snd rows) 0%Q + nth (S i) (map snd daily) 0%Q)%Q)
    /\ List.last (map snd rows) 0%Q = Qsum (map snd daily).
Proof.
  intros Hres Hne.
  apply compute_returns_inv in Hres as (Hf & -> & ->).
  assert (Hk : kept float_of_str start_date end_date txns <> []).
  { intros E. apply Hne. rewrite E. reflexivity. }
  destruct (history_of_columns _ start_date end_date Hk) as [Hdates Htotals].
  exists (daily_net (kept float_of_str start_date end_date txns) start_date end_date).
  rewrite daily_net_of_spec, Hf.
  split; [reflexivity|].
  split; [rewrite Hdates, daily_net_dates; reflexivity|].
  rewrite Htotals.
  split; [apply cumsum_first|].
  split; [|apply cumsum_last].
  intros i Hi. apply cumsum_step.
  rewrite length_map.
  rewrite <- (length_map fst), daily_net_dates, <- Hdates, length_map. exact Hi.
Qed.

Lemma C4_running_totals_witness :
  exists daily,
    daily_net_of float_of_int_literal scenario_events 738886 738891 = Returns daily
    /\ map fst scenario_history = map fst daily
    /\ nth 0 (map snd scenario_history) 0%Q = nth 0 (map snd daily) 0%Q
    /\ (forall i, (S i < length scenario_history)%nat ->
          nth (S i) (map snd scenario_history) 0%Q
          = (nth i (map snd scenario_history) 0%Q + nth (S i) (map snd daily) 0%Q)%Q)
    /\ List.last (map snd scenario_history) 0%Q = Qsum (map snd daily).
Proof.
  apply (C4_running_totals float_of_int_literal scenario_events 738886 738891
           scenario_history []).
  - vm_compute. reflexivity.
  - discriminate.
Defined.

(** C6: the result is the empty frame exactly when no event has a date
    that parses and lies in the window; as soon as one such event exists
    a returned result is the full series of the window, whatever the
    amounts and the types of the events. *)
Theorem C6_empty_iff_no_survivor (float_of_str : string -> option Q)
    (txns : list (gmap string pyval)) (start_date end_date : Z) :
  (frame_of (compute_insider_history float_of_str txns start_date end_date)
   = Returns []
   <-> forall txn, In txn txns -> ~ survives start_date end_date txn)
  /\ (forall rows w,
        compute_insider_history float_of_str txns start_date end_date
        = Returns (rows, w) ->
        (exists txn, In txn txns /\ survives start_date end_date txn) ->
        rows <> [] /\ map fst rows = date_range start_date end_date
        /\ Z.of_nat (length rows) = end_date - start_date + 1).
Proof.
  pose proof (history_of_nil_iff float_of_str start_date end_date txns) as Hh.
  split.
  - rewrite compute_insider_history_spec.
    destruct (existsb _ txns) eqn:Hf.
    + split; [discriminate|]. intros Hnone. exfalso.
      apply existsb_exists in Hf as (txn & Hin & Hf).
      apply (Hnone txn Hin). apply (survives_effect float_of_str). right. exact Hf.
    + pose proof (kept_nil_iff float_of_str start_date end_date txns Hf) as Hnil.
      cbn [frame_of]. rewrite <- Hnil, <- Hh.
      split; [intros [= H]; exact H | intros ->; reflexivity].
  - intros rows w Hres (txn & Hin & Hs).
    apply compute_returns_inv in Hres as (Hf & -> & ->).
    pose proof (kept_nil_iff float_of_str start_date end_date txns Hf) as Hnil.
    assert (Hk : kept float_of_str start_date end_date txns <> []).
    { intros E. apply (proj1 Hnil E txn Hin Hs). }
    split; [rewrite Hh; exact Hk|].
    split; [apply history_of_columns, Hk|].
    rewrite history_of_length by exact Hk.
    destruct Hs as (d & _ & Hd). lia.
Qed.

Lemma C6_empty_iff_no_survivor_witness :
  (frame_of (compute_insider_history float_of_int_literal cancelling_events
               738886 738888)
   = Returns []
   <-> forall txn, In txn cancelling_events -> ~ survives 738886 738888 txn)
  /\ (cancelling_history <> []
      /\ map fst cancelling_history = date_range 738886 738888
      /\ Z.of_nat (length cancelling_history) = 738888 - 738886 + 1).
Proof.
  destruct (C6_empty_iff_no_survivor float_of_int_literal cancelling_events
              738886 738888) as [Hiff Hfull].
  split; [exact Hiff|].
  apply (Hfull cancelling_history [PyStr "not a date"]).
  - vm_compute. reflexivity.
  - exists (txn_of (PyStr "2024-01-03") (PyStr "Gift") (PyStr "5")).
    split.
    + right. right. left. reflexivity.
    + exists 738888. split; [reflexivity | lia].
Defined.

(** ** Facts about strings *)

Lemma append_cons (c : ascii) (p post : string) :
  (String c p ++ post)%string = String c (p ++ post)%string.
Proof. reflexivity. Qed.

Lemma prefix_spec (p s : string) :
  String.prefix p s = true <-> exists post, s = (p ++ post)%string.
Proof.
  revert s. induction p as [|a p IH]; intros s.
  - destruct s; simpl; split; eauto.
  - destruct s as [|b s]; simpl.
    + split; [discriminate | intros [post H]; discriminate].
    + destruct (ascii_dec a b) as [->|Hne].
      * rewrite IH. split; intros [post H]; exists post;
          rewrite append_cons in *; congruence.
      * split; [discriminate|]. intros [post H]. rewrite append_cons in H.
        congruence.
Qed.

Lemma contains_spec (pat s : string) :
  contains pat s = true <-> substring_of pat s.
Proof.
  unfold substring_of. induction s as [|c s IH]; cbn [contains].
  - rewrite orb_false_r, prefix_spec. split.
    + intros [post H]. exists EmptyString, post. exact H.
    + intros ([|a pre] & post & H); [exists post; exact H|].
      rewrite append_cons in H. discriminate.
  - rewrite orb_true_iff, prefix_spec, IH. split.
    + intros [[post H]|(pre & post & H)].
      * exists EmptyString, post. exact H.
      * exists (String c pre), post. rewrite append_cons. congruence.
    + intros ([|a pre] & post & H).
      * left. exists post. exact H.
      * right. exists pre, post. rewrite append_cons in H. congruence.
Qed.

Lemma net_value_of_zero (ty : string) : net_value_of ty 0%Q = 0%Q.
Proof.
  unfold net_value_of. destruct (contains "buy" ty); [reflexivity|].
  destruct (contains "sell" ty); reflexivity.
Qed.

(** ** Facts about the date format *)

Lemma in_range_spec (lo hi c : ascii) :
  in_range lo hi c = true
  <-> (nat_of_ascii lo <= nat_of_ascii c <= nat_of_ascii hi)%nat.
Proof. unfold in_range. rewrite andb_true_iff, !Nat.leb_le. reflexivity. Qed.

Lemma is_char_spec (c d : ascii) :
  is_char c d = true <-> nat_of_ascii c = nat_of_ascii d.
Proof.
  unfold is_char. rewrite Ascii.eqb_eq. split; [intros ->; reflexivity|].
  intros H. rewrite <- (ascii_nat_embedding c), <- (ascii_nat_embedding d), H.
  reflexivity.
Qed.

Ltac ascii_codes :=
  change (nat_of_ascii "0") with 48%nat in *;
  change (nat_of_ascii "1") with 49%nat in *;
  change (nat_of_ascii "2") with 50%nat in *;
  change (nat_of_ascii "3") with 51%nat in *;
  change (nat_of_ascii "9") with 57%nat in *.

Lemma days_in_month_le_31 (y m : Z) : days_in_month y m <= 31.
Proof.
  unfold days_in_month. destruct ((m =? 2) && is_leap y); [lia|].
  destruct (Z.to_nat m) as [|[|[|[|[|[|[|[|[|[|[|[|[|n]]]]]]]]]]]]];
    cbn [nth DAYS_IN_MONTH]; try lia.
  destruct n; lia.
Qed.

Lemma make_date_bounds (y m d o : Z) :
  make_date y m d = Some o -> 1 <= m <= 12 /\ 1 <= d <= 31.
Proof.
  unfold make_date. pose proof (days_in_month_le_31 y m).
  destruct (_ && _) eqn:E; [|discriminate]. intros _.
  rewrite !andb_true_iff, !Z.leb_le in E. lia.
Qed.

(** Every date in the strict format is parsed by [strptime], to the same
    date. *)
Lemma strict_ymd_strptime (s : string) (d : Z) :
  strict_ymd s = Some d -> strptime_ymd s = Some d.
Proof.
  unfold strict_ymd.
  destruct s as [|y1 [|y2 [|y3 [|y4 [|h1 [|m1 [|m2 [|h2 [|d1 [|d2 [|x s]]]]]]]]]]];
    try discriminate.
  destruct (_ && _) eqn:E; [|discriminate]. intros Hd.
  rewrite !andb_true_iff in E.
  destruct E as (((((((((Hy1 & Hy2) & Hy3) & Hy4) & Hh1) & Hm1) & Hm2) & Hh2) & Hd1) & Hd2).
  destruct (make_date_bounds _ _ _ _ Hd) as [Hm Hday].
  unfold strptime_ymd, match_year. rewrite Hy1, Hy2, Hy3, Hy4, Hh1. simpl.
  unfold is_digit in Hm1, Hm2, Hd1, Hd2.
  apply in_range_spec in Hm1, Hm2, Hd1, Hd2.
  unfold digit_val in Hm, Hday.
  assert (Em : ((is_char m1 "1" && in_range "0" "2" m2)
                || (is_char m1 "0" && in_range "1" "9" m2)) = true).
  { apply orb_true_iff. rewrite !andb_true_iff, !is_char_spec, !in_range_spec.
    ascii_codes. lia. }
  rewrite Em, Hh2. simpl.
  assert (Ed : ((is_char d1 "3" && in_range "0" "1" d2)
                || (in_range "1" "2" d1 && is_digit d2)
                || (is_char d1 "0" && in_range "1" "9" d2)) = true).
  { rewrite !orb_true_iff. unfold is_digit.
    rewrite !andb_true_iff, !is_char_spec, !in_range_spec.
    ascii_codes. lia. }
  rewrite Ed. simpl. exact Hd.
Qed.

(** C7, as stated, fails on a date with an unpadded month or day: it is
    not in the strict format, and the event is kept, with no warning. *)
Lemma C7_unpadded_date_counterexample :
  strict_ymd "2024-1-2" = None
  /\ loop_body float_of_int_literal 738886 738891 empty_state
       (txn_of (PyStr "2024-1-2") (PyStr "Buy") (PyStr "100"))
     = Returns {| records := [(738887, 100%Q)]; warnings := [] |}.
Proof. split; reflexivity. Qed.

(** C7, amended: an event whose date [strptime] rejects (it accepts a
    four-digit year and a month and a day of one or two digits that form
    a real date) is dropped with a warning, an event whose date lies
    outside the window is dropped without one, an event with a string
    type whose amount does not parse is kept with amount 0, and in each
    case the loop goes on with the next event. *)
Theorem C7_per_event_validation (float_of_str : string -> option Q)
    (start_date end_date : Z) (st : loop_state) (txn : gmap string pyval)
    (rest : list (gmap string pyval)) :
  (txn_date txn = None ->
     loop_body float_of_str start_date end_date st txn
     = Returns {| records := records st;
                  warnings := warnings st ++ [txn_date_field txn] |})
  /\ (forall d, txn_date txn = Some d -> d < start_date \/ end_date < d ->
        loop_body float_of_str start_date end_date st txn = Returns st)
  /\ (forall d ty, txn_date txn = Some d -> start_date <= d <= end_date ->
        txn_type txn = Some ty ->
        py_float float_of_str (default (PyNum 0) (txn !! "transactionValue")) = None ->
        loop_body float_of_str start_date end_date st txn
        = Returns {| records := records st ++ [(d, 0%Q)];
                     warnings := warnings st |})
  /\ (forall st', loop_body float_of_str start_date end_date st txn = Returns st' ->
        for_each float_of_str start_date end_date (txn :: rest) st
        = for_each float_of_str start_date end_date rest st')
  /\ (forall s d, txn !! "transactionDate" = Some (PyStr s) ->
        strict_ymd s = Some d -> txn_date txn = Some d).
Proof.
  rewrite loop_body_effect. unfold effect_of.
  assert (Hstrict : forall s d, txn !! "transactionDate" = Some (PyStr s) ->
            strict_ymd s = Some d -> txn_date txn = Some d).
  { intros s d Hs Hd. unfold txn_date, txn_date_field. rewrite Hs. simpl.
    apply strict_ymd_strptime, Hd. }
  split; [intros ->; reflexivity|].
  split.
  { intros d -> Hd. apply in_window_false in Hd. rewrite Hd. reflexivity. }
  split.
  { intros d ty -> Hd -> Hv. apply in_window_true in Hd. rewrite Hd.
    unfold txn_value. rewrite Hv. simpl. rewrite net_value_of_zero. reflexivity. }
  split; [|exact Hstrict].
  intros st' H. cbn [for_each]. rewrite loop_body_effect. unfold effect_of.
  rewrite H. reflexivity.
Qed.

Lemma C7_per_event_validation_witness :
  loop_body float_of_int_literal 738886 738891 empty_state bad_date_txn
  = Returns {| records := records empty_state;
               warnings := warnings empty_state ++ [txn_date_field bad_date_txn] |}
  /\ loop_body float_of_int_literal 738886 738891 empty_state early_txn
     = Returns empty_state
  /\ loop_body float_of_int_literal 738886 738891 empty_state bad_amount_txn
     = Returns {| records := records empty_state ++ [(738887, 0%Q)];
                  warnings := warnings empty_state |}.
Proof.
  split; [|split].
  - apply (proj1 (C7_per_event_validation float_of_int_literal 738886 738891
                    empty_state bad_date_txn [])).
    reflexivity.
  - apply (proj1 (proj2 (C7_per_event_validation float_of_int_literal 738886 738891
                           empty_state early_txn [])) 738885).
    + reflexivity.
    + lia.
  - apply (proj1 (proj2 (proj2 (C7_per_event_validation float_of_int_literal
                                  738886 738891 empty_state bad_amount_txn [])))
             738887 "buy"%string).
    + reflexivity.
    + lia.
    + reflexivity.
    + reflexivity.
Defined.

(** C9 fails on a record whose type field is present and is not a
    string: [None.lower()] raises [AttributeError], which nothing
    catches. *)
Theorem C9_non_string_type_raises (float_of_str : string -> option Q) :
  compute_insider_history float_of_str
    [txn_of (PyStr "2024-01-02") PyNone (PyStr "100")] 738886 738891
  = Raises AttributeError.
Proof. reflexivity. Qed.

(** The reconstructor raises exactly when a surviving event has a type
    field that is not a string. *)
Lemma compute_raises_iff (float_of_str : string -> option Q)
    (txns : list (gmap string pyval)) (start_date end_date : Z) :
  compute_insider_history float_of_str txns start_date end_date = Raises AttributeError
  <-> exists txn, In txn txns /\ survives start_date end_date txn
                  /\ txn_type txn = None.
Proof.
  rewrite compute_insider_history_spec.
  destruct (existsb _ txns) eqn:E.
  - split; [intros _|reflexivity].
    apply existsb_exists in E as (txn & Hin & Hf). exists txn.
    split; [exact Hin|].
    split; [apply (survives_effect float_of_str); right; exact Hf|].
    unfold fails, effect_of in Hf.
    destruct (txn_date txn); [|discriminate].
    destruct (in_window _ _ _); [|discriminate].
    destruct (txn_type txn); [discriminate | reflexivity].
  - split; [discriminate|]. intros (txn & Hin & (d & Hd & Hw) & Hty). exfalso.
    assert (Hf : fails float_of_str start_date end_date txn = true).
    { unfold fails, effect_of. rewrite Hd, Hty.
      apply in_window_true in Hw. rewrite Hw. reflexivity. }
    assert (existsb (fails float_of_str start_date end_date) txns = true)
      by (apply existsb_exists; eauto).
    congruence.
Qed.

(** C10: a type that contains both "buy" and "sell", in any case, is a
    buy: the event contributes its amount with a plus sign. *)
Theorem C10_buy_takes_precedence (float_of_str : string -> option Q)
    (start_date end_date : Z) (st : loop_state) (txn : gmap string pyval)
    (ty : string) (d : Z) :
  txn !! "transactionType" = Some (PyStr ty) ->
  substring_of "buy" (lower ty) ->
  substring_of "sell" (lower ty) ->
  txn_date txn = Some d ->
  start_date <= d <= end_date ->
  net_value_of (lower ty) (txn_value float_of_str txn) = txn_value float_of_str txn
  /\ loop_body float_of_str start_date end_date st txn
     = Returns {| records := records st ++ [(d, txn_value float_of_str txn)];
                  warnings := warnings st |}.
Proof.
  intros Hty Hbuy _ Hd Hw.
  apply contains_spec in Hbuy.
  assert (Hnet : net_value_of (lower ty) (txn_value float_of_str txn)
                 = txn_value float_of_str txn).
  { unfold net_value_of. rewrite Hbuy. reflexivity. }
  split; [exact Hnet|].
  rewrite loop_body_effect. unfold effect_of, txn_type.
  apply in_window_true in Hw. rewrite Hd, Hw, Hty. simpl. rewrite Hnet.
  reflexivity.
Qed.

Lemma C10_buy_takes_precedence_witness :
  net_value_of (lower "Buy-Sell")
    (txn_value float_of_int_literal
       (txn_of (PyStr "2024-01-02") (PyStr "Buy-Sell") (PyStr "100")))
  = txn_value float_of_int_literal
      (txn_of (PyStr "2024-01-02") (PyStr "Buy-Sell") (PyStr "100"))
  /\ loop_body float_of_int_literal 738886 738891 empty_state
       (txn_of (PyStr "2024-01-02") (PyStr "Buy-Sell") (PyStr "100"))
     = Returns {| records := records empty_state
                    ++ [(738887,
                         txn_value float_of_int_literal
                           (txn_of (PyStr "2024-01-02") (PyStr "Buy-Sell") (PyStr "100")))];
                  warnings := warnings empty_state |}.
Proof.
  apply (C10_buy_takes_precedence float_of_int_literal 738886 738891 empty_state
           (txn_of (PyStr "2024-01-02") (PyStr "Buy-Sell") (PyStr "100"))
           "Buy-Sell" 738887).
  - reflexivity.
  - exists EmptyString, "-sell"%string. reflexivity.
  - exists "buy-"%string, EmptyString. reflexivity.
  - reflexivity.
  - lia.
Defined.

(** ** Facts about merging the events of one day *)

Lemma existsb_perm {A} (f : A -> bool) (l l' : list A) :
  Permutation l l' -> existsb f l = existsb f l'.
Proof.
  induction 1 as [|x l l' _ IH|x y l|l l' l'' _ IH1 _ IH2]; simpl.
  - reflexivity.
  - rewrite IH. reflexivity.
  - destruct (f x), (f y); reflexivity.
  - congruence.
Qed.

Lemma existsb_const {A} (f : A -> bool) (l : list A) (b : bool) :
  l <> [] -> (forall x, In x l -> f x = b) -> existsb f l = b.
Proof.
  intros Hne Hall. destruct l as [|x l]; [congruence|]. clear Hne.
  simpl. rewrite (Hall x) by (left; reflexivity).
  destruct b; [reflexivity|]. simpl.
  induction l as [|y l IH]; simpl; [reflexivity|].
  rewrite (Hall y) by (right; left; reflexivity). simpl.
  apply IH. intros z [<-|Hz]; apply Hall; [left | right; right]; auto.
Qed.

Lemma net_value_of_plus (ty : string) (a b : Q) :
  net_value_of ty (a + b) = (net_value_of ty a + net_value_of ty b)%Q.
Proof.
  unfold net_value_of. destruct (contains "buy" ty); [reflexivity|].
  destruct (contains "sell" ty); [apply Qopp_plus_L | reflexivity].
Qed.

Lemma fold_plus_additive (g : Q -> Q) (l : list Q) (x y : Q) :
  (forall a b, g (a + b)%Q = (g a + g b)%Q) ->
  fold_left Qplus (map g l) (x + g y)%Q = (x + g (fold_left Qplus l y))%Q.
Proof.
  intros Hg. revert y. induction l as [|a l IH]; intros y; simpl; [reflexivity|].
  rewrite <- Qplus_assoc_L, <- Hg. apply IH.
Qed.

Lemma Qsum_opp (l : list Q) : Qsum (map Qopp l) = (- Qsum l)%Q.
Proof.
  unfold Qsum.
  change 0%Q with (0 + - 0)%Q at 1.
  rewrite (fold_plus_additive Qopp l 0 0 Qopp_plus_L). apply Qplus_0_l_L.
Qed.

Lemma Qsum_signed (sgn : Q) (amounts : list Q) :
  same_sign sgn amounts -> (sgn * Qsum (map Qabs amounts))%Q = Qsum amounts.
Proof.
  intros [[-> H]|[-> H]].
  - rewrite Qmult_1_l_L. f_equal.
    induction H as [|a l Ha _ IH]; simpl; [reflexivity|].
    rewrite Qabs_nonneg_L by exact Ha. f_equal. exact IH.
  - rewrite Qmult_m1_l_L.
    assert (E : map Qabs amounts = map Qopp amounts).
    { induction H as [|a l Ha _ IH]; simpl; [reflexivity|].
      rewrite Qabs_nonpos_L by exact Ha. f_equal. exact IH. }
    rewrite E, Qsum_opp. apply Qopp_opp_L.
Qed.

Lemma day_total_merge (d d' : Z) (ty : string) (amounts : list Q) (acc : option Q) :
  amounts <> [] ->
  fold_left (day_step d') (map (fun a => (d, net_value_of ty a)) amounts) acc
  = day_step d' acc (d, net_value_of ty (Qsum amounts)).
Proof.
  intros Hne. unfold day_step at 2. simpl.
  destruct (Z.eqb_spec d d') as [->|Hd].
  - destruct amounts as [|a l]; [congruence|]. clear Hne. simpl.
    unfold day_step at 2. simpl. rewrite Z.eqb_refl.
    unfold Qsum. simpl. rewrite Qplus_0_l_L.
    generalize (default 0%Q acc). intros x. revert x a.
    induction l as [|b l IH]; intros x a; simpl; [reflexivity|].
    unfold day_step at 2. simpl. rewrite Z.eqb_refl. simpl.
    rewrite <- Qplus_assoc_L, <- net_value_of_plus. apply IH.
  - clear Hne. induction amounts as [|a l IH]; simpl; [reflexivity|].
    unfold day_step at 2. simpl.
    destruct (Z.eqb_spec d d'); [congruence | exact IH].
Qed.

Lemma groupby_sum_merge (before after : list (Z * Q)) (d : Z) (ty : string)
    (amounts : list Q) :
  amounts <> [] ->
  groupby_sum (before ++ map (fun a => (d, net_value_of ty a)) amounts ++ after)
  = groupby_sum (before ++ (d, net_value_of ty (Qsum amounts)) :: after).
Proof.
  intros Hne. apply map_eq. intros d'. rewrite !groupby_sum_lookup.
  unfold day_total. rewrite !fold_left_app. simpl.
  rewrite day_total_merge by exact Hne. reflexivity.
Qed.

Lemma history_of_merge (before after : list (Z * Q)) (d : Z) (ty : string)
    (amounts : list Q) (start_date end_date : Z) :
  amounts <> [] ->
  daily_net (before ++ map (fun a => (d, net_value_of ty a)) amounts ++ after)
            start_date end_date
  = daily_net (before ++ (d, net_value_of ty (Qsum amounts)) :: after)
              start_date end_date
  /\ history_of (before ++ map (fun a => (d, net_value_of ty a)) amounts ++ after)
                start_date end_date
     = history_of (before ++ (d, net_value_of ty (Qsum amounts)) :: after)
                  start_date end_date.
Proof.
  intros Hne.
  assert (Hd : daily_net (before ++ map (fun a => (d, net_value_of ty a)) amounts ++ after)
                 start_date end_date
               = daily_net (before ++ (d, net_value_of ty (Qsum amounts)) :: after)
                   start_date end_date).
  { unfold daily_net. rewrite groupby_sum_merge by exact Hne. reflexivity. }
  split; [exact Hd|].
  unfold history_of. rewrite Hd.
  destruct amounts as [|a l]; [congruence|].
  destruct before; reflexivity.
Qed.

Section MergeFacts.

Variable float_of_str : string -> option Q.
Variables start_date end_date : Z.

Lemma effect_of_txn_of (date ty : pyval) (a : Q) :
  effect_of float_of_str start_date end_date (txn_of date ty (PyNum a))
  = match py_strptime date with
    | None => Warned date
    | Some d =>
        if in_window start_date end_date d then
          match py_lower ty with
          | None => Failed AttributeError
          | Some t => Kept (d, net_value_of t a)
          end
        else Skipped
    end.
Proof. reflexivity. Qed.

Lemma kept_app (l1 l2 : list (gmap string pyval)) :
  kept float_of_str start_date end_date (l1 ++ l2)
  = kept float_of_str start_date end_date l1
    ++ kept float_of_str start_date end_date l2.
Proof. unfold kept. apply omap_app. Qed.

Lemma kept_cons (txn : gmap string pyval) (l : list (gmap string pyval)) :
  kept float_of_str start_date end_date (txn :: l)
  = match effect_of float_of_str start_date end_date txn with
    | Kept r => r :: kept float_of_str start_date end_date l
    | _ => kept float_of_str start_date end_date l
    end.
Proof.
  unfold kept. cbn [omap list_omap].
  destruct (effect_of float_of_str start_date end_date txn); reflexivity.
Qed.

Lemma kept_split_events (date ty : pyval) (amounts : list Q) :
  kept float_of_str start_date end_date
       (map (fun a => txn_of date ty (PyNum a)) amounts)
  = match py_strptime date with
    | None => []
    | Some d =>
        if in_window start_date end_date d then
          match py_lower ty with
          | None => []
          | Some t => map (fun a => (d, net_value_of t a)) amounts
          end
        else []
    end.
Proof.
  induction amounts as [|a l IH]; cbn [map].
  - destruct (py_strptime date) as [d|]; [|reflexivity].
    destruct (in_window start_date end_date d); [|reflexivity].
    destruct (py_lower ty); reflexivity.
  - rewrite kept_cons, effect_of_txn_of, IH.
    destruct (py_strptime date) as [d|]; [|reflexivity].
    destruct (in_window start_date end_date d); [|reflexivity].
    destruct (py_lower ty); reflexivity.
Qed.

Lemma fails_split_events (date ty : pyval) (amounts : list Q) (a0 : Q) :
  amounts <> [] ->
  existsb (fails float_of_str start_date end_date)
          (map (fun a => txn_of date ty (PyNum a)) amounts)
  = fails float_of_str start_date end_date (txn_of date ty (PyNum a0)).
Proof.
  intros Hne. apply existsb_const.
  - destruct amounts; [congruence | discriminate].
  - intros t Ht. apply in_map_iff in Ht as (a & <- & _).
    unfold fails. rewrite !effect_of_txn_of.
    destruct (py_strptime date) as [d|]; [|reflexivity].
    destruct (in_window start_date end_date d); [|reflexivity].
    destruct (py_lower ty); reflexivity.
Qed.

End MergeFacts.




(** * The programs around the transforms: proofs *)

(** ** Facts about [split] and [strip] *)

Lemma split_on_nonnil (sep : ascii) (s : string) : split_on sep s <> [].
Proof.
  induction s as [|c s IH]; simpl; [discriminate|].
  destruct (Ascii.eqb c sep); [discriminate|].
  destruct (split_on sep s); discriminate.
Qed.

Lemma contains_comma_cons (c : ascii) (s : string) :
  contains "," (String c s) = Ascii.eqb c "," || contains "," s.
Proof.
  cbn [contains String.prefix]. destruct (Ascii.eqb_spec c ",") as [->|N].
  - destruct s; reflexivity.
  - destruct (ascii_dec "," c) as [E|_]; [congruence|]. reflexivity.
Qed.

Lemma contains_comma_app (a b : string) :
  contains "," (a ++ b) = contains "," a || contains "," b.
Proof.
  induction a as [|c a IH].
  - reflexivity.
  - rewrite append_cons, !contains_comma_cons, IH, orb_assoc. reflexivity.
Qed.

Lemma split_on_comma_free (s : string) :
  Forall (fun p => contains "," p = false) (split_on "," s).
Proof.
  induction s as [|c s IH]; cbn [split_on].
  - repeat constructor.
  - destruct (Ascii.eqb_spec c ",") as [->|N].
    + constructor; [reflexivity | exact IH].
    + destruct (split_on "," s) as [|h t]; [repeat constructor|].
      * rewrite contains_comma_cons. apply Ascii.eqb_neq in N. rewrite N. reflexivity.
      * inversion IH as [|? ? Hh Ht]; subst. constructor; [|exact Ht].
        rewrite contains_comma_cons, Hh. apply Ascii.eqb_neq in N. rewrite N. reflexivity.
Qed.

Lemma lstrip_comma_free (s : string) :
  contains "," s = false -> contains "," (lstrip s) = false.
Proof.
  induction s as [|c s IH]; [intros H; exact H|].
  intros H. cbn [lstrip]. destruct (is_space c); [|exact H].
  apply IH. rewrite contains_comma_cons in H. apply orb_false_iff in H. apply H.
Qed.

Lemma rstrip_comma_free (s : string) :
  contains "," s = false -> contains "," (rstrip s) = false.
Proof.
  induction s as [|c s IH]; [intros H; exact H|].
  intros H. rewrite contains_comma_cons in H. apply orb_false_iff in H as [Hc Hs].
  cbn [rstrip]. specialize (IH Hs). destruct (rstrip s) as [|c' r].
  - destruct (is_space c); [reflexivity|].
    rewrite contains_comma_cons, Hc. reflexivity.
  - rewrite contains_comma_cons, Hc. exact IH.
Qed.

Lemma lstrip_first (s : string) : lstrip s = EmptyString \/ first_char_ok (lstrip s).
Proof.
  induction s as [|c s IH]; [left; reflexivity|].
  cbn [lstrip]. destruct (is_space c) eqn:E; [exact IH|].
  right. exact E.
Qed.

Lemma rstrip_last (s : string) : rstrip s = EmptyString \/ last_char_ok (rstrip s).
Proof.
  induction s as [|c s IH]; [left; reflexivity|].
  cbn [rstrip]. destruct (rstrip s) as [|c' r] eqn:E.
  - destruct (is_space c) eqn:Ec; [left; reflexivity|]. right. exact Ec.
  - right. destruct IH as [IH|IH]; [discriminate|]. exact IH.
Qed.

Lemma rstrip_first (s : string) : first_char_ok s -> first_char_ok (rstrip s).
Proof.
  destruct s as [|c s]; [intros []|]. intros H. cbn [first_char_ok] in H.
  cbn [rstrip]. destruct (rstrip s); [rewrite H|]; exact H.
Qed.

Lemma rstrip_clean (s : string) : last_char_ok s -> rstrip s = s.
Proof.
  induction s as [|c s IH]; [intros []|].
  intros H. cbn [rstrip]. destruct s as [|c' s'].
  - cbn [last_char_ok] in H. cbn [rstrip]. rewrite H. reflexivity.
  - rewrite IH by exact H. reflexivity.
Qed.

Lemma strip_clean (s : string) : clean_symbol s -> strip s = s.
Proof.
  intros (Hf & Hl & _). unfold strip.
  destruct s as [|c s]; [destruct Hf|]. cbn [first_char_ok] in Hf.
  cbn [lstrip]. rewrite Hf. apply rstrip_clean. exact Hl.
Qed.

Lemma strip_is_clean (s : string) :
  contains "," s = false -> strip s <> EmptyString -> clean_symbol (strip s).
Proof.
  intros Hc Hne. unfold strip in *. split; [|split].
  - destruct (lstrip_first s) as [E|H]; [rewrite E in Hne; contradiction|].
    apply rstrip_first. exact H.
  - destruct (rstrip_last (lstrip s)) as [E|H]; [contradiction|exact H].
  - apply rstrip_comma_free, lstrip_comma_free. exact Hc.
Qed.

Lemma nonempty_spec (s : string) : nonempty s = true <-> s <> EmptyString.
Proof.
  unfold nonempty. destruct (String.eqb_spec s EmptyString) as [->|N]; simpl.
  - split; [discriminate | intros H; contradiction].
  - split; [intros _; exact N | reflexivity].
Qed.

Lemma clean_symbol_nonempty (s : string) : clean_symbol s -> nonempty s = true.
Proof. intros (Hf & _). destruct s; [destruct Hf | reflexivity]. Qed.

Lemma split_on_cons_item (s : string) (rest : string) :
  contains "," s = false ->
  split_on "," (s ++ String "," rest) = s :: split_on "," rest.
Proof.
  induction s as [|c s IH]; intros H.
  - reflexivity.
  - rewrite contains_comma_cons in H. apply orb_false_iff in H as [Hc Hs].
    rewrite append_cons. cbn [split_on]. rewrite Hc, (IH Hs). reflexivity.
Qed.

Lemma split_on_single (s : string) :
  contains "," s = false -> split_on "," s = [s].
Proof.
  induction s as [|c s IH]; intros H; [reflexivity|].
  rewrite contains_comma_cons in H. apply orb_false_iff in H as [Hc Hs].
  cbn [split_on]. rewrite Hc, (IH Hs). reflexivity.
Qed.

Lemma split_on_join (l : list string) :
  l <> [] -> Forall (fun s => contains "," s = false) l ->
  split_on "," (join_commas l) = l.
Proof.
  induction l as [|s l IH]; [congruence|]. intros _ H.
  inversion H as [|? ? Hs Hl]; subst. destruct l as [|s' l].
  - apply split_on_single. exact Hs.
  - change (join_commas (s :: s' :: l))
      with (s ++ String "," (join_commas (s' :: l)))%string.
    rewrite (split_on_cons_item _ _ Hs), IH by (congruence || exact Hl).
    reflexivity.
Qed.

(** X1.  Every symbol read from SYMBOLS is clean: it is not empty, has
    no whitespace at either end and holds no comma. *)
Theorem parse_symbols_clean (symbols_str sym : string) :
  In sym (parse_symbols symbols_str) -> clean_symbol sym.
Proof.
  unfold parse_symbols. intros H. apply in_map_iff in H as (p & <- & Hp).
  apply filter_In in Hp as [Hin Hne].
  apply strip_is_clean.
  - pose proof (split_on_comma_free symbols_str) as HF.
    rewrite List.Forall_forall in HF. apply HF. exact Hin.
  - apply nonempty_spec. exact Hne.
Qed.

Lemma parse_symbols_clean_witness :
  In "MSFT"%string (parse_symbols " AAPL ,, MSFT,") /\ clean_symbol "MSFT".
Proof.
  split; [right; left; reflexivity|].
  apply (parse_symbols_clean " AAPL ,, MSFT,"). right. left. reflexivity.
Defined.



(** ** Facts about traces *)

Lemma requests_of_app (a b : list io_event) :
  requests_of (a ++ b) = requests_of a ++ requests_of b.
Proof. apply omap_app. Qed.

Lemma plots_of_app (a b : list io_event) :
  plots_of (a ++ b) = plots_of a ++ plots_of b.
Proof. apply omap_app. Qed.

Lemma requests_of_warnings (warns : list pyval) :
  requests_of (map (fun v => Logged WARNING (SkippingInvalidDate v)) warns) = [].
Proof. induction warns as [|v l IH]; [reflexivity | exact IH]. Qed.

Lemma plots_of_warnings (warns : list pyval) :
  plots_of (map (fun v => Logged WARNING (SkippingInvalidDate v)) warns) = [].
Proof. induction warns as [|v l IH]; [reflexivity | exact IH]. Qed.

Lemma to_dict_lookup (o : list (string * json)) (k : string) :
  to_dict o !! k = json_to_pyval <$> obj_get o k.
Proof.
  unfold to_dict. induction o as [|[k' v] o IH]; [apply lookup_empty|].
  simpl. destruct (String.eqb_spec k' k) as [->|N].
  - rewrite lookup_insert_eq. reflexivity.
  - rewrite lookup_insert_ne by exact N. exact IH.
Qed.

(** ** Facts about insiderTransactions.py *)

Section InsiderFacts.

Variable float_of_str : string -> option Q.
Variable http : nat -> option json.
Variable today : Z.

Lemma check_api_limit_spec (data : json) (symbol endpoint : string) (w : world) :
  fst (check_api_limit data symbol endpoint w) = limit_flagged data
  /\ requests_made (snd (check_api_limit data symbol endpoint w)) = requests_made w
  /\ exists evs, trace (snd (check_api_limit data symbol endpoint w)) = trace w ++ evs
                 /\ requests_of evs = [] /\ plots_of evs = [].
Proof.
  unfold check_api_limit, limit_flagged.
  destruct data as [| | | | |o];
    try (split; [reflexivity|]; split; [reflexivity|];
         exists []; rewrite app_nil_r; repeat split; reflexivity).
  destruct (has_key o "Note" || has_key o "Error Message" || has_key o "Information").
  - split; [reflexivity|]. split; [reflexivity|].
    eexists. split; [reflexivity|]. split; reflexivity.
  - split; [reflexivity|]. split; [reflexivity|].
    exists []. rewrite app_nil_r. repeat split; reflexivity.
Qed.


Lemma fetch_insider_transactions_spec (symbol : string) (api_key : option string)
    (base_url : string) (w : world) :
  fst (fetch_insider_transactions http symbol api_key base_url w)
  = insider_result (http (requests_made w))
  /\ requests_made (snd (fetch_insider_transactions http symbol api_key base_url w))
     = S (requests_made w)
  /\ exists evs,
       trace (snd (fetch_insider_transactions http symbol api_key base_url w))
       = trace w ++ evs
       /\ requests_of evs = [("INSIDER_TRANSACTIONS", symbol)]%string
       /\ plots_of evs = [].
Proof.
  unfold fetch_insider_transactions, request, insider_result.
  destruct (http (requests_made w)) as [data|]; cbn [fst snd].
  - match goal with
    | |- context [check_api_limit ?d ?s ?e ?w0] =>
        destruct (check_api_limit_spec d s e w0) as (Hf & Hn & evs & Ht & Hr & Hp);
        destruct (check_api_limit d s e w0) as [limit w1]
    end.
    cbn [fst snd requests_made trace log emit] in *. subst limit.
    destruct (limit_flagged data).
    + cbn [fst snd]. split; [reflexivity|]. split; [exact Hn|].
      eexists. rewrite Ht, <- !app_assoc. split; [reflexivity|].
      rewrite !requests_of_app, !plots_of_app, Hr, Hp. split; reflexivity.
    + destruct data as [| | | | |o]; cbn [fst snd requests_made trace log emit];
        (split; [reflexivity|]; split; [exact Hn|];
         eexists; rewrite Ht, <- !app_assoc; split; [reflexivity|];
         rewrite !requests_of_app, !plots_of_app, Hr, Hp; split; reflexivity).
  - cbn [requests_made trace log emit]. split; [reflexivity|]. split; [reflexivity|].
    eexists. rewrite <- !app_assoc. split; [reflexivity|]. split; reflexivity.
Qed.

Lemma fetch_overview_spec (symbol : string) (api_key : option string)
    (base_url : string) (w : world) :
  fst (fetch_overview http symbol api_key base_url w)
  = overview_result (http (requests_made w))
  /\ requests_made (snd (fetch_overview http symbol api_key base_url w))
     = S (requests_made w)
  /\ exists evs,
       trace (snd (fetch_overview http symbol api_key base_url w)) = trace w ++ evs
       /\ requests_of evs = [("OVERVIEW", symbol)]%string
       /\ plots_of evs = [].
Proof.
  unfold fetch_overview, request, overview_result.
  destruct (http (requests_made w)) as [data|]; cbn [fst snd].
  - match goal with
    | |- context [check_api_limit ?d ?s ?e ?w0] =>
        destruct (check_api_limit_spec d s e w0) as (Hf & Hn & evs & Ht & Hr & Hp);
        destruct (check_api_limit d s e w0) as [limit w1]
    end.
    cbn [fst snd requests_made trace log emit] in *. subst limit.
    destruct (limit_flagged data); cbn [fst snd requests_made trace log emit];
      (split; [reflexivity|]; split; [exact Hn|];
       eexists; rewrite Ht, <- ?app_assoc; split; [reflexivity|];
       rewrite !requests_of_app, ?plots_of_app, Hr, Hp; split; reflexivity).
  - cbn [requests_made trace log emit]. split; [reflexivity|]. split; [reflexivity|].
    eexists. rewrite <- !app_assoc. split; [reflexivity|]. split; reflexivity.
Qed.

(** X5.  [fetch_insider_transactions] returns [None], which [main] takes
    for the provider's limit, exactly when the request succeeded and
    the response either carries one of the limit keys or is a dict
    whose ["data"] is null. *)
Theorem fetch_insider_transactions_none (symbol : string) (api_key : option string)
    (base_url : string) (w : world) :
  fst (fetch_insider_transactions http symbol api_key base_url w) = JNull
  <-> exists data, http (requests_made w) = Some data
                   /\ (limit_flagged data = true
                       \/ exists o, data = JObj o /\ obj_get o "data" = Some JNull).
Proof.
  rewrite (proj1 (fetch_insider_transactions_spec symbol api_key base_url w)).
  unfold insider_result. destruct (http (requests_made w)) as [data|].
  - destruct (limit_flagged data) eqn:E.
    + split; [intros _; exists data; auto | reflexivity].
    + split.
      * intros H. exists data. split; [reflexivity|]. right.
        destruct data as [| | | | |o]; try discriminate.
        exists o. split; [reflexivity|].
        destruct (obj_get o "data") as [v|]; [|discriminate].
        simpl in H. subst v. reflexivity.
      * intros (d & [= <-] & [H|(o & -> & H)]); [congruence|].
        rewrite H. reflexivity.
  - split; [discriminate | intros (d & H & _); discriminate].
Qed.

(** X6.  [fetch_overview] returns [None] exactly when the request
    succeeded and the response either carries one of the limit keys or
    is the JSON value null. *)
Theorem fetch_overview_none (symbol : string) (api_key : option string)
    (base_url : string) (w : world) :
  fst (fetch_overview http symbol api_key base_url w) = JNull
  <-> exists data, http (requests_made w) = Some data
                   /\ (limit_flagged data = true \/ data = JNull).
Proof.
  rewrite (proj1 (fetch_overview_spec symbol api_key base_url w)).
  unfold overview_result. destruct (http (requests_made w)) as [data|].
  - destruct (limit_flagged data) eqn:E.
    + split; [intros _; exists data; auto | reflexivity].
    + split.
      * intros H. exists data. auto.
      * intros (d & [= <-] & [H| ->]); [congruence | reflexivity].
  - split; [discriminate | intros (d & H & _); discriminate].
Qed.

Lemma insider_result_unflagged (response : option json) :
  insider_result response <> JNull ->
  forall data, response = Some data -> limit_flagged data = false.
Proof.
  intros H data ->. unfold insider_result in H.
  destruct (limit_flagged data); [contradiction | reflexivity].
Qed.

Lemma overview_result_unflagged (response : option json) :
  overview_result response <> JNull ->
  forall data, response = Some data -> limit_flagged data = false.
Proof.
  intros H data ->. unfold overview_result in H.
  destruct (limit_flagged data); [contradiction | reflexivity].
Qed.

Lemma read_market_cap_spec (symbol : string) (o : list (string * json)) (w : world) :
  fst (read_market_cap float_of_str symbol o w) = market_cap_of float_of_str o
  /\ requests_made (snd (read_market_cap float_of_str symbol o w)) = requests_made w
  /\ exists evs, trace (snd (read_market_cap float_of_str symbol o w)) = trace w ++ evs
                 /\ requests_of evs = [] /\ plots_of evs = [].
Proof.
  unfold read_market_cap, market_cap_of.
  destruct (truthy (py_get o "MarketCapitalization")); cbn [negb].
  - destruct (py_float float_of_str _); cbn [fst snd requests_made trace print log emit].
    + split; [reflexivity|]. split; [reflexivity|].
      exists []. rewrite app_nil_r. repeat split; reflexivity.
    + split; [reflexivity|]. split; [reflexivity|].
      eexists. rewrite <- !app_assoc. split; [reflexivity|]. split; reflexivity.
  - cbn [fst snd requests_made trace print log emit].
    split; [reflexivity|]. split; [reflexivity|].
    eexists. rewrite <- !app_assoc. split; [reflexivity|]. split; reflexivity.
Qed.

Lemma plot_insider_history_spec (symbol : string) (history_df : list (Z * Q))
    (market_cap : option Q) (w : world) :
  fst (plot_insider_history symbol history_df market_cap w)
  = fst (fst (plot_of_history symbol market_cap history_df))
  /\ requests_made (snd (plot_insider_history symbol history_df market_cap w))
     = requests_made w
  /\ exists evs,
       trace (snd (plot_insider_history symbol history_df market_cap w)) = trace w ++ evs
       /\ requests_of evs = []
       /\ plots_of evs = [plot_of_history symbol market_cap history_df].
Proof.
  unfold plot_insider_history, plot_of_history, plot_name.
  destruct market_cap as [cap|]; cbn [fst snd requests_made trace log emit];
    (split; [reflexivity|]; split; [reflexivity|];
     eexists; rewrite <- !app_assoc; split; [reflexivity|]; split; reflexivity).
Qed.

(** The loop over JSON values and the loop over dicts. *)
Lemma for_each_json_crash (start_date end_date : Z) (items : list json)
    (st : loop_state) :
  snd (for_each_json float_of_str start_date end_date items st) = None
  \/ snd (for_each_json float_of_str start_date end_date items st)
     = Some CrashAttributeError.
Proof.
  revert st. induction items as [|x items IH]; intros st; [left; reflexivity|].
  destruct x; try (right; reflexivity). cbn [for_each_json].
  destruct (loop_body _ _ _ _ _) as [st'|[]]; [apply IH | right; reflexivity].
Qed.

Lemma for_each_json_non_dict (start_date end_date : Z) (items : list json)
    (st : loop_state) :
  Exists (fun x => is_obj x = false) items ->
  snd (for_each_json float_of_str start_date end_date items st)
  = Some CrashAttributeError.
Proof.
  intros H. revert st. induction H as [x items Hx|x items Hx IH]; intros st.
  - destruct x; try reflexivity. discriminate.
  - destruct x; try reflexivity. cbn [for_each_json].
    destruct (loop_body _ _ _ _ _) as [st'|[]]; [apply IH | reflexivity].
Qed.

Lemma for_each_json_objs (start_date end_date : Z) (os : list (list (string * json)))
    (st : loop_state) :
  match for_each float_of_str start_date end_date (map to_dict os) st with
  | Returns st' =>
      for_each_json float_of_str start_date end_date (map JObj os) st = (st', None)
  | Raises _ =>
      snd (for_each_json float_of_str start_date end_date (map JObj os) st)
      = Some CrashAttributeError
  end.
Proof.
  revert st. induction os as [|o os IH]; intros st; [reflexivity|].
  cbn [map for_each for_each_json].
  destruct (loop_body _ _ _ _ _) as [st'|[]]; [apply IH | reflexivity].
Qed.

Lemma compute_insider_history_json_objs (os : list (list (string * json)))
    (start_date end_date : Z) :
  match compute_insider_history float_of_str (map to_dict os) start_date end_date with
  | Returns (h, ws) =>
      compute_insider_history_json float_of_str (JList (map JObj os))
                                   start_date end_date = (Done h, ws)
  | Raises _ =>
      fst (compute_insider_history_json float_of_str (JList (map JObj os))
                                        start_date end_date)
      = Crash CrashAttributeError
  end.
Proof.
  unfold compute_insider_history, compute_insider_history_json. cbn [py_iter].
  pose proof (for_each_json_objs start_date end_date os
                {| records := []; warnings := [] |}) as H.
  destruct (for_each _ _ _ _ _) as [st'|e].
  - rewrite H. reflexivity.
  - destruct (for_each_json _ _ _ _ _) as [st c]. cbn [snd] in H. subst c. reflexivity.
Qed.

(** A frame that is not empty has the dates of the window. *)
Lemma compute_insider_history_json_dates (transactions : json)
    (start_date end_date : Z) (r : Z * Q) (h : list (Z * Q)) :
  fst (compute_insider_history_json float_of_str transactions start_date end_date)
  = Done (r :: h) ->
  map fst (r :: h) = date_range start_date end_date.
Proof.
  unfold compute_insider_history_json.
  destruct (py_iter transactions) as [items|]; [|discriminate].
  destruct (for_each_json _ _ _ _ _) as [st [c|]]; [discriminate|].
  cbn [fst]. intros [= H]. rewrite <- H.
  apply history_of_columns. intros E. rewrite E in H. discriminate.
Qed.

(** X7.  When any element of [transactions] is not a dict,
    [compute_insider_history] raises [AttributeError]: on such a list,
    on a dict that is not empty, on a string that is not empty. *)
Theorem compute_insider_history_non_dict (transactions : json) (items : list json)
    (start_date end_date : Z) :
  py_iter transactions = Some items ->
  Exists (fun x => is_obj x = false) items ->
  fst (compute_insider_history_json float_of_str transactions start_date end_date)
  = Crash CrashAttributeError.
Proof.
  intros Hi Hx. unfold compute_insider_history_json. rewrite Hi.
  pose proof (for_each_json_non_dict start_date end_date items
                {| records := []; warnings := [] |} Hx) as H.
  destruct (for_each_json _ _ _ _ _) as [st c]. cbn [snd] in H. subst c. reflexivity.
Qed.

Lemma is_null_spec (v : json) : is_null v = true <-> v = JNull.
Proof. destruct v; simpl; split; congruence. Qed.

Lemma is_null_false (v : json) : is_null v = false -> v <> JNull.
Proof. intros H ->. discriminate. Qed.

(** One symbol of [main]: what it requests, when it stops, what it
    plots. *)
Lemma process_symbol_spec (api_key : option string) (base_url : string)
    (start_date end_date : Z) (symbol : string) (w : world) :
  exists evs,
    trace (snd (process_symbol float_of_str http api_key base_url
                               start_date end_date symbol w)) = trace w ++ evs
    /\ ((requests_made (snd (process_symbol float_of_str http api_key base_url
                                            start_date end_date symbol w))
         = S (requests_made w)
         /\ requests_of evs = [("INSIDER_TRANSACTIONS", symbol)]%string
         /\ plots_of evs = []
         /\ fst (process_symbol float_of_str http api_key base_url
                                start_date end_date symbol w) = Done None)
        \/ (requests_made (snd (process_symbol float_of_str http api_key base_url
                                               start_date end_date symbol w))
            = S (S (requests_made w))
            /\ requests_of evs = insider_schedule [symbol]
            /\ (forall data, http (requests_made w) = Some data ->
                             limit_flagged data = false)
            /\ ((plots_of evs = []
                 /\ fst (process_symbol float_of_str http api_key base_url
                                        start_date end_date symbol w) = Done None)
                \/ ((forall data, http (S (requests_made w)) = Some data ->
                                  limit_flagged data = false)
                    /\ (plots_of evs = []
                        \/ (fst (process_symbol float_of_str http api_key base_url
                                                start_date end_date symbol w)
                            = Done (Some tt)
                            /\ exists pct series,
                                 plots_of evs = [(plot_name symbol pct, pct, series)]
                                 /\ map fst series
                                    = date_range start_date end_date)))))).
Proof.
  unfold process_symbol.
  set (w0 := print (Processing symbol) (log INFO (Processing symbol) w)).
  assert (Hn0 : requests_made w0 = requests_made w) by reflexivity.
  assert (Ht0 : trace w0 = trace w ++ [Logged INFO (Processing symbol);
                                       Printed (Processing symbol)]).
  { unfold w0. cbn [trace print log emit]. rewrite <- app_assoc. reflexivity. }
  destruct (fetch_insider_transactions_spec symbol api_key base_url w0)
    as (Hr1 & Hn1 & evs1 & Ht1 & Hq1 & Hp1).
  destruct (fetch_insider_transactions http symbol api_key base_url w0) as [tr w1].
  cbn [fst snd] in Hr1, Hn1, Ht1. rewrite Hn0 in Hr1, Hn1.
  destruct (is_null tr) eqn:Enull.
  { eexists. cbn [fst snd trace print log emit requests_made].
    rewrite Ht1, Ht0, <- !app_assoc. split; [reflexivity|]. left.
    split; [exact Hn1|]. rewrite !requests_of_app, !plots_of_app, Hq1, Hp1.
    repeat split; reflexivity. }
  apply is_null_false in Enull.
  pose proof (insider_result_unflagged (http (requests_made w))) as Hu1.
  rewrite <- Hr1 in Hu1. specialize (Hu1 Enull).
  destruct (fetch_overview_spec symbol api_key base_url w1)
    as (Hr2 & Hn2 & evs2 & Ht2 & Hq2 & Hp2).
  destruct (fetch_overview http symbol api_key base_url w1) as [ov w2].
  cbn [fst snd] in Hr2, Hn2, Ht2. rewrite Hn1 in Hr2, Hn2.
  destruct (is_null ov) eqn:Enull2.
  { eexists. cbn [fst snd trace print log emit requests_made].
    rewrite Ht2, Ht1, Ht0, <- !app_assoc. split; [reflexivity|]. right.
    split; [exact Hn2|]. rewrite !requests_of_app, !plots_of_app, Hq1, Hp1, Hq2, Hp2.
    split; [reflexivity|]. split; [exact Hu1|]. left. split; reflexivity. }
  apply is_null_false in Enull2.
  pose proof (overview_result_unflagged (http (S (requests_made w)))) as Hu2.
  rewrite <- Hr2 in Hu2. specialize (Hu2 Enull2).
  destruct ov as [| | | | |o];
    try (eexists; cbn [fst snd]; rewrite Ht2, Ht1, Ht0, <- !app_assoc;
         split; [reflexivity|]; right; split; [exact Hn2|];
         rewrite !requests_of_app, !plots_of_app, Hq1, Hp1, Hq2, Hp2;
         split; [reflexivity|]; split; [exact Hu1|]; right; split; [exact Hu2|];
         left; reflexivity).
  destruct (read_market_cap_spec symbol o w2) as (Hr3 & Hn3 & evs3 & Ht3 & Hq3 & Hp3).
  destruct (read_market_cap float_of_str symbol o w2) as [cap w3].
  cbn [fst snd] in Hr3, Hn3, Ht3.
  pose proof (compute_insider_history_json_dates tr start_date end_date) as Hd.
  destruct (compute_insider_history_json float_of_str tr start_date end_date)
    as [history warns].
  cbn [fst] in Hd.
  pose proof (requests_of_warnings warns) as Hq4.
  pose proof (plots_of_warnings warns) as Hp4.
  set (evs4 := map (fun v => Logged WARNING (SkippingInvalidDate v)) warns) in *.
  destruct history as [[|r h]|c].
  - eexists. cbn [fst snd trace print log emit emit_all requests_made].
    rewrite Ht3, Ht2, Ht1, Ht0, <- !app_assoc. split; [reflexivity|]. right.
    split; [congruence|].
    rewrite !requests_of_app, !plots_of_app, Hq1, Hp1, Hq2, Hp2, Hq3, Hp3, Hq4, Hp4.
    split; [reflexivity|]. split; [exact Hu1|]. right. split; [exact Hu2|].
    left. reflexivity.
  - set (w4 := emit_all evs4 w3).
    destruct (plot_insider_history_spec symbol (r :: h) cap w4)
      as (Hr5 & Hn5 & evs5 & Ht5 & Hq5 & Hp5).
    destruct (plot_insider_history symbol (r :: h) cap w4) as [fn w5].
    cbn [fst snd] in Hr5, Hn5, Ht5.
    eexists. cbn [fst snd trace print log emit emit_all requests_made].
    rewrite Ht5. unfold w4. cbn [trace emit_all].
    rewrite Ht3, Ht2, Ht1, Ht0, <- !app_assoc. split; [reflexivity|]. right.
    split; [rewrite Hn5; unfold w4; cbn [requests_made emit_all]; congruence|].
    rewrite !requests_of_app, !plots_of_app, Hq1, Hp1, Hq2, Hp2, Hq3, Hp3, Hq4, Hp4,
      Hq5, Hp5.
    split; [reflexivity|]. split; [exact Hu1|]. right. split; [exact Hu2|].
    right. split; [reflexivity|].
    specialize (Hd r h eq_refl).
    destruct cap as [c|].
    + exists true. eexists. split; [reflexivity|].
      rewrite map_map. cbn [fst]. exact Hd.
    + exists false. eexists. split; [reflexivity|]. exact Hd.
  - eexists. cbn [fst snd trace print log emit emit_all requests_made].
    rewrite Ht3, Ht2, Ht1, Ht0, <- !app_assoc. split; [reflexivity|]. right.
    split; [congruence|].
    rewrite !requests_of_app, !plots_of_app, Hq1, Hp1, Hq2, Hp2, Hq3, Hp3, Hq4, Hp4.
    split; [reflexivity|]. split; [exact Hu1|]. right. split; [exact Hu2|].
    left. reflexivity.
Qed.

Lemma process_symbol_outcome (api_key : option string) (base_url : string)
    (start_date end_date : Z) (symbol : string) (w : world) :
  exists evs,
    trace (snd (process_symbol float_of_str http api_key base_url
                               start_date end_date symbol w)) = trace w ++ evs
    /\ (fst (process_symbol float_of_str http api_key base_url
                            start_date end_date symbol w), plots_of evs)
       = symbol_outcome float_of_str start_date end_date symbol
                        (http (requests_made w)) (http (S (requests_made w))).
Proof.
  unfold process_symbol, symbol_outcome.
  set (w0 := print (Processing symbol) (log INFO (Processing symbol) w)).
  assert (Hn0 : requests_made w0 = requests_made w) by reflexivity.
  assert (Ht0 : trace w0 = trace w ++ [Logged INFO (Processing symbol);
                                       Printed (Processing symbol)]).
  { unfold w0. cbn [trace print log emit]. rewrite <- app_assoc. reflexivity. }
  destruct (fetch_insider_transactions_spec symbol api_key base_url w0)
    as (Hr1 & Hn1 & evs1 & Ht1 & Hq1 & Hp1).
  destruct (fetch_insider_transactions http symbol api_key base_url w0) as [tr w1].
  cbn [fst snd] in Hr1, Hn1, Ht1. rewrite Hn0 in Hr1, Hn1. rewrite <- Hr1.
  destruct (is_null tr) eqn:Enull.
  { eexists. cbn [fst snd trace print log emit requests_made].
    rewrite Ht1, Ht0, <- !app_assoc. split; [reflexivity|].
    rewrite !plots_of_app, Hp1. reflexivity. }
  destruct (fetch_overview_spec symbol api_key base_url w1)
    as (Hr2 & Hn2 & evs2 & Ht2 & Hq2 & Hp2).
  destruct (fetch_overview http symbol api_key base_url w1) as [ov w2].
  cbn [fst snd] in Hr2, Hn2, Ht2. rewrite Hn1 in Hr2, Hn2. rewrite <- Hr2.
  destruct (is_null ov) eqn:Enull2.
  { eexists. cbn [fst snd trace print log emit requests_made].
    rewrite Ht2, Ht1, Ht0, <- !app_assoc. split; [reflexivity|].
    rewrite !plots_of_app, Hp1, Hp2. reflexivity. }
  destruct ov as [| | | | |o];
    try (eexists; cbn [fst snd]; rewrite Ht2, Ht1, Ht0, <- !app_assoc;
         split; [reflexivity|]; rewrite !plots_of_app, Hp1, Hp2; reflexivity).
  destruct (read_market_cap_spec symbol o w2) as (Hr3 & Hn3 & evs3 & Ht3 & Hq3 & Hp3).
  destruct (read_market_cap float_of_str symbol o w2) as [cap w3].
  cbn [fst snd] in Hr3, Hn3, Ht3. rewrite <- Hr3.
  destruct (compute_insider_history_json float_of_str tr start_date end_date)
    as [history warns].
  cbn [fst].
  pose proof (plots_of_warnings warns) as Hp4.
  set (evs4 := map (fun v => Logged WARNING (SkippingInvalidDate v)) warns) in *.
  destruct history as [[|r h]|c].
  - eexists. cbn [fst snd trace print log emit emit_all requests_made].
    rewrite Ht3, Ht2, Ht1, Ht0, <- !app_assoc. split; [reflexivity|].
    rewrite !plots_of_app, Hp1, Hp2, Hp3, Hp4. reflexivity.
  - set (w4 := emit_all evs4 w3).
    destruct (plot_insider_history_spec symbol (r :: h) cap w4)
      as (Hr5 & Hn5 & evs5 & Ht5 & Hq5 & Hp5).
    destruct (plot_insider_history symbol (r :: h) cap w4) as [fn w5].
    cbn [fst snd] in Hr5, Hn5, Ht5.
    eexists. cbn [fst snd trace print log emit emit_all requests_made].
    rewrite Ht5. unfold w4. cbn [trace emit_all].
    rewrite Ht3, Ht2, Ht1, Ht0, <- !app_assoc. split; [reflexivity|].
    rewrite !plots_of_app, Hp1, Hp2, Hp3, Hp4, Hp5. reflexivity.
  - eexists. cbn [fst snd trace print log emit emit_all requests_made].
    rewrite Ht3, Ht2, Ht1, Ht0, <- !app_assoc. split; [reflexivity|].
    rewrite !plots_of_app, Hp1, Hp2, Hp3, Hp4. reflexivity.
Qed.

Lemma process_symbol_plots (api_key : option string) (base_url : string)
    (start_date end_date : Z) (symbol : string) (w : world) :
  plots_of (trace (snd (process_symbol float_of_str http api_key base_url
                                       start_date end_date symbol w)))
  = plots_of (trace w)
    ++ snd (symbol_outcome float_of_str start_date end_date symbol
                           (http (requests_made w)) (http (S (requests_made w)))).
Proof.
  destruct (process_symbol_outcome api_key base_url start_date end_date symbol w)
    as (evs & Ht & Ho).
  rewrite Ht, plots_of_app, <- Ho. reflexivity.
Qed.

Lemma process_symbol_result (api_key : option string) (base_url : string)
    (start_date end_date : Z) (symbol : string) (w : world) :
  fst (process_symbol float_of_str http api_key base_url
                      start_date end_date symbol w)
  = fst (symbol_outcome float_of_str start_date end_date symbol
                        (http (requests_made w)) (http (S (requests_made w)))).
Proof.
  destruct (process_symbol_outcome api_key base_url start_date end_date symbol w)
    as (evs & Ht & Ho).
  rewrite <- Ho. reflexivity.
Qed.

Lemma process_symbol_requests (api_key : option string) (base_url : string)
    (start_date end_date : Z) (symbol : string) (w : world) :
  exists p, requests_of (trace (snd (process_symbol float_of_str http api_key base_url
                                                    start_date end_date symbol w)))
            = requests_of (trace w) ++ p
    /\ requests_made (snd (process_symbol float_of_str http api_key base_url
                                          start_date end_date symbol w))
       = (requests_made w + length p)%nat
    /\ ((p = [("INSIDER_TRANSACTIONS", symbol)]%string
         /\ fst (process_symbol float_of_str http api_key base_url
                                start_date end_date symbol w) = Done None)
        \/ p = insider_schedule [symbol]).
Proof.
  destruct (process_symbol_spec api_key base_url start_date end_date symbol w)
    as (evs & Ht & [(Hn & Hq & _ & Hr)|(Hn & Hq & _)]).
  - exists (requests_of evs). rewrite Ht, requests_of_app, Hn, Hq.
    split; [reflexivity|]. split; [simpl; lia|]. left. split; [reflexivity | exact Hr].
  - exists (requests_of evs). rewrite Ht, requests_of_app, Hn, Hq.
    split; [reflexivity|]. split; [simpl; lia|]. right. reflexivity.
Qed.

Lemma process_symbols_requests (api_key : option string) (base_url : string)
    (start_date end_date : Z) (symbols : list string) (w : world) :
  exists p, requests_of (trace (snd (process_symbols float_of_str http api_key base_url
                                                     start_date end_date symbols w)))
            = requests_of (trace w) ++ p
    /\ p `prefix_of` insider_schedule symbols
    /\ requests_made (snd (process_symbols float_of_str http api_key base_url
                                           start_date end_date symbols w))
       = (requests_made w + length p)%nat.
Proof.
  revert w. induction symbols as [|symbol rest IH]; intros w.
  - exists []. cbn [process_symbols snd]. rewrite app_nil_r.
    split; [reflexivity|]. split; [reflexivity | simpl; lia].
  - cbn [process_symbols].
    destruct (process_symbol_requests api_key base_url start_date end_date symbol w)
      as (p & Hq & Hn & Hp).
    destruct (process_symbol float_of_str http api_key base_url
                             start_date end_date symbol w) as [[[u|]|c] w1];
      cbn [fst snd] in *.
    + destruct Hp as [[_ Hd]| ->]; [discriminate|].
      destruct (IH w1) as (p' & Hq' & Hpre & Hn').
      exists (insider_schedule [symbol] ++ p'). rewrite Hq', Hq, <- app_assoc.
      split; [reflexivity|]. split.
      * change (insider_schedule (symbol :: rest))
          with (insider_schedule [symbol] ++ insider_schedule rest).
        apply prefix_app. exact Hpre.
      * rewrite Hn', Hn, length_app. lia.
    + exists p. split; [exact Hq|]. split; [|exact Hn].
      destruct Hp as [[-> _]| ->].
      * exists (("OVERVIEW", symbol)%string :: insider_schedule rest). reflexivity.
      * exists (insider_schedule rest). reflexivity.
    + exists p. split; [exact Hq|]. split; [|exact Hn].
      destruct Hp as [[-> _]| ->].
      * exists (("OVERVIEW", symbol)%string :: insider_schedule rest). reflexivity.
      * exists (insider_schedule rest). reflexivity.
Qed.

(** X8.  [main] requests the symbols in order, the transactions of a
    symbol and then its overview: the requests of a run are a prefix of
    that schedule. *)
Theorem insider_main_requests (env : gmap string string) (w : world) :
  exists p,
    requests_of (trace (snd (insider_main float_of_str http today env w)))
    = requests_of (trace w) ++ p
    /\ p `prefix_of` insider_schedule (parse_symbols (default "" (env !! "SYMBOLS")))
    /\ requests_made (snd (insider_main float_of_str http today env w))
       = (requests_made w + length p)%nat.
Proof.
  unfold insider_main.
  destruct (nonempty (default "" (env !! "SYMBOLS"))); cbn [negb].
  - apply process_symbols_requests.
  - exists []. cbn [snd trace print log emit requests_made].
    rewrite !requests_of_app, !app_nil_r.
    split; [reflexivity|]. split; [apply prefix_nil | simpl; lia].
Qed.

Lemma process_symbols_stop (api_key : option string) (base_url : string)
    (start_date end_date : Z) (symbols : list string) (w : world)
    (n : nat) (data : json) :
  (requests_made w <= n)%nat ->
  (n < requests_made (snd (process_symbols float_of_str http api_key base_url
                                           start_date end_date symbols w)))%nat ->
  http n = Some data -> limit_flagged data = true ->
  requests_made (snd (process_symbols float_of_str http api_key base_url
                                      start_date end_date symbols w)) = S n
  /\ fst (process_symbols float_of_str http api_key base_url
                          start_date end_date symbols w) = Done tt.
Proof.
  intros Hge Hlt Hn Hf. revert w Hge Hlt.
  induction symbols as [|symbol rest IH]; intros w Hge Hlt.
  - cbn [process_symbols snd] in Hlt. lia.
  - cbn [process_symbols] in *.
    destruct (process_symbol_spec api_key base_url start_date end_date symbol w)
      as (evs & _ & H).
    assert (Hun : forall m d, http m = Some d -> limit_flagged d = false -> m <> n).
    { intros m d Hm Hd ->. congruence. }
    destruct (process_symbol float_of_str http api_key base_url
                             start_date end_date symbol w) as [[[u|]|c] w1];
      cbn [fst snd] in *.
    + destruct H as [(_ & _ & _ & Hd)|(Hn1 & _ & Hu1 & [(_ & Hd)|(Hu2 & _)])];
        try discriminate.
      apply IH; [|exact Hlt].
      destruct (http (requests_made w)) as [d1|] eqn:E1;
        destruct (http (S (requests_made w))) as [d2|] eqn:E2;
        try (pose proof (Hun _ _ E1 (Hu1 _ eq_refl)));
        try (pose proof (Hun _ _ E2 (Hu2 _ eq_refl)));
        try (assert (requests_made w <> n) by congruence);
        try (assert (S (requests_made w) <> n) by congruence); lia.
    + split; [|reflexivity].
      destruct H as [(Hn1 & _)|(Hn1 & _ & Hu1 & _)]; [lia|].
      destruct (http (requests_made w)) as [d1|] eqn:E1;
        try (pose proof (Hun _ _ E1 (Hu1 _ eq_refl)));
        try (assert (requests_made w <> n) by congruence); lia.
    + exfalso.
      destruct H as [(_ & _ & _ & Hd)|(Hn1 & _ & Hu1 & [(_ & Hd)|(Hu2 & _)])];
        try discriminate.
      destruct (http (requests_made w)) as [d1|] eqn:E1;
        destruct (http (S (requests_made w))) as [d2|] eqn:E2;
        try (pose proof (Hun _ _ E1 (Hu1 _ eq_refl)));
        try (pose proof (Hun _ _ E2 (Hu2 _ eq_refl)));
        try (assert (requests_made w <> n) by congruence);
        try (assert (S (requests_made w) <> n) by congruence); lia.
Qed.

(** X9.  A response that carries one of the limit keys ends the run:
    the request it answers is the last one, and [main] returns
    normally. *)
Theorem insider_main_stops_at_limit (env : gmap string string) (w : world)
    (n : nat) (data : json) :
  (requests_made w <= n)%nat ->
  (n < requests_made (snd (insider_main float_of_str http today env w)))%nat ->
  http n = Some data -> limit_flagged data = true ->
  requests_made (snd (insider_main float_of_str http today env w)) = S n
  /\ fst (insider_main float_of_str http today env w) = Done tt.
Proof.
  unfold insider_main.
  destruct (nonempty (default "" (env !! "SYMBOLS"))); cbn [negb].
  - apply process_symbols_stop.
  - cbn [snd requests_made print log emit]. lia.
Qed.

Lemma process_symbols_plots (api_key : option string) (base_url : string)
    (start_date end_date : Z) (symbols : list string) (w : world) :
  exists plots,
    plots_of (trace (snd (process_symbols float_of_str http api_key base_url
                                          start_date end_date symbols w)))
    = plots_of (trace w) ++ plots
    /\ plots_for start_date end_date symbols plots.
Proof.
  revert w. induction symbols as [|symbol rest IH]; intros w.
  - exists []. cbn [process_symbols snd]. rewrite app_nil_r.
    split; [reflexivity | constructor].
  - cbn [process_symbols].
    destruct (process_symbol_spec api_key base_url start_date end_date symbol w)
      as (evs & Ht & H).
    assert (Hnone : forall plots, plots_for start_date end_date rest plots ->
                                  plots_for start_date end_date (symbol :: rest) plots).
    { intros plots. apply plots_for_skip. }
    assert (Hnil : plots_for start_date end_date rest []).
    { clear. induction rest; constructor; assumption. }
    destruct (process_symbol float_of_str http api_key base_url
                             start_date end_date symbol w) as [[[u|]|c] w1];
      cbn [fst snd] in *.
    + destruct (IH w1) as (plots & Hp & Hfor). rewrite Hp, Ht, plots_of_app.
      destruct H as [(_ & _ & _ & Hd)|(_ & _ & _ & [(_ & Hd)|(_ & [Hp0|Hplot])])];
        try discriminate.
      * exists plots. rewrite Hp0, app_nil_r. split; [reflexivity|]. apply Hnone, Hfor.
      * destruct Hplot as (_ & pct & series & Hp1 & Hdates).
        exists ((plot_name symbol pct, pct, series) :: plots).
        rewrite Hp1, <- app_assoc. split; [reflexivity|].
        apply plots_for_plot; assumption.
    + exists []. rewrite Ht, plots_of_app. split; [|apply Hnone, Hnil]. f_equal.
      destruct H as [(_ & _ & Hp0 & _)|(_ & _ & _ & [(Hp0 & _)|(_ & [Hp0|Hplot])])];
        try exact Hp0.
      destruct Hplot as (Hd & _). discriminate.
    + exists []. rewrite Ht, plots_of_app. split; [|apply Hnone, Hnil]. f_equal.
      destruct H as [(_ & _ & Hp0 & _)|(_ & _ & _ & [(Hp0 & _)|(_ & [Hp0|Hplot])])];
        try exact Hp0.
      destruct Hplot as (Hd & _). discriminate.
Qed.

(** X11.  [main] saves at most one plot for each symbol, in the order of
    the symbols; each plot is named after its symbol and has one row
    for each of the 366 dates from a year ago to today. *)
Theorem insider_main_plots (env : gmap string string) (w : world) :
  exists plots,
    plots_of (trace (snd (insider_main float_of_str http today env w)))
    = plots_of (trace w) ++ plots
    /\ plots_for (today - 365) today
                 (parse_symbols (default "" (env !! "SYMBOLS"))) plots
    /\ length (date_range (today - 365) today) = 366%nat.
Proof.
  assert (Hlen : length (date_range (today - 365) today) = 366%nat).
  { rewrite length_date_range. replace (today - (today - 365) + 1) with 366 by lia.
    reflexivity. }
  unfold insider_main.
  destruct (nonempty (default "" (env !! "SYMBOLS"))) eqn:E; cbn [negb].
  - destruct (process_symbols_plots (env !! "API_TOKEN")
                (default "https://www.alphavantage.co/query" (env !! "BASE_URL"))
                (today - 365) today
                (parse_symbols (default "" (env !! "SYMBOLS"))) w) as (plots & Hp & Hfor).
    exists plots. split; [exact Hp|]. split; [exact Hfor | exact Hlen].
  - exists []. cbn [snd trace print log emit]. rewrite !plots_of_app, !app_nil_r.
    split; [reflexivity|]. split; [|exact Hlen].
    destruct (default "" (env !! "SYMBOLS")); [constructor | discriminate].
Qed.

Lemma symbol_outcome_failed (start_date end_date : Z) (symbol : string) :
  symbol_outcome float_of_str start_date end_date symbol None None
  = (Done (Some tt), []).
Proof. reflexivity. Qed.

Lemma process_symbols_failed (api_key : option string) (base_url : string)
    (start_date end_date : Z) (symbols : list string) (w : world) :
  (forall n, http n = None) ->
  fst (process_symbols float_of_str http api_key base_url
                       start_date end_date symbols w) = Done tt
  /\ requests_of (trace (snd (process_symbols float_of_str http api_key base_url
                                              start_date end_date symbols w)))
     = requests_of (trace w) ++ insider_schedule symbols
  /\ plots_of (trace (snd (process_symbols float_of_str http api_key base_url
                                           start_date end_date symbols w)))
     = plots_of (trace w).
Proof.
  intros Hnone. revert w. induction symbols as [|symbol rest IH]; intros w.
  - cbn [process_symbols fst snd insider_schedule flat_map]. rewrite app_nil_r.
    repeat split; reflexivity.
  - cbn [process_symbols].
    pose proof (process_symbol_result api_key base_url start_date end_date symbol w) as Hr.
    pose proof (process_symbol_plots api_key base_url start_date end_date symbol w) as Hp.
    destruct (process_symbol_requests api_key base_url start_date end_date symbol w)
      as (p & Hq & _ & Hsched).
    rewrite !Hnone, symbol_outcome_failed in Hr, Hp. cbn [fst snd] in Hr, Hp.
    destruct (process_symbol float_of_str http api_key base_url
                             start_date end_date symbol w) as [r w1].
    cbn [fst snd] in *. subst r.
    destruct Hsched as [[_ Hd]| ->]; [discriminate|].
    destruct (IH w1) as (H1 & H2 & H3).
    split; [exact H1|]. split.
    + rewrite H2, Hq, <- app_assoc. reflexivity.
    + rewrite H3, Hp, app_nil_r. reflexivity.
Qed.

(** X10.  When every request fails, [main] still makes both requests of
    every symbol, saves no plot and returns normally. *)
Theorem insider_main_all_requests_fail (env : gmap string string) (w : world) :
  (forall n, http n = None) ->
  fst (insider_main float_of_str http today env w) = Done tt
  /\ requests_of (trace (snd (insider_main float_of_str http today env w)))
     = requests_of (trace w)
       ++ insider_schedule (parse_symbols (default "" (env !! "SYMBOLS")))
  /\ plots_of (trace (snd (insider_main float_of_str http today env w)))
     = plots_of (trace w).
Proof.
  intros Hnone. unfold insider_main.
  destruct (nonempty (default "" (env !! "SYMBOLS"))) eqn:E; cbn [negb].
  - apply process_symbols_failed. exact Hnone.
  - cbn [fst snd trace print log emit].
    rewrite !requests_of_app, !plots_of_app, !app_nil_r.
    destruct (default "" (env !! "SYMBOLS")); [|discriminate].
    cbn [parse_symbols insider_schedule]. rewrite app_nil_r. repeat split; reflexivity.
Qed.

Lemma loop_body_well_formed (start_date end_date : Z) (st : loop_state)
    (o : list (string * json)) :
  match obj_get o "transactionType" with
  | None | Some (JStr _) => True
  | Some _ => False
  end ->
  exists st', loop_body float_of_str start_date end_date st (to_dict o) = Returns st'.
Proof.
  intros H. unfold loop_body.
  destruct (py_strptime _) as [d|]; [|eexists; reflexivity].
  destruct (_ || _); [eexists; reflexivity|].
  rewrite (to_dict_lookup o "transactionType").
  destruct (obj_get o "transactionType") as [[]|]; try contradiction;
    eexists; reflexivity.
Qed.

Lemma for_each_json_well_formed (start_date end_date : Z) (items : list json)
    (st : loop_state) :
  Forall well_formed_txn items ->
  snd (for_each_json float_of_str start_date end_date items st) = None.
Proof.
  intros H. revert st. induction H as [|x items (o & -> & Ho) _ IH]; intros st.
  - reflexivity.
  - cbn [for_each_json].
    destruct (loop_body_well_formed start_date end_date st o Ho) as (st' & ->).
    apply IH.
Qed.

Lemma compute_insider_history_json_well_formed (items : list json)
    (start_date end_date : Z) (c : crash) :
  Forall well_formed_txn items ->
  fst (compute_insider_history_json float_of_str (JList items) start_date end_date)
  <> Crash c.
Proof.
  intros H. unfold compute_insider_history_json. cbn [py_iter].
  pose proof (for_each_json_well_formed start_date end_date items
                {| records := []; warnings := [] |} H) as Hs.
  destruct (for_each_json _ _ _ _ _) as [st k]. cbn [snd] in Hs. subst k.
  discriminate.
Qed.

Lemma insider_result_well_formed (response : option json) :
  (forall data, response = Some data -> well_formed_response data) ->
  insider_result response = JNull
  \/ exists items, insider_result response = JList items
                   /\ Forall well_formed_txn items.
Proof.
  intros H. unfold insider_result. destruct response as [data|].
  - destruct (H data eq_refl) as (o & -> & Ho).
    destruct (limit_flagged (JObj o)); [left; reflexivity|].
    destruct (obj_get o "data") as [[| | | |items|]|]; try contradiction.
    + left. reflexivity.
    + right. exists items. split; [reflexivity | exact Ho].
    + right. exists []. split; [reflexivity | constructor].
  - right. exists []. split; [reflexivity | constructor].
Qed.

Lemma overview_result_well_formed (response : option json) :
  (forall data, response = Some data -> well_formed_response data) ->
  overview_result response = JNull \/ exists o, overview_result response = JObj o.
Proof.
  intros H. unfold overview_result. destruct response as [data|].
  - destruct (H data eq_refl) as (o & -> & _).
    destruct (limit_flagged (JObj o)); [left; reflexivity|]. right. exists o. reflexivity.
  - right. exists []. reflexivity.
Qed.

Lemma symbol_outcome_well_formed (start_date end_date : Z) (symbol : string)
    (r1 r2 : option json) (c : crash) :
  (forall data, r1 = Some data -> well_formed_response data) ->
  (forall data, r2 = Some data -> well_formed_response data) ->
  fst (symbol_outcome float_of_str start_date end_date symbol r1 r2) <> Crash c.
Proof.
  intros H1 H2. unfold symbol_outcome.
  destruct (insider_result_well_formed r1 H1) as [->|(items & -> & Hitems)];
    [discriminate|]. cbn [is_null].
  destruct (overview_result_well_formed r2 H2) as [->|(o & ->)];
    [discriminate|]. cbn [is_null].
  pose proof (compute_insider_history_json_well_formed items start_date end_date)
    as Hc.
  destruct (fst (compute_insider_history_json float_of_str (JList items)
                                              start_date end_date))
    as [[|r h]|c']; try discriminate.
  intros _. exact (Hc c' Hitems eq_refl).
Qed.

Lemma process_symbols_well_formed (api_key : option string) (base_url : string)
    (start_date end_date : Z) (symbols : list string) (w : world) :
  (forall n data, http n = Some data -> well_formed_response data) ->
  fst (process_symbols float_of_str http api_key base_url
                       start_date end_date symbols w) = Done tt.
Proof.
  intros Hwf. revert w. induction symbols as [|symbol rest IH]; intros w;
    [reflexivity|].
  cbn [process_symbols].
  pose proof (process_symbol_result api_key base_url start_date end_date symbol w) as Hr.
  destruct (process_symbol float_of_str http api_key base_url
                           start_date end_date symbol w) as [[[u|]|c] w1];
    cbn [fst snd] in *; [apply IH | reflexivity |].
  exfalso. symmetry in Hr. revert Hr.
  apply symbol_outcome_well_formed; apply Hwf.
Qed.


End InsiderFacts.

Lemma insider_main_stops_at_limit_witness :
  requests_made (snd (insider_main float_of_int_literal limited_http 738887
                                   sample_env fresh_world)) = 1%nat
  /\ fst (insider_main float_of_int_literal limited_http 738887
                       sample_env fresh_world) = Done tt.
Proof.
  apply (insider_main_stops_at_limit float_of_int_literal limited_http 738887
           sample_env fresh_world 0
           (JObj [("Note"%string, JStr "API call frequency exceeded")])).
  - simpl. lia.
  - vm_compute. lia.
  - reflexivity.
  - reflexivity.
Defined.

Lemma insider_main_all_requests_fail_witness :
  fst (insider_main float_of_int_literal failing_http 738887 sample_env fresh_world)
  = Done tt
  /\ requests_of (trace (snd (insider_main float_of_int_literal failing_http 738887
                                           sample_env fresh_world)))
     = requests_of (trace fresh_world)
       ++ insider_schedule (parse_symbols (default "" (sample_env !! "SYMBOLS")))
  /\ plots_of (trace (snd (insider_main float_of_int_literal failing_http 738887
                                        sample_env fresh_world)))
     = plots_of (trace fresh_world).
Proof.
  apply (insider_main_all_requests_fail float_of_int_literal failing_http 738887
           sample_env fresh_world).
  intros n. reflexivity.
Defined.

Lemma compute_insider_history_non_dict_witness :
  fst (compute_insider_history_json float_of_int_literal
         (JObj sample_overview_response) 738886 738891)
  = Crash CrashAttributeError.
Proof.
  apply (compute_insider_history_non_dict float_of_int_literal
           (JObj sample_overview_response)
           [JStr "Symbol"; JStr "MarketCapitalization"] 738886 738891).
  - reflexivity.
  - left. reflexivity.
Defined.



(** ** Facts about pricePeaks.py *)

Section PeaksFacts.

Variable float_of_str : string -> option Q.
Variable to_datetime : string -> option Z.
Variable argsort : list Q -> list nat.
Variable http : nat -> option json.
Hypothesis argsort_sorts : sorts_ascending argsort.

Lemma sort_by_date_perm (df : list price_row) :
  Permutation (sort_by_date argsort df) df.
Proof.
  unfold sort_by_date. apply take_at_perm.
  rewrite (proj1 (argsort_sorts _)), length_map. reflexivity.
Qed.

Lemma sort_by_date_sorted (df : list price_row) :
  StronglySorted (fun a b => row_date a <= row_date b) (sort_by_date argsort df).
Proof.
  unfold sort_by_date, take_at.
  set (d := {| row_date := 0; row_price := 0%Q; row_ticker := EmptyString |}).
  set (v := map (fun r => inject_Z (row_date r)) df).
  eapply StronglySorted_map_in; [|exact (proj2 (argsort_sorts v))].
  intros a b _ _ H.
  assert (Hat : forall i, at_ v i = inject_Z (row_date (nth i df d))).
  { intros i. unfold at_, v.
    change 0%Q with ((fun r => inject_Z (row_date r)) d). apply map_nth. }
  unfold key_ord in H. rewrite !Hat in H.
  destruct H as [H|[H _]].
  - rewrite <- Zlt_Qlt in H. lia.
  - apply (proj1 (inject_Z_injective _ _)) in H. lia.
Qed.

Lemma sort_by_date_nil (df : list price_row) :
  sort_by_date argsort df = [] <-> df = [].
Proof.
  split; intros H.
  - apply Permutation_nil. rewrite <- H. apply sort_by_date_perm.
  - subst df. apply Permutation_nil. symmetry. apply sort_by_date_perm.
Qed.

Lemma parse_rows_spec (symbol : string) (items : list (string * json))
    (rows : list price_row) :
  parse_rows float_of_str to_datetime symbol items = Some rows ->
  Forall2 (fun item row => to_datetime (fst item) = Some (row_date row)
                           /\ close_of float_of_str (snd item) = Some (row_price row)
                           /\ row_ticker row = symbol) items rows.
Proof.
  unfold parse_rows. intros H. apply mapM_Some_1 in H.
  eapply Forall2_impl; [exact H|]. intros item row Hrow. cbn beta in Hrow.
  destruct (to_datetime (fst item)) as [d|]; [|discriminate].
  destruct (close_of float_of_str (snd item)) as [p|]; [|discriminate].
  simpl in Hrow. injection Hrow as <-. repeat split; reflexivity.
Qed.

(** What [fetch_data_for_symbol] does: one request, and an empty frame
    or the sorted rows of the whole series. *)
Lemma fetch_data_for_symbol_spec (symbol base_url : string)
    (api_token : option string) (w : world) :
  requests_made (snd (fetch_data_for_symbol float_of_str to_datetime argsort http
                                            symbol base_url api_token w))
  = S (requests_made w)
  /\ (exists evs,
        trace (snd (fetch_data_for_symbol float_of_str to_datetime argsort http
                                          symbol base_url api_token w))
        = trace w ++ evs
        /\ requests_of evs = peaks_schedule [symbol]
        /\ reported evs = [])
  /\ (fst (fetch_data_for_symbol float_of_str to_datetime argsort http
                                 symbol base_url api_token w) = []
      \/ exists o time_series rows,
           http (requests_made w) = Some (JObj o)
           /\ obj_get o "Time Series (Daily)" = Some (JObj time_series)
           /\ parse_rows float_of_str to_datetime symbol time_series = Some rows
           /\ rows <> []
           /\ fst (fetch_data_for_symbol float_of_str to_datetime argsort http
                                         symbol base_url api_token w)
              = sort_by_date argsort rows).
Proof.
  unfold fetch_data_for_symbol, peaks_request.
  assert (Hfail : forall A (x : A) msg,
    exists evs,
      trace (print msg {| requests_made := S (requests_made w);
                          trace := trace w ++ [Requested base_url
                             [("function", Some "TIME_SERIES_DAILY");
                              ("symbol", Some symbol); ("apikey", api_token);
                              ("outputsize", Some "compact")]%string] |})
      = trace w ++ evs /\ requests_of evs = peaks_schedule [symbol]
      /\ (match msg with CompanyHeader _ => False | _ => True end -> reported evs = [])).
  { intros _ _ msg. eexists. cbn [trace print emit]. rewrite <- app_assoc.
    split; [reflexivity|]. split; [reflexivity|].
    intros Hmsg. destruct msg; try reflexivity. destruct Hmsg. }
  assert (Hfail' : forall msg, match msg with CompanyHeader _ => False | _ => True end ->
    exists evs,
      trace (print msg {| requests_made := S (requests_made w);
                          trace := trace w ++ [Requested base_url
                             [("function", Some "TIME_SERIES_DAILY");
                              ("symbol", Some symbol); ("apikey", api_token);
                              ("outputsize", Some "compact")]%string] |})
      = trace w ++ evs /\ requests_of evs = peaks_schedule [symbol]
      /\ reported evs = []).
  { intros msg Hmsg. destruct (Hfail _ tt msg) as (evs & H1 & H2 & H3).
    exists evs. split; [exact H1|]. split; [exact H2 | exact (H3 Hmsg)]. }
  clear Hfail.
  destruct (http (requests_made w)) as [data|] eqn:E;
    [|split; [reflexivity|]; split; [apply Hfail'; exact I | left; reflexivity]].
  destruct data as [| | | | |o]; cbn [py_contains];
    try (split; [reflexivity|]; split; [apply Hfail'; exact I | left; reflexivity]).
  - destruct (contains _ _);
      (split; [reflexivity|]; split; [apply Hfail'; exact I | left; reflexivity]).
  - destruct (existsb _ _);
      (split; [reflexivity|]; split; [apply Hfail'; exact I | left; reflexivity]).
  - destruct (has_key o "Time Series (Daily)");
      [|split; [reflexivity|]; split; [apply Hfail'; exact I | left; reflexivity]].
    destruct (obj_get o "Time Series (Daily)") as [[| | | | |ts]|] eqn:Ets;
      try (split; [reflexivity|]; split; [apply Hfail'; exact I | left; reflexivity]).
    destruct (parse_rows float_of_str to_datetime symbol ts) as [[|r rows]|] eqn:Ep;
      try (split; [reflexivity|]; split; [apply Hfail'; exact I | left; reflexivity]).
    cbn [fst snd requests_made trace]. split; [reflexivity|]. split.
    + eexists. split; [reflexivity|]. split; reflexivity.
    + right. exists o, ts, (r :: rows). repeat split; try reflexivity; try assumption.
      discriminate.
Qed.

Lemma fetch_data_for_symbol_ticker (symbol base_url : string)
    (api_token : option string) (w : world) :
  Forall (fun r => row_ticker r = symbol)
    (fst (fetch_data_for_symbol float_of_str to_datetime argsort http
                                symbol base_url api_token w)).
Proof.
  destruct (fetch_data_for_symbol_spec symbol base_url api_token w)
    as (_ & _ & [->|(o & ts & rows & _ & _ & Hp & _ & ->)]); [constructor|].
  apply List.Forall_forall. intros r Hr.
  apply (Permutation_in _ (sort_by_date_perm rows)) in Hr.
  apply parse_rows_spec in Hp.
  apply list_elem_of_In in Hr.
  destruct (list_elem_of_lookup_1 _ _ Hr) as (i & Hi).
  destruct (Forall2_lookup_r _ _ _ _ _ Hp Hi) as (item & _ & _ & _ & Ht).
  exact Ht.
Qed.

(** X14.  The frame [fetch_data_for_symbol] returns is in ascending
    order of date, and every row carries the requested symbol. *)
Theorem fetch_data_for_symbol_sorted (symbol base_url : string)
    (api_token : option string) (w : world) :
  StronglySorted (fun a b => row_date a <= row_date b)
    (fst (fetch_data_for_symbol float_of_str to_datetime argsort http
                                symbol base_url api_token w))
  /\ Forall (fun r => row_ticker r = symbol)
       (fst (fetch_data_for_symbol float_of_str to_datetime argsort http
                                   symbol base_url api_token w)).
Proof.
  split; [|apply fetch_data_for_symbol_ticker].
  destruct (fetch_data_for_symbol_spec symbol base_url api_token w)
    as (_ & _ & [->|(o & ts & rows & _ & _ & _ & _ & ->)]).
  - constructor.
  - apply sort_by_date_sorted.
Qed.

(** X15.  All or nothing: a frame that is not empty has one row for
    every entry of the series, with the date and the closing price read
    from that entry; if one entry cannot be read the frame is empty. *)
Theorem fetch_data_for_symbol_all_or_nothing (symbol base_url : string)
    (api_token : option string) (w : world) :
  fst (fetch_data_for_symbol float_of_str to_datetime argsort http
                             symbol base_url api_token w) <> [] ->
  exists o time_series rows,
    http (requests_made w) = Some (JObj o)
    /\ obj_get o "Time Series (Daily)" = Some (JObj time_series)
    /\ Forall2 (fun item row => to_datetime (fst item) = Some (row_date row)
                                /\ close_of float_of_str (snd item)
                                   = Some (row_price row)) time_series rows
    /\ Permutation (fst (fetch_data_for_symbol float_of_str to_datetime argsort http
                                               symbol base_url api_token w)) rows.
Proof.
  intros Hne.
  destruct (fetch_data_for_symbol_spec symbol base_url api_token w)
    as (_ & _ & [E|(o & ts & rows & Hh & Hts & Hp & _ & E)]); [contradiction|].
  exists o, ts, rows. split; [exact Hh|]. split; [exact Hts|]. split.
  - apply parse_rows_spec in Hp. eapply Forall2_impl; [exact Hp|].
    intros item row (H1 & H2 & _). split; assumption.
  - rewrite E. apply sort_by_date_perm.
Qed.

Lemma fetch_all_requests (api_token : option string) (base_url : string)
    (symbols : list string) (all_data : list (list price_row)) (w : world) :
  requests_of (trace (snd (fetch_all float_of_str to_datetime argsort http
                                     api_token base_url symbols all_data w)))
  = requests_of (trace w) ++ peaks_schedule symbols.
Proof.
  revert all_data w. induction symbols as [|symbol rest IH]; intros all_data w.
  - cbn [fetch_all fst snd peaks_schedule map]. rewrite !app_nil_r. reflexivity.
  - cbn [fetch_all].
    set (w0 := print (Fetching symbol) w).
    destruct (fetch_data_for_symbol_spec symbol base_url api_token w0)
      as (_ & (evs & Ht & Hq & _) & _).
    destruct (fetch_data_for_symbol float_of_str to_datetime argsort http
                                    symbol base_url api_token w0) as [df w1].
    cbn [fst snd] in *. rewrite IH, Ht. unfold w0. cbn [trace print emit].
    rewrite !requests_of_app, Hq, app_nil_r, <- app_assoc. reflexivity.
Qed.

Lemma fetch_all_frames (api_token : option string) (base_url : string)
    (symbols : list string) (all_data : list (list price_row)) (w : world) :
  exists frames,
    fst (fetch_all float_of_str to_datetime argsort http api_token base_url
                   symbols all_data w) = all_data ++ frames
    /\ frames_for symbols frames.
Proof.
  revert all_data w. induction symbols as [|symbol rest IH]; intros all_data w.
  - exists []. cbn [fetch_all fst]. rewrite !app_nil_r. split; constructor.
  - cbn [fetch_all].
    set (w0 := print (Fetching symbol) w).
    pose proof (fetch_data_for_symbol_ticker symbol base_url api_token w0) as Htick.
    destruct (fetch_data_for_symbol float_of_str to_datetime argsort http
                                    symbol base_url api_token w0) as [df w1].
    cbn [fst snd] in *.
    destruct df as [|r df].
    + destruct (IH all_data w1) as (frames & Hf & Hfor).
      exists frames. split; [exact Hf | apply frames_for_skip, Hfor].
    + destruct (IH (all_data ++ [r :: df]) w1) as (frames & Hf & Hfor).
      exists ((r :: df) :: frames). split; [rewrite Hf, <- app_assoc; reflexivity|].
      apply frames_for_frame; [discriminate | exact Htick | exact Hfor].
Qed.

Lemma requests_of_peaks (peaks : list (Z * Q)) :
  requests_of (map (fun p => Printed (PeakAt (fst p) (snd p))) peaks) = [].
Proof. induction peaks as [|p peaks IH]; [reflexivity | exact IH]. Qed.

Lemma requests_of_display (results : list (string * list (Z * Q))) :
  requests_of (flat_map display_company results) = [].
Proof.
  induction results as [|[c peaks] results IH]; [reflexivity|].
  cbn [flat_map]. rewrite requests_of_app, IH, app_nil_r.
  destruct peaks as [|p peaks]; [reflexivity|].
  apply (requests_of_peaks (p :: peaks)).
Qed.

(** X17.  pricePeaks requests every symbol once, in order, whatever the
    responses are: a failure or a limit note does not stop it. *)
Theorem peaks_main_requests (env : gmap string string) (w : world) :
  requests_of (trace (snd (peaks_main float_of_str to_datetime argsort http env w)))
  = requests_of (trace w)
    ++ peaks_schedule (parse_symbols (default "" (env !! "SYMBOLS"))).
Proof.
  unfold peaks_main.
  destruct (nonempty (default "" (env !! "SYMBOLS"))) eqn:E; cbn [negb].
  - pose proof (fetch_all_requests (env !! "API_TOKEN")
                (default "https://www.alphavantage.co/query" (env !! "BASE_URL"))
                (parse_symbols (default "" (env !! "SYMBOLS"))) [] w) as Hreq.
    destruct (fetch_all _ _ _ _ _ _ _ _ _) as [all_data w1]. cbn [snd] in Hreq.
    destruct all_data as [|df all_data].
    + cbn [snd trace print emit]. rewrite requests_of_app, app_nil_r. exact Hreq.
    + destruct (peak_results argsort _) as [results|c];
        cbn [snd trace print emit emit_all].
      * rewrite !requests_of_app, Hreq, requests_of_display, !app_nil_r.
        reflexivity.
      * rewrite requests_of_app, Hreq, app_nil_r. reflexivity.
  - cbn [snd trace print emit]. rewrite requests_of_app, app_nil_r.
    destruct (default "" (env !! "SYMBOLS")); [|discriminate].
    cbn [parse_symbols peaks_schedule]. rewrite app_nil_r. reflexivity.
Qed.

(** X16.  The first loop of [main] keeps at most one frame for each
    symbol, in the order of the symbols; no frame it keeps is empty and
    each holds rows of its symbol only. *)
Theorem fetch_all_collects (api_token : option string) (base_url : string)
    (symbols : list string) (w : world) :
  frames_for symbols
    (fst (fetch_all float_of_str to_datetime argsort http api_token base_url
                    symbols [] w)).
Proof.
  destruct (fetch_all_frames api_token base_url symbols [] w) as (frames & -> & H).
  exact H.
Qed.

Lemma get_top_companies_firstn (df : list (string * Q)) (top_n : nat) :
  get_top_companies argsort df top_n = firstn top_n (ranked_companies argsort df).
Proof. unfold get_top_companies, ranked_companies. symmetry. apply firstn_map. Qed.

Lemma ranked_companies_NoDup (df : list (string * Q)) :
  List.NoDup (ranked_companies argsort df).
Proof.
  eapply Permutation_NoDup.
  - symmetry. apply (ranked_companies_perm argsort argsort_sorts).
  - eapply StronglySorted_irrefl_NoDup; [exact str_lt_irrefl | apply groupby_sorted].
Qed.

Lemma NoDup_firstn {A} (n : nat) (l : list A) : List.NoDup l -> List.NoDup (firstn n l).
Proof.
  intros H. rewrite <- (firstn_skipn n l) in H.
  exact (NoDup_app_remove_r _ _ H).
Qed.

Lemma get_top_companies_NoDup (df : list (string * Q)) (top_n : nat) :
  List.NoDup (get_top_companies argsort df top_n).
Proof.
  rewrite get_top_companies_firstn. apply NoDup_firstn, ranked_companies_NoDup.
Qed.

Lemma get_top_companies_In (df : list (string * Q)) (top_n : nat) (c : string) :
  In c (get_top_companies argsort df top_n) -> In c (map fst df).
Proof.
  rewrite get_top_companies_firstn. intros Hc. apply firstn_In in Hc.
  apply (Permutation_in _ (ranked_companies_perm argsort argsort_sorts df)) in Hc.
  apply groupby_keys. exact Hc.
Qed.

Lemma get_top_companies_length (df : list (string * Q)) (top_n : nat) :
  length (get_top_companies argsort df top_n) = Nat.min top_n (length (groupby df)).
Proof.
  rewrite get_top_companies_firstn, length_firstn.
  rewrite (Permutation_length (ranked_companies_perm argsort argsort_sorts df)).
  rewrite length_map. reflexivity.
Qed.

(** X18.  [get_top_companies] returns distinct tickers of the frame:
    as many as the frame has when [top_n] is not smaller, [top_n] of
    them otherwise. *)
Theorem get_top_companies_distinct (df : list (string * Q)) (top_n : nat) :
  List.NoDup (get_top_companies argsort df top_n)
  /\ (forall c, In c (get_top_companies argsort df top_n) -> In c (map fst df))
  /\ length (get_top_companies argsort df top_n)
     = Nat.min top_n (length (groupby df)).
Proof.
  split; [apply get_top_companies_NoDup|].
  split; [apply get_top_companies_In | apply get_top_companies_length].
Qed.

Lemma dict_set_fresh {V} (d : list (string * V)) (k : string) (v : V) :
  ~ In k (map fst d) -> dict_set d k v = d ++ [(k, v)].
Proof.
  induction d as [|[k' v'] d IH]; intros H; [reflexivity|].
  cbn [dict_set]. destruct (String.eqb_spec k' k) as [->|N].
  - exfalso. apply H. left. reflexivity.
  - cbn [app]. rewrite IH; [reflexivity|]. intros Hin. apply H. right. exact Hin.
Qed.

(** The peaks [main] stores for a company. *)
Lemma company_peaks (data_df : list price_row) (company : string) :
  exists peaks,
    extract_peaks_from_series argsort
      (map row_date (company_df argsort data_df company))
      (map row_price (company_df argsort data_df company)) 3 = Some peaks
    /\ (length peaks <= 3)%nat
    /\ Forall (fun p => exists r, In r data_df /\ row_ticker r = company
                                  /\ row_date r = fst p /\ row_price r = snd p)
              peaks.
Proof.
  set (df := company_df argsort data_df company).
  destruct (extract_peaks_from_series_rows argsort (map row_date df)
              (map row_price df) 3 argsort_sorts) as (peaks & Hp & Hrows).
  { rewrite !length_map. reflexivity. }
  exists peaks. split; [exact Hp|]. split.
  - rewrite <- (Forall2_length _ _ _ Hrows).
    rewrite (top_peak_indices_firstn argsort argsort_sorts), length_firstn.
    apply Nat.le_min_l.
  - apply List.Forall_forall. intros p Hin. apply list_elem_of_In in Hin.
    destruct (list_elem_of_lookup_1 _ _ Hin) as (j & Hj).
    destruct (Forall2_lookup_r _ _ _ _ _ Hrows Hj) as (i & _ & Hd & Hv).
    change (map row_date df) with (row_date <$> df) in Hd.
    change (map row_price df) with (row_price <$> df) in Hv.
    rewrite list_lookup_fmap in Hd. rewrite list_lookup_fmap in Hv.
    destruct (df !! i) as [r|] eqn:Er; [|discriminate].
    cbn in Hd, Hv. injection Hd as Hd. injection Hv as Hv.
    exists r. apply list_elem_of_lookup_2, list_elem_of_In in Er.
    unfold df, company_df in Er.
    apply (Permutation_in _ (sort_by_date_perm _)) in Er.
    apply filter_In in Er as [Hdata Ht]. apply String.eqb_eq in Ht.
    repeat split; assumption.
Qed.

Lemma collect_peaks_spec (data_df : list price_row) (companies : list string)
    (results : list (string * list (Z * Q))) :
  List.NoDup (map fst results ++ companies) ->
  exists out,
    collect_peaks argsort data_df companies results = Done (results ++ out)
    /\ map fst out = companies
    /\ Forall (fun item =>
                 extract_peaks_from_series argsort
                   (map row_date (company_df argsort data_df (fst item)))
                   (map row_price (company_df argsort data_df (fst item))) 3
                 = Some (snd item)) out.
Proof.
  revert results. induction companies as [|company rest IH]; intros results Hnd.
  - exists []. rewrite app_nil_r. repeat split; constructor.
  - cbn [collect_peaks].
    destruct (company_peaks data_df company) as (peaks & Hp & _).
    rewrite Hp.
    assert (Hfresh : ~ In company (map fst results)).
    { intros Hin. apply NoDup_remove_2 in Hnd. apply Hnd.
      apply in_or_app. left. exact Hin. }
    rewrite (dict_set_fresh _ _ _ Hfresh).
    destruct (IH (results ++ [(company, peaks)])) as (out & Hc & Hk & Hf).
    { rewrite map_app, <- app_assoc. exact Hnd. }
    exists ((company, peaks) :: out). rewrite Hc, <- app_assoc.
    split; [reflexivity|]. split; [cbn [map fst]; rewrite Hk; reflexivity|].
    constructor; [exact Hp | exact Hf].
Qed.

Lemma peak_results_done (data_df : list price_row) :
  exists results,
    peak_results argsort data_df = Done results
    /\ map fst results = top_companies_of argsort data_df
    /\ Forall (fun item =>
                 extract_peaks_from_series argsort
                   (map row_date (company_df argsort data_df (fst item)))
                   (map row_price (company_df argsort data_df (fst item))) 3
                 = Some (snd item)) results.
Proof.
  unfold peak_results.
  apply (collect_peaks_spec data_df (top_companies_of argsort data_df) []).
  apply get_top_companies_NoDup.
Qed.

Lemma top_companies_of_facts (data_df : list price_row) :
  List.NoDup (top_companies_of argsort data_df)
  /\ (length (top_companies_of argsort data_df) <= 5)%nat
  /\ forall c, In c (top_companies_of argsort data_df) ->
               In c (map row_ticker data_df).
Proof.
  unfold top_companies_of. split; [apply get_top_companies_NoDup|]. split.
  - rewrite get_top_companies_length. apply Nat.le_min_l.
  - intros c Hc. apply get_top_companies_In in Hc. rewrite map_map in Hc. exact Hc.
Qed.


Lemma reported_app (a b : list io_event) : reported (a ++ b) = reported a ++ reported b.
Proof. apply omap_app. Qed.

Lemma fetch_all_reported (api_token : option string) (base_url : string)
    (symbols : list string) (all_data : list (list price_row)) (w : world) :
  reported (trace (snd (fetch_all float_of_str to_datetime argsort http
                                  api_token base_url symbols all_data w)))
  = reported (trace w).
Proof.
  revert all_data w. induction symbols as [|symbol rest IH]; intros all_data w;
    [reflexivity|].
  cbn [fetch_all].
  set (w0 := print (Fetching symbol) w).
  destruct (fetch_data_for_symbol_spec symbol base_url api_token w0)
    as (_ & (evs & Ht & _ & Hrep) & _).
  destruct (fetch_data_for_symbol float_of_str to_datetime argsort http
                                  symbol base_url api_token w0) as [df w1].
  cbn [fst snd] in *. rewrite IH, Ht. unfold w0. cbn [trace print emit].
  rewrite !reported_app, Hrep, !app_nil_r. reflexivity.
Qed.

Lemma reported_peaks (peaks : list (Z * Q)) :
  reported (map (fun p => Printed (PeakAt (fst p) (snd p))) peaks) = [].
Proof. induction peaks as [|p peaks IH]; [reflexivity | exact IH]. Qed.

Lemma reported_display_company (item : string * list (Z * Q)) :
  reported (display_company item) = [fst item].
Proof.
  destruct item as [c [|p peaks]]; [reflexivity|].
  unfold display_company. cbn [fst snd].
  change (reported (Printed (CompanyHeader c)
                    :: map (fun p => Printed (PeakAt (fst p) (snd p))) (p :: peaks)))
    with (c :: reported (map (fun p => Printed (PeakAt (fst p) (snd p))) (p :: peaks))).
  rewrite reported_peaks. reflexivity.
Qed.

Lemma reported_display (results : list (string * list (Z * Q))) :
  reported (flat_map display_company results) = map fst results.
Proof.
  induction results as [|item results IH]; [reflexivity|].
  cbn [flat_map map]. rewrite reported_app, IH, reported_display_company. reflexivity.
Qed.

Lemma frames_for_tickers (symbols : list string) (frames : list (list price_row)) :
  frames_for symbols frames ->
  forall r, In r (concat frames) -> In (row_ticker r) symbols.
Proof.
  induction 1 as [|symbol symbols frames _ IH|symbol symbols df frames _ Ht _ IH];
    intros r Hr.
  - destruct Hr.
  - right. exact (IH r Hr).
  - cbn [concat] in Hr. apply in_app_or in Hr as [Hr|Hr].
    + left. symmetry. exact (proj1 (List.Forall_forall _ _) Ht r Hr).
    + right. exact (IH r Hr).
Qed.

(** X22.  pricePeaks reports at most five companies, all different,
    each one of the symbols it was given. *)
Theorem peaks_main_reports (env : gmap string string) (w : world) :
  exists companies,
    reported (trace (snd (peaks_main float_of_str to_datetime argsort http env w)))
    = reported (trace w) ++ companies
    /\ List.NoDup companies
    /\ (length companies <= 5)%nat
    /\ forall c, In c companies ->
                 In c (parse_symbols (default "" (env !! "SYMBOLS"))).
Proof.
  assert (Hnone : forall w', reported (trace w') = reported (trace w) ->
            exists companies : list string,
              reported (trace w') = reported (trace w) ++ companies
              /\ List.NoDup companies /\ (length companies <= 5)%nat
              /\ forall c, In c companies ->
                           In c (parse_symbols (default "" (env !! "SYMBOLS")))).
  { intros w' H. exists []. rewrite app_nil_r. split; [exact H|].
    split; [constructor|]. split; [simpl; lia | intros c []]. }
  unfold peaks_main.
  destruct (nonempty (default "" (env !! "SYMBOLS"))); cbn [negb].
  - pose proof (fetch_all_reported (env !! "API_TOKEN")
                  (default "https://www.alphavantage.co/query" (env !! "BASE_URL"))
                  (parse_symbols (default "" (env !! "SYMBOLS"))) [] w) as Hrep.
    destruct (fetch_all_frames (env !! "API_TOKEN")
                (default "https://www.alphavantage.co/query" (env !! "BASE_URL"))
                (parse_symbols (default "" (env !! "SYMBOLS"))) [] w)
      as (frames & Hfr & Hfor).
    destruct (fetch_all _ _ _ _ _ _ _ _ _) as [all_data w1].
    cbn [fst snd app] in Hrep, Hfr. subst frames.
    destruct all_data as [|df all_data].
    + cbn [snd]. apply Hnone. cbn [trace print emit].
      rewrite reported_app, app_nil_r. exact Hrep.
    + destruct (peak_results_done (concat (df :: all_data)))
        as (results & -> & Hk & _).
      destruct (top_companies_of_facts (concat (df :: all_data)))
        as (Hnd & Hlen & Hin).
      cbn [snd trace print emit emit_all].
      exists (map fst results).
      rewrite !reported_app, reported_display, Hrep, app_nil_r, Hk.
      split; [reflexivity|]. split; [exact Hnd|]. split; [exact Hlen|].
      intros c Hc. apply Hin in Hc.
      apply in_map_iff in Hc as (r & <- & Hr).
      exact (frames_for_tickers _ _ Hfor r Hr).
  - cbn [snd]. apply Hnone. cbn [trace print emit].
    rewrite reported_app, app_nil_r. reflexivity.
Qed.

End PeaksFacts.

Lemma fetch_data_for_symbol_sorted_witness :
  StronglySorted (fun a b => row_date a <= row_date b)
    (fst (fetch_data_for_symbol float_of_int_literal strptime_ymd argsort_insertion
            price_http "AAPL" "https://example.test" None fresh_world))
  /\ Forall (fun r => row_ticker r = "AAPL"%string)
       (fst (fetch_data_for_symbol float_of_int_literal strptime_ymd argsort_insertion
               price_http "AAPL" "https://example.test" None fresh_world)).
Proof.
  apply (fetch_data_for_symbol_sorted float_of_int_literal strptime_ymd
           argsort_insertion price_http argsort_insertion_sorts
           "AAPL" "https://example.test" None fresh_world).
Defined.

Lemma fetch_data_for_symbol_all_or_nothing_witness :
  exists o time_series rows,
    price_http (requests_made fresh_world) = Some (JObj o)
    /\ obj_get o "Time Series (Daily)" = Some (JObj time_series)
    /\ Forall2 (fun item row => strptime_ymd (fst item) = Some (row_date row)
                                /\ close_of float_of_int_literal (snd item)
                                   = Some (row_price row)) time_series rows
    /\ Permutation
         (fst (fetch_data_for_symbol float_of_int_literal strptime_ymd
                 argsort_insertion price_http "AAPL" "https://example.test"
                 None fresh_world)) rows.
Proof.
  apply (fetch_data_for_symbol_all_or_nothing float_of_int_literal strptime_ymd
           argsort_insertion price_http argsort_insertion_sorts
           "AAPL" "https://example.test" None fresh_world).
  intros H. vm_compute in H. discriminate H.
Defined.

Lemma fetch_all_collects_witness :
  frames_for ["AAPL"; "MSFT"]%string
    (fst (fetch_all float_of_int_literal strptime_ymd argsort_insertion price_http
            None "https://example.test" ["AAPL"; "MSFT"]%string [] fresh_world)).
Proof.
  apply (fetch_all_collects float_of_int_literal strptime_ymd argsort_insertion
           price_http argsort_insertion_sorts None "https://example.test"
           ["AAPL"; "MSFT"]%string fresh_world).
Defined.

Lemma get_top_companies_distinct_witness :
  List.NoDup (get_top_companies argsort_insertion cohort_tie_rows 1)
  /\ (forall c, In c (get_top_companies argsort_insertion cohort_tie_rows 1) ->
                In c (map fst cohort_tie_rows))
  /\ length (get_top_companies argsort_insertion cohort_tie_rows 1)
     = Nat.min 1 (length (groupby cohort_tie_rows)).
Proof.
  apply (get_top_companies_distinct argsort_insertion argsort_insertion_sorts
           cohort_tie_rows 1).
Defined.



(** ** The one exception of [extract_peaks_from_series] *)

Lemma flat_peak_in_range (v : list Q) (i : nat) : flat_peak v i -> (i < length v)%nat.
Proof.
  intros (l & r & _ & Hlr & Hr & -> & _).
  assert (((l + r) / 2 <= r)%nat); [|lia].
  apply Nat.Div0.div_le_upper_bound. lia.
Qed.

(** X19.  [extract_peaks_from_series] raises [IndexError] exactly when
    one of the positions it selects has no date. *)
Theorem extract_peaks_index_error {D} (argsort : list Q -> list nat)
    (dates : list D) (values : list Q) (num_peaks : nat) :
  sorts_ascending argsort ->
  extract_peaks_from_series argsort dates values num_peaks = None
  <-> exists i, In i (top_peak_indices argsort values num_peaks)
                /\ (length dates <= i)%nat.
Proof.
  intros Hsorts. unfold extract_peaks_from_series. rewrite mapM_None.
  rewrite List.Exists_exists. split.
  - intros (i & Hin & Hf). exists i. split; [exact Hin|].
    destruct (dates !! i) as [d|] eqn:Ed; [|apply lookup_ge_None; exact Ed].
    exfalso. cbn in Hf.
    assert (Hlt : (i < length values)%nat).
    { apply flat_peak_in_range, find_peaks_spec.
      rewrite (top_peak_indices_firstn argsort Hsorts) in Hin.
      apply firstn_In in Hin.
      exact (Permutation_in _ (sorted_peak_indices_perm argsort Hsorts values) Hin). }
    destruct (lookup_lt_is_Some_2 _ _ Hlt) as (x & Hx). rewrite Hx in Hf.
    discriminate.
  - intros (i & Hin & Hlen). exists i. split; [exact Hin|].
    apply lookup_ge_None in Hlen. rewrite Hlen. reflexivity.
Qed.

Lemma extract_peaks_index_error_witness :
  extract_peaks_from_series argsort_insertion short_dates peaks_series 3 = None
  <-> exists i, In i (top_peak_indices argsort_insertion peaks_series 3)
                /\ (length short_dates <= i)%nat.
Proof.
  apply (extract_peaks_index_error argsort_insertion short_dates peaks_series 3).
  exact argsort_insertion_sorts.
Defined.

(** ** When no symbol is read *)

Lemma lstrip_nil_iff (s : string) :
  lstrip s = EmptyString
  <-> Forall (fun c => is_space c = true) (list_ascii_of_string s).
Proof.
  induction s as [|c s IH]; cbn [lstrip list_ascii_of_string].
  - split; [constructor | reflexivity].
  - destruct (is_space c) eqn:E.
    + rewrite IH. split; [intros H; constructor; assumption|].
      intros H. inversion H; assumption.
    + split; [discriminate|]. intros H. inversion H; congruence.
Qed.

Lemma rstrip_nil_iff (s : string) :
  rstrip s = EmptyString
  <-> Forall (fun c => is_space c = true) (list_ascii_of_string s).
Proof.
  induction s as [|c s IH]; cbn [rstrip list_ascii_of_string].
  - split; [constructor | reflexivity].
  - destruct (rstrip s) as [|c' r] eqn:Er.
    + destruct (is_space c) eqn:E.
      * split; [intros _; constructor; [exact E | apply IH; reflexivity] | reflexivity].
      * split; [discriminate|]. intros H. inversion H; congruence.
    + split; [discriminate|]. intros H. inversion H as [|? ? _ Hs]; subst.
      apply IH in Hs. discriminate.
Qed.

Lemma strip_nil_iff (s : string) :
  strip s = EmptyString
  <-> Forall (fun c => is_space c = true) (list_ascii_of_string s).
Proof.
  unfold strip. split.
  - intros H. apply lstrip_nil_iff.
    destruct (lstrip_first s) as [E|Hf]; [exact E|].
    apply rstrip_nil_iff in H.
    destruct (lstrip s) as [|c r]; [reflexivity|].
    cbn [first_char_ok] in Hf. inversion H; congruence.
  - intros H. apply lstrip_nil_iff in H. rewrite H. reflexivity.
Qed.

Lemma contains_comma_in (s : string) :
  In ","%char (list_ascii_of_string s) -> contains "," s = true.
Proof.
  induction s as [|c s IH]; [intros []|].
  rewrite contains_comma_cons. intros [->|H].
  - reflexivity.
  - rewrite (IH H). apply orb_true_r.
Qed.

Lemma split_on_chars_in (s p : string) (c : ascii) :
  In p (split_on "," s) -> In c (list_ascii_of_string p) ->
  In c (list_ascii_of_string s).
Proof.
  revert p. induction s as [|a s IH]; intros p; cbn [split_on].
  - intros [<-|[]] H. exact H.
  - destruct (Ascii.eqb a ",").
    + intros [<-|Hp] H; [destruct H|]. right. exact (IH p Hp H).
    + pose proof (split_on_nonnil "," s) as Hne.
      destruct (split_on "," s) as [|h t]; [congruence|].
      intros [<-|Hp] H.
      * destruct H as [->|H]; [left; reflexivity|].
        right. apply (IH h); [left; reflexivity | exact H].
      * right. apply (IH p); [right; exact Hp | exact H].
Qed.

Lemma split_on_chars_cover (s : string) (c : ascii) :
  In c (list_ascii_of_string s) ->
  c = ","%char
  \/ exists p, In p (split_on "," s) /\ In c (list_ascii_of_string p).
Proof.
  induction s as [|a s IH]; [intros []|]. cbn [split_on list_ascii_of_string].
  pose proof (split_on_nonnil "," s) as Hne.
  intros [->|H].
  - destruct (Ascii.eqb_spec c ",") as [->|N]; [left; reflexivity|]. right.
    destruct (split_on "," s) as [|h t]; [congruence|].
    exists (String c h). split; left; reflexivity.
  - destruct (IH H) as [->|(p & Hp & Hc)]; [left; reflexivity|]. right.
    destruct (Ascii.eqb a ",").
    + exists p. split; [right; exact Hp | exact Hc].
    + destruct (split_on "," s) as [|h t]; [congruence|].
      destruct Hp as [<-|Hp].
      * exists (String a h). split; [left; reflexivity | right; exact Hc].
      * exists p. split; [right; exact Hp | exact Hc].
Qed.

Lemma parse_symbols_nil_pieces (symbols_str : string) :
  parse_symbols symbols_str = []
  <-> forall p, In p (split_on "," symbols_str) -> strip p = EmptyString.
Proof.
  unfold parse_symbols. split.
  - intros H p Hp. apply map_eq_nil in H.
    destruct (String.eqb_spec (strip p) EmptyString) as [E|N]; [exact E|].
    assert (Hin : In p (List.filter (fun s => nonempty (strip s))
                                    (split_on "," symbols_str))).
    { apply filter_In. split; [exact Hp | apply nonempty_spec; exact N]. }
    rewrite H in Hin. destruct Hin.
  - intros H. induction (split_on "," symbols_str) as [|p l IH]; [reflexivity|].
    cbn [List.filter]. rewrite (H p (or_introl eq_refl)). cbn [nonempty String.eqb negb].
    apply IH. intros q Hq. apply H. right. exact Hq.
Qed.


(** X4.  With SYMBOLS set to commas and whitespace only, neither
    program makes a request: insiderTransactions returns at once, with
    nothing logged or printed, and pricePeaks prints that no data was
    fetched. *)
Theorem mains_without_symbols (float_of_str : string -> option Q)
    (to_datetime : string -> option Z) (argsort : list Q -> list nat)
    (http : nat -> option json) (today : Z)
    (env : gmap string string) (symbols_str : string) (w : world) :
  env !! "SYMBOLS" = Some symbols_str ->
  symbols_str <> EmptyString ->
  parse_symbols symbols_str = [] ->
  insider_main float_of_str http today env w = (Done tt, w)
  /\ peaks_main float_of_str to_datetime argsort http env w
     = (Done tt, print NoDataFetched w).
Proof.
  intros Henv Hne Hnil. unfold insider_main, peaks_main. rewrite Henv.
  cbn [default from_option id]. apply nonempty_spec in Hne. rewrite Hne, Hnil.
  split; reflexivity.
Qed.

Lemma mains_without_symbols_witness :
  insider_main float_of_int_literal limited_http 738887 blank_env fresh_world
  = (Done tt, fresh_world)
  /\ peaks_main float_of_int_literal strptime_ymd argsort_insertion limited_http
                blank_env fresh_world
     = (Done tt, print NoDataFetched fresh_world).
Proof.
  apply (mains_without_symbols float_of_int_literal strptime_ymd argsort_insertion
           limited_http 738887 blank_env " , ," fresh_world).
  - reflexivity.
  - discriminate.
  - reflexivity.
Defined.

Lemma peaks_main_reports_witness :
  exists companies,
    reported (trace (snd (peaks_main float_of_int_literal strptime_ymd
                                     argsort_insertion price_http
                                     sample_env fresh_world)))
    = reported (trace fresh_world) ++ companies
    /\ List.NoDup companies
    /\ (length companies <= 5)%nat
    /\ forall c, In c companies ->
                 In c (parse_symbols (default "" (sample_env !! "SYMBOLS"))).
Proof.
  apply (peaks_main_reports float_of_int_literal strptime_ymd argsort_insertion
           price_http argsort_insertion_sorts sample_env fresh_world).
Defined.
